(** * SmartClip: the client-side video re-encoding pipeline

    A shallow embedding of [utils/videoProcessor.ts] ([compressVideo] and
    [cutVideo]) and the properties of the specification that concern it,
    followed by the code around it: the end of [services/geminiService.ts]
    and the handlers of the application component ([App.tsx]), which run
    the two functions.

    The two functions are written in the source as nests of event handlers
    around a [Promise].  JavaScript runs every handler to completion on one
    event loop, so a run is modelled as a state machine: a handler is a
    function on the run's [State], and the browser is the environment that
    delivers [Event]s.  Everything the code does to its collaborators (the
    video element, the canvas, the [MediaRecorder], the progress callback,
    the promise) is written, in order, to the [trace] of the state.

    Numbers.  JavaScript numbers are IEEE doubles; times and ratios are
    modelled as exact rationals ([Q]), [Math.round x] as [floor (x + 1/2)].
    NaN and the infinities are not modelled: the results about arithmetic
    assume non-zero divisors.  Where a double can differ from the exact
    value, the statements are made on the range where both agree or leave
    the difference open: a scaled width is given to within half a pixel on
    either side (at an exact tie the double can round either way), for
    intrinsic sizes below 2^32, and the text of a number is given up to
    [MAX_SAFE_INTEGER].

    The browser.  What the code relies on but does not contain is kept in a
    [Platform] record (which recorder configurations construct, whether a 2d
    context is available, what [stop()] does on an inactive recorder) and in
    the enabling conditions of the events, which follow the HTML and
    MediaStream Recording specifications:
    - a callback handed to [setTimeout], [requestAnimationFrame] or
      [play().then/catch] runs once per registration;
    - [loadedmetadata] is delivered once per load;
    - the recorder fires [stop] once each time it leaves the recording
      state, which happens on [stop()] or when the recorder fails by
      itself. *)

From Stdlib Require Import List ZArith QArith Qround Bool String Lia Sorted.
From Stdlib Require Import Ascii Decimal DecimalString DecimalZ DecimalPos.
Import ListNotations.
Local Open Scope string_scope.
Local Open Scope list_scope.
Local Open Scope Z_scope.

(* ================================================================= *)
(** ** Data *)

(** [e.data] of a [BlobEvent]: an opaque run of bytes; [e.data.size] is its
    length. *)
Definition Chunk := list Byte.byte.

Definition nonEmpty (c : Chunk) : bool :=
  match c with [] => false | _ :: _ => true end.

(** The caller's [File].  The code reads nothing of it but [size], and hands
    the object itself to [URL.createObjectURL] or to [resolve]. *)
Record File := mkFile { name : string; size : Z; mime : string }.

(** What the promise resolves with: the caller's file itself, or
    [new Blob(chunks, { type })]. *)
Inductive Blob :=
| OfFile (f : File)
| NewBlob (parts : list Chunk) (type : string).

(** The bytes of a constructed blob are its parts, one after the other. *)
Definition blobBytes (parts : list Chunk) : list Byte.byte := List.concat parts.

Inductive JsError :=
| Error (message : string)
| DOMException (errorName : string).

Inductive Promise :=
| Pending
| Resolved (b : Blob)
| Rejected (e : JsError).

(** A promise settles once: later [resolve]/[reject] calls do nothing. *)
Definition settle (new old : Promise) : Promise :=
  match old with Pending => new | _ => old end.

(** [MediaRecorder.state]. *)
Inductive RecordingState := Inactive | Recording | Paused.

(** What a handler reads off the video element when it runs. *)
Record Obs := mkObs { paused : bool; ended : bool; currentTime : Q }.

Record Platform := mkPlatform {
  (** does [new MediaRecorder(stream, { mimeType })] construct? *)
  isTypeSupported : string -> bool;
  (** does [canvas.getContext('2d')] return a context? *)
  context2d : bool;
  (** does [stop()] on an inactive recorder throw [InvalidStateError]
      (earlier browsers) or do nothing (the current specification)? *)
  stopInactiveThrows : bool;
  (** the intrinsic size, when the element already has its metadata at the
      [readyState >= 1] test of [cutVideo]. *)
  readyAtCreation : option (Z * Z)
}.

(** Calls made on the collaborators, in program order. *)
Inductive Effect :=
| CreateVideo
| CreateObjectURL (f : File)
| RevokeObjectURL
| Seek (t : Q)                               (* video.currentTime = t *)
| CreateCanvas (w h : Z)
| CaptureStream (fps : Z)
| NewMediaRecorder (mimeType : string) (bps : Z) (ok : bool)
| RecorderStart
| RecorderStop
| SetPlaybackRate (r : Q)
| Play
| Pause
| DrawImage (t : Q) (w h : Z)                (* the frame visible at [t] *)
| Progress (p : Z)                           (* onProgress(p) *)
| SetTimeout (ms : Z)
| RequestAnimationFrame
| ConsoleError
| Resolve (b : Blob)
| Reject (e : JsError)
| Uncaught (e : JsError).                    (* an exception leaves a handler *)

Record State := mkState {
  trace : list Effect;
  promise : Promise;
  video : bool;                  (* element created, [onerror] installed *)
  urlLive : bool;                (* object URL created and not revoked *)
  awaitMetadata : bool;          (* [onloadedmetadata] installed, not yet run *)
  surface : option (Z * Z);      (* canvas.width, canvas.height *)
  recorder : option RecordingState;
  stopQueued : bool;             (* the recorder owes a [stop] event *)
  chunks : list Chunk;
  timers : nat;                  (* [setTimeout] callbacks not yet run *)
  playPending : bool;            (* [play()] promise not yet settled *)
  rafPending : bool;             (* an animation-frame callback is scheduled *)
  onendedSet : bool;             (* [video.onended] installed *)
  duration : Q                   (* [const duration] of [compressVideo] *)
}.

Definition blank : State :=
  mkState [] Pending false false false None None false [] 0 false false false 0%Q.

(* ----------------------------------------------------------------- *)
(** *** Primitive updates *)

Definition emit (e : Effect) (s : State) : State :=
  mkState (trace s ++ [e]) (promise s) (video s) (urlLive s) (awaitMetadata s)
    (surface s) (recorder s) (stopQueued s) (chunks s) (timers s)
    (playPending s) (rafPending s) (onendedSet s) (duration s).

Definition setPromise (p : Promise) (s : State) : State :=
  mkState (trace s) p (video s) (urlLive s) (awaitMetadata s)
    (surface s) (recorder s) (stopQueued s) (chunks s) (timers s)
    (playPending s) (rafPending s) (onendedSet s) (duration s).

Definition setVideo (b : bool) (s : State) : State :=
  mkState (trace s) (promise s) b (urlLive s) (awaitMetadata s)
    (surface s) (recorder s) (stopQueued s) (chunks s) (timers s)
    (playPending s) (rafPending s) (onendedSet s) (duration s).

Definition setUrlLive (b : bool) (s : State) : State :=
  mkState (trace s) (promise s) (video s) b (awaitMetadata s)
    (surface s) (recorder s) (stopQueued s) (chunks s) (timers s)
    (playPending s) (rafPending s) (onendedSet s) (duration s).

Definition setAwaitMetadata (b : bool) (s : State) : State :=
  mkState (trace s) (promise s) (video s) (urlLive s) b
    (surface s) (recorder s) (stopQueued s) (chunks s) (timers s)
    (playPending s) (rafPending s) (onendedSet s) (duration s).

Definition setSurface (d : option (Z * Z)) (s : State) : State :=
  mkState (trace s) (promise s) (video s) (urlLive s) (awaitMetadata s)
    d (recorder s) (stopQueued s) (chunks s) (timers s)
    (playPending s) (rafPending s) (onendedSet s) (duration s).

Definition setRecorder (r : option RecordingState) (s : State) : State :=
  mkState (trace s) (promise s) (video s) (urlLive s) (awaitMetadata s)
    (surface s) r (stopQueued s) (chunks s) (timers s)
    (playPending s) (rafPending s) (onendedSet s) (duration s).

Definition setStopQueued (b : bool) (s : State) : State :=
  mkState (trace s) (promise s) (video s) (urlLive s) (awaitMetadata s)
    (surface s) (recorder s) b (chunks s) (timers s)
    (playPending s) (rafPending s) (onendedSet s) (duration s).

Definition setChunks (c : list Chunk) (s : State) : State :=
  mkState (trace s) (promise s) (video s) (urlLive s) (awaitMetadata s)
    (surface s) (recorder s) (stopQueued s) c (timers s)
    (playPending s) (rafPending s) (onendedSet s) (duration s).

Definition setTimers (n : nat) (s : State) : State :=
  mkState (trace s) (promise s) (video s) (urlLive s) (awaitMetadata s)
    (surface s) (recorder s) (stopQueued s) (chunks s) n
    (playPending s) (rafPending s) (onendedSet s) (duration s).

Definition setPlayPending (b : bool) (s : State) : State :=
  mkState (trace s) (promise s) (video s) (urlLive s) (awaitMetadata s)
    (surface s) (recorder s) (stopQueued s) (chunks s) (timers s)
    b (rafPending s) (onendedSet s) (duration s).

Definition setRafPending (b : bool) (s : State) : State :=
  mkState (trace s) (promise s) (video s) (urlLive s) (awaitMetadata s)
    (surface s) (recorder s) (stopQueued s) (chunks s) (timers s)
    (playPending s) b (onendedSet s) (duration s).

Definition setOnended (b : bool) (s : State) : State :=
  mkState (trace s) (promise s) (video s) (urlLive s) (awaitMetadata s)
    (surface s) (recorder s) (stopQueued s) (chunks s) (timers s)
    (playPending s) (rafPending s) b (duration s).

Definition setDuration (d : Q) (s : State) : State :=
  mkState (trace s) (promise s) (video s) (urlLive s) (awaitMetadata s)
    (surface s) (recorder s) (stopQueued s) (chunks s) (timers s)
    (playPending s) (rafPending s) (onendedSet s) d.

(** Handlers are written as pipelines of updates, first step first. *)
Notation "s |> f" := (f s) (at level 56, left associativity, only parsing).

(* ----------------------------------------------------------------- *)
(** *** Calls shared by the two pipelines *)

Definition onProgress (p : Z) (s : State) : State := emit (Progress p) s.

Definition resolve (b : Blob) (s : State) : State :=
  s |> emit (Resolve b) |> setPromise (settle (Resolved b) (promise s)).

Definition reject (e : JsError) (s : State) : State :=
  s |> emit (Reject e) |> setPromise (settle (Rejected e) (promise s)).

Definition createObjectURL (f : File) (s : State) : State :=
  s |> emit (CreateObjectURL f) |> setUrlLive true.

Definition revokeObjectURL (s : State) : State :=
  s |> emit RevokeObjectURL |> setUrlLive false.

Definition requestAnimationFrame (s : State) : State :=
  s |> emit RequestAnimationFrame |> setRafPending true.

Definition setTimeout (ms : Z) (s : State) : State :=
  s |> emit (SetTimeout ms) |> setTimers (S (timers s)).

Definition play (s : State) : State :=
  s |> emit Play |> setPlayPending true.

(** [mediaRecorder.start()] on the freshly built, inactive recorder. *)
Definition recorderStart (s : State) : State :=
  s |> emit RecorderStart |> setRecorder (Some Recording).

(** [mediaRecorder.stop()] on a recording recorder: it becomes inactive at
    once, and the [stop] event is queued as a later task. *)
Definition recorderStop (s : State) : State :=
  s |> emit RecorderStop |> setRecorder (Some Inactive) |> setStopQueued true.

(** [mediaRecorder.ondataavailable], the same in both functions:
    [if (e.data.size > 0) chunks.push(e.data)]. *)
Definition ondataavailable (c : Chunk) (s : State) : State :=
  if nonEmpty c then setChunks (chunks s ++ [c]) s else s.

(** [mediaRecorder.onstop], the same in both functions. *)
Definition onstop (s : State) : State :=
  let blob := NewBlob (chunks s) "video/webm" in
  s |> revokeObjectURL |> resolve blob.

(** [video.onerror], the same in both functions. *)
Definition onerror (s : State) : State :=
  s |> revokeObjectURL |> reject (Error "Video load failed").

(** [Math.round]: the nearest integer, halves upwards. *)
Definition Math_round (x : Q) : Z := Qfloor (x + (1 # 2)).

Definition NotSupportedError : JsError := DOMException "NotSupportedError".
Definition InvalidStateError : JsError := DOMException "InvalidStateError".

(* ================================================================= *)
(** ** Events *)

(** What the browser delivers to a run.  An event whose handler is not
    installed, or whose callback is not scheduled, leaves the state as it
    is. *)
Inductive Event :=
| EvError                              (* video: error *)
| EvLoadedMetadata (videoWidth videoHeight : Z) (mediaDuration : Q)
| EvLoadedData
| EvSeeked (o : Obs)
| EvCanPlay
| EvTimeout                            (* a setTimeout callback is due *)
| EvPlayResolved (o : Obs)             (* play() fulfilled *)
| EvPlayRejected (e : JsError)         (* play() refused *)
| EvFrame (o : Obs)                    (* the animation-frame callback *)
| EvEnded                              (* video: ended *)
| EvData (c : Chunk)                   (* recorder: dataavailable *)
| EvStop                               (* recorder: stop *)
| EvRecorderError.                     (* the recorder fails by itself *)

(** The recorder stops gathering by itself: it leaves the recording state
    and owes its [stop] event; neither function installs an error handler
    on it. *)
Definition recorderFails (s : State) : State :=
  match recorder s with
  | Some Recording => s |> setRecorder (Some Inactive) |> setStopQueued true
  | _ => s
  end.

(* ================================================================= *)
(** ** [cutVideo] *)

Module Cut.

Definition MAX_HEIGHT : Z := 720.

(** The sizing at the head of [startProcessing]. *)
Definition dimensions (videoWidth videoHeight : Z) : Z * Z :=
  if MAX_HEIGHT <? videoHeight then
    let ratio := (inject_Z videoWidth / inject_Z videoHeight)%Q in
    let height := MAX_HEIGHT in
    (Math_round (inject_Z height * ratio), height)
  else (videoWidth, videoHeight).

Section Run.

Variable P : Platform.
Variable file : File.
Variables startTime endTime : Q.

Definition percent (t : Q) : Z :=
  let duration := (endTime - startTime)%Q in
  let current := (t - startTime)%Q in
  Z.min 99 (Math_round ((current / duration) * 100)).

(** The test at the head of [drawFrame]. *)
Definition finished (o : Obs) : bool :=
  paused o || ended o || Qle_bool endTime (currentTime o).

Definition drawFrame (o : Obs) (s : State) : State :=
  if finished o then
    let s := match recorder s with
             | Some Recording => s |> recorderStop |> onProgress 100
             | _ => s
             end in
    s |> emit Pause
  else
    let '(width, height) :=
      match surface s with Some d => d | None => (0, 0) end in
    s |> emit (DrawImage (currentTime o) width height)
      |> onProgress (percent (currentTime o))
      |> requestAnimationFrame.

(** The callback of [setTimeout(..., 200)]. *)
Definition startRecording (s : State) : State :=
  s |> recorderStart |> emit (SetPlaybackRate 1) |> play.

(** [startProcessing]; the second component is the exception that leaves
    it, when both recorder constructions throw. *)
Definition startProcessing (videoWidth videoHeight : Z) (s : State)
  : State * option JsError :=
  let '(width, height) := dimensions videoWidth videoHeight in
  let s := s |> emit (CreateCanvas width height)
             |> setSurface (Some (width, height)) in
  if negb (context2d P) then
    (s |> revokeObjectURL |> reject (Error "Canvas context failed"), None)
  else
    let s := s |> emit (CaptureStream 30) in
    let start s := s |> setRecorder (Some Inactive)
                     |> emit (Seek startTime) |> setTimeout 200 in
    if isTypeSupported P "video/webm;codecs=vp9" then
      (s |> emit (NewMediaRecorder "video/webm;codecs=vp9" 2500000 true)
         |> start, None)
    else
      let s := s |> emit (NewMediaRecorder "video/webm;codecs=vp9" 2500000 false) in
      if isTypeSupported P "video/webm" then
        (s |> emit (NewMediaRecorder "video/webm" 2500000 true) |> start, None)
      else
        (s |> emit (NewMediaRecorder "video/webm" 2500000 false),
         Some NotSupportedError).

(** [startProcessing] run as the [loadedmetadata] handler: an exception is
    nobody's to catch. *)
Definition onloadedmetadata (videoWidth videoHeight : Z) (s : State) : State :=
  match startProcessing videoWidth videoHeight s with
  | (s', None) => s'
  | (s', Some e) => s' |> emit (Uncaught e)
  end.

(** The body of the promise executor.  An exception thrown inside the
    executor itself rejects the promise. *)
Definition cutVideo : State :=
  let s := blank |> emit CreateVideo |> setVideo true
                 |> createObjectURL file |> emit (Seek startTime) in
  match readyAtCreation P with
  | Some (w, h) =>
      match startProcessing w h s with
      | (s', None) => s'
      | (s', Some e) => s' |> reject e
      end
  | None => s |> setAwaitMetadata true
  end.

Definition step (s : State) (ev : Event) : State :=
  match ev with
  | EvError => if video s then onerror s else s
  | EvLoadedMetadata w h _ =>
      if awaitMetadata s
      then s |> setAwaitMetadata false |> onloadedmetadata w h
      else s
  | EvLoadedData => if video s then s |> emit (Seek startTime) else s
  | EvSeeked _ => s            (* both branches of [onseeked] return *)
  | EvCanPlay => s             (* [oncanplay] is empty *)
  | EvTimeout =>
      match timers s with
      | O => s
      | S n => s |> setTimers n |> startRecording
      end
  | EvPlayResolved o =>
      if playPending s then s |> setPlayPending false |> drawFrame o else s
  | EvPlayRejected e =>
      if playPending s then s |> setPlayPending false |> reject e else s
  | EvFrame o =>
      if rafPending s then s |> setRafPending false |> drawFrame o else s
  | EvEnded => s               (* no [onended] in [cutVideo] *)
  | EvData c =>
      match recorder s with Some _ => ondataavailable c s | None => s end
  | EvStop =>
      if stopQueued s then s |> setStopQueued false |> onstop else s
  | EvRecorderError => recorderFails s
  end.

Definition run (evs : list Event) : State := fold_left step evs cutVideo.

End Run.

End Cut.

(* ================================================================= *)
(** ** [compressVideo] *)

Module Compress.

Definition THRESHOLD : Z := 20 * 1024 * 1024.
Definition TARGET_HEIGHT : Z := 360.
Definition PLAYBACK_RATE : Q := 2.

Definition TARGET_WIDTH (videoWidth videoHeight : Z) : Z :=
  let aspectRatio := (inject_Z videoWidth / inject_Z videoHeight)%Q in
  Math_round (inject_Z TARGET_HEIGHT * aspectRatio).

Section Run.

Variable P : Platform.
Variable file : File.

Definition percent (duration t : Q) : Z :=
  Z.min 99 (Math_round ((t / duration) * 100)).

Definition drawFrame (o : Obs) (s : State) : State :=
  if paused o || ended o then s
  else
    let '(width, height) :=
      match surface s with Some d => d | None => (0, 0) end in
    s |> emit (DrawImage (currentTime o) width height)
      |> onProgress (percent (duration s) (currentTime o))
      |> requestAnimationFrame.

(** [video.onloadedmetadata].  The recorder is built without a [try]: when
    the construction throws, the rest of the handler does not run. *)
Definition onloadedmetadata (videoWidth videoHeight : Z) (d : Q) (s : State)
  : State :=
  let width := TARGET_WIDTH videoWidth videoHeight in
  let s := s |> setDuration d
             |> emit (CreateCanvas width TARGET_HEIGHT)
             |> setSurface (Some (width, TARGET_HEIGHT)) in
  if negb (context2d P) then
    s |> revokeObjectURL |> reject (Error "Canvas context failed")
  else
    let s := s |> emit (CaptureStream 15) in
    if isTypeSupported P "video/webm;codecs=vp8" then
      s |> emit (NewMediaRecorder "video/webm;codecs=vp8" 600000 true)
        |> setRecorder (Some Inactive)
        |> recorderStart
        |> emit (SetPlaybackRate PLAYBACK_RATE)
        |> play
        |> setOnended true
    else
      s |> emit (NewMediaRecorder "video/webm;codecs=vp8" 600000 false)
        |> emit (Uncaught NotSupportedError).

(** The callback of [setTimeout(..., 100)] in [video.onended]:
    [mediaRecorder.stop(); onProgress(100)], with no test of the state. *)
Definition stopAndReport (s : State) : State :=
  match recorder s with
  | Some Recording | Some Paused => s |> recorderStop |> onProgress 100
  | _ =>
      let s := s |> emit RecorderStop in
      if stopInactiveThrows P then s |> emit (Uncaught InvalidStateError)
      else s |> onProgress 100
  end.

Definition compressVideo : State :=
  if size file <? 20 * 1024 * 1024 then
    blank |> onProgress 100 |> resolve (OfFile file)
  else
    blank |> emit CreateVideo |> setVideo true
          |> createObjectURL file |> setAwaitMetadata true.

Definition step (s : State) (ev : Event) : State :=
  match ev with
  | EvError => if video s then onerror s else s
  | EvLoadedMetadata w h d =>
      if awaitMetadata s
      then s |> setAwaitMetadata false |> onloadedmetadata w h d
      else s
  | EvLoadedData | EvSeeked _ | EvCanPlay => s     (* no handler *)
  | EvTimeout =>
      match timers s with
      | O => s
      | S n => s |> setTimers n |> stopAndReport
      end
  | EvPlayResolved o =>
      if playPending s then s |> setPlayPending false |> drawFrame o else s
  | EvPlayRejected e =>
      if playPending s
      then s |> setPlayPending false |> emit ConsoleError |> reject e
      else s
  | EvFrame o =>
      if rafPending s then s |> setRafPending false |> drawFrame o else s
  | EvEnded => if onendedSet s then s |> setTimeout 100 else s
  | EvData c =>
      match recorder s with Some _ => ondataavailable c s | None => s end
  | EvStop =>
      if stopQueued s then s |> setStopQueued false |> onstop else s
  | EvRecorderError => recorderFails s
  end.

Definition run (evs : list Event) : State := fold_left step evs compressVideo.

End Run.

End Compress.

(** The progress callback's arguments, in call order. *)
Fixpoint progressLog (l : list Effect) : list Z :=
  match l with
  | [] => []
  | Progress p :: l' => p :: progressLog l'
  | _ :: l' => progressLog l'
  end.

(* ================================================================= *)
(** ** Vocabulary of the statements *)

(** [Each Q l]: every effect [e] of [l] satisfies [Q before e], where
    [before] is what the trace held when [e] was added. *)
Definition Each (Q : list Effect -> Effect -> Prop) (l : list Effect) : Prop :=
  forall before e after, l = before ++ e :: after -> Q before e.

(** The chunks the recorder emitted, in emission order. *)
Definition payloads (evs : list Event) : list Chunk :=
  flat_map (fun ev => match ev with EvData c => [c] | _ => [] end) evs.

Definition isStopCall (e : Effect) : bool :=
  match e with RecorderStop => true | _ => false end.

Definition isResolve (e : Effect) : bool :=
  match e with Resolve _ => true | _ => false end.

Definition isCanvas (e : Effect) : bool :=
  match e with CreateCanvas _ _ => true | _ => false end.

Definition stopCalled (l : list Effect) : bool := existsb isStopCall l.
Definition resolveCalled (l : list Effect) : bool := existsb isResolve l.

(** The playback clock read by the successive ticks starts at [lo] or later
    and never runs backwards. *)
Fixpoint clockFrom (lo : Q) (evs : list Event) : Prop :=
  match evs with
  | [] => True
  | EvPlayResolved o :: rest | EvFrame o :: rest =>
      (lo <= currentTime o)%Q /\ clockFrom (currentTime o) rest
  | _ :: rest => clockFrom lo rest
  end.

(** Nothing is installed and nothing is scheduled: no event can reach the
    run any more. *)
Definition quiescent (s : State) : Prop :=
  video s = false /\ awaitMetadata s = false /\ recorder s = None /\
  stopQueued s = false /\ timers s = O /\ playPending s = false /\
  rafPending s = false /\ onendedSet s = false.

(** The statements about single effects of a trace. *)

(** [onProgress(100)] comes directly after the call of [stop()]. *)
Definition hundredAfterStop (before : list Effect) (e : Effect) : Prop :=
  e = Progress 100 -> exists l0, before = l0 ++ [RecorderStop].

(** When [onProgress(100)] is called, [resolve] has not been called. *)
Definition hundredBeforeFinalize (before : list Effect) (e : Effect) : Prop :=
  e = Progress 100 -> resolveCalled before = false.

(** [stop()] is called at most once. *)
Definition stopOnce (before : list Effect) (e : Effect) : Prop :=
  isStopCall e = true -> stopCalled before = false.

(** [resolve] is called at most once. *)
Definition finalizeOnce (before : list Effect) (e : Effect) : Prop :=
  isResolve e = true -> resolveCalled before = false.

(** A canvas is created, and sized, at most once. *)
Definition canvasOnce (before : list Effect) (e : Effect) : Prop :=
  isCanvas e = true -> existsb isCanvas before = false.

(** Every sampled frame is one visible before [endTime]. *)
Definition sampledBefore (endTime : Q) (before : list Effect) (e : Effect) : Prop :=
  forall t w h, e = DrawImage t w h -> (t < endTime)%Q.

(** A reported value is at most 99, unless it is the 100 that directly
    follows the call of [stop()]. *)
Definition clamped (before : list Effect) (e : Effect) : Prop :=
  forall p, e = Progress p ->
    p <= 99 \/ (p = 100 /\ exists l0, before = l0 ++ [RecorderStop]).

(** What holds of every effect of a run of [cutVideo]. *)
Definition cutEffectOK (endTime : Q) (before : list Effect) (e : Effect) : Prop :=
  hundredAfterStop before e /\ hundredBeforeFinalize before e /\
  stopOnce before e /\ finalizeOnce before e /\ canvasOnce before e /\
  sampledBefore endTime before e /\ clamped before e.

(** What holds of every effect of a run of [compressVideo] that did not
    take the fast path. *)
Definition compressEffectOK (before : list Effect) (e : Effect) : Prop :=
  hundredAfterStop before e /\ finalizeOnce before e /\
  canvasOnce before e /\ clamped before e.

(** The errors the two functions construct or let through themselves; the
    only other rejection value is the one [play()] hands to its [catch]. *)
Definition raisedByCode (e : JsError) : Prop :=
  e = Error "Video load failed" \/ e = Error "Canvas context failed" \/
  e = NotSupportedError.

(** The recorder constructions attempted, in order, with their outcome. *)
Fixpoint recorderAttempts (l : list Effect) : list (string * bool) :=
  match l with
  | [] => []
  | NewMediaRecorder m _ ok :: l' => (m, ok) :: recorderAttempts l'
  | _ :: l' => recorderAttempts l'
  end.

(** What [cutVideo] tries, in order, on platform [P]: VP9 first, then the
    container default. *)
Definition cutPreferences (P : Platform) : list (string * bool) :=
  if isTypeSupported P "video/webm;codecs=vp9"
  then [("video/webm;codecs=vp9", true)]
  else [("video/webm;codecs=vp9", false);
        ("video/webm", isTypeSupported P "video/webm")].

(** What [compressVideo] tries: VP8, and nothing after it. *)
Definition compressPreferences (P : Platform) : list (string * bool) :=
  [("video/webm;codecs=vp8", isTypeSupported P "video/webm;codecs=vp8")].

(** The sampling loop has come to its end: no tick is scheduled and nothing
    that could schedule one is outstanding. *)
Definition loopOver (s : State) : Prop :=
  rafPending s = false /\ playPending s = false /\
  timers s = O /\ awaitMetadata s = false.

(** The same for [compressVideo], whose timers do not start the loop. *)
Definition samplingOver (s : State) : Prop :=
  rafPending s = false /\ playPending s = false /\ awaitMetadata s = false.

(** The condition under which the specification wants the loop to stop,
    with [target] the requested end ([cutVideo]) or the duration of the
    source ([compressVideo]). *)
Definition reachedEnd (target : Q) (o : Obs) : Prop :=
  paused o = true \/ ended o = true \/ (target <= currentTime o)%Q.




(** How the fields of a run of [cutVideo] hang together. *)
Definition cutGood (s : State) : bool :=
  let st := stopCalled (trace s) in
  let rs := resolveCalled (trace s) in
  let cv := existsb isCanvas (trace s) in
  let fresh := negb (stopQueued s) && negb st && negb rs in
  let idle := negb (playPending s) && negb (rafPending s) in
  negb (onendedSet s) && negb (playPending s && rafPending s) &&
  (if awaitMetadata s
   then negb cv && match surface s with None => true | Some _ => false end
   else true) &&
  match recorder s with
  | None => negb (stopQueued s) && negb st && negb rs && idle &&
            match timers s with O => true | S _ => false end
  | Some Inactive =>
      negb (awaitMetadata s) && cv &&
      match timers s with
      | O => implb (stopQueued s) (negb rs) && implb st idle
      | S O => fresh && idle
      | S (S _) => false
      end
  | Some Recording =>
      negb (awaitMetadata s) && cv && fresh &&
      match timers s with O => true | S _ => false end
  | Some Paused => false
  end.

(** The same for a run of [compressVideo] that did not take the fast
    path. *)
Definition compressGood (s : State) : bool :=
  let st := stopCalled (trace s) in
  let rs := resolveCalled (trace s) in
  let cv := existsb isCanvas (trace s) in
  negb (playPending s && rafPending s) &&
  (if awaitMetadata s
   then negb cv && match surface s with None => true | Some _ => false end
   else true) &&
  match recorder s with
  | None => negb (stopQueued s) && negb st && negb rs &&
            negb (playPending s) && negb (rafPending s) &&
            negb (onendedSet s) &&
            match timers s with O => true | S _ => false end
  | Some Inactive =>
      negb (awaitMetadata s) && cv && implb (stopQueued s) (negb rs)
  | Some Recording =>
      negb (awaitMetadata s) && cv &&
      negb (stopQueued s) && negb st && negb rs
  | Some Paused => false
  end.

(* ================================================================= *)
(** ** Further vocabulary: resources and order of calls *)

Definition isRevoke (e : Effect) : bool :=
  match e with RevokeObjectURL => true | _ => false end.

Definition isStart (e : Effect) : bool :=
  match e with RecorderStart => true | _ => false end.

Definition isPlay (e : Effect) : bool :=
  match e with Play => true | _ => false end.

Definition isDraw (e : Effect) : bool :=
  match e with DrawImage _ _ _ => true | _ => false end.

Definition startCalled (l : list Effect) : bool := existsb isStart l.
Definition playCalled (l : list Effect) : bool := existsb isPlay l.
Definition drawn (l : list Effect) : bool := existsb isDraw l.

(** The object URL is released once [resolve] has been called, and a
    resolved promise comes from a call of [resolve]. *)
Definition released (s : State) : Prop :=
  (resolveCalled (trace s) = true -> urlLive s = false) /\
  (forall b, promise s = Resolved b -> resolveCalled (trace s) = true).

(** A platform on which [cutVideo] cannot build a recorder: no 2d context,
    or neither configuration constructs. *)
Definition cutCannotRecord (P : Platform) : Prop :=
  context2d P = false \/
  (isTypeSupported P "video/webm;codecs=vp9" = false /\
   isTypeSupported P "video/webm" = false).

(** The same for [compressVideo], which has the one configuration. *)
Definition compressCannotRecord (P : Platform) : Prop :=
  context2d P = false \/ isTypeSupported P "video/webm;codecs=vp8" = false.

(** The recorder is started before [play()] is called, and [play()] before
    any frame is sampled; each of the two is called at most once. *)
Definition callOrder (before : list Effect) (e : Effect) : Prop :=
  (isStart e = true -> startCalled before = false) /\
  (isPlay e = true -> playCalled before = false /\ startCalled before = true) /\
  (isDraw e = true -> startCalled before = true /\ playCalled before = true).

Definition hasSurface (s : State) : bool :=
  match surface s with Some _ => true | None => false end.

(** How the calls made so far relate to what a run of [cutVideo] is
    waiting for. *)
Definition cutOrder (s : State) : bool :=
  let st := startCalled (trace s) in
  let pl := playCalled (trace s) in
  let dr := drawn (trace s) in
  (if awaitMetadata s then negb st && negb pl && negb dr else true) &&
  match timers s with O => true | S _ => negb st && negb pl && negb dr end &&
  match recorder s with
  | None => negb st && negb pl && negb dr
  | Some _ => hasSurface s
  end &&
  implb (playPending s || rafPending s) (st && pl) &&
  implb dr (st && pl) && implb pl st.

(** The same for [compressVideo], which starts the recorder and calls
    [play()] in the handler that builds the recorder. *)
Definition compressOrder (s : State) : bool :=
  let st := startCalled (trace s) in
  let pl := playCalled (trace s) in
  let dr := drawn (trace s) in
  (if awaitMetadata s then negb st && negb pl && negb dr else true) &&
  match recorder s with
  | None => negb st && negb pl && negb dr
  | Some _ => hasSurface s && st && pl
  end.

(** The part of [cutGood] that the order of the calls depends on. *)
Definition cutShape (s : State) : bool :=
  match recorder s with
  | None => negb (playPending s) && negb (rafPending s) &&
            match timers s with O => true | S _ => false end
  | Some Inactive =>
      negb (awaitMetadata s) &&
      match timers s with
      | O => true
      | S O => negb (playPending s) && negb (rafPending s)
      | S (S _) => false
      end
  | Some Recording =>
      negb (awaitMetadata s) && match timers s with O => true | S _ => false end
  | Some Paused => false
  end.

(** The same for [compressGood]. *)
Definition compressShape (s : State) : bool :=
  match recorder s with
  | None => negb (playPending s) && negb (rafPending s)
  | Some Paused => false
  | Some _ => negb (awaitMetadata s)
  end.

(** A frame is painted at the width and height the canvas was created
    with. *)
Definition paintedAtCanvasSize (before : list Effect) (e : Effect) : Prop :=
  forall t w h, e = DrawImage t w h -> In (CreateCanvas w h) before.

Definition samplingOK (before : list Effect) (e : Effect) : Prop :=
  callOrder before e /\ paintedAtCanvasSize before e.

(** The size kept in the state is the size of a canvas that was created. *)
Definition surfaceLogged (s : State) : Prop :=
  forall w h, surface s = Some (w, h) -> In (CreateCanvas w h) (trace s).

(** An effect that neither starts the recorder, nor plays, nor samples. *)
Definition preparatory (e : Effect) : bool :=
  negb (isStart e || isPlay e || isDraw e).

(** The values reported from the ticks: a tick paints a frame and then
    reports, so these are the reports that directly follow a [drawImage]. *)
Fixpoint frameReports (l : list Effect) : list Z :=
  match l with
  | [] => []
  | DrawImage _ _ _ :: rest =>
      match rest with
      | Progress p :: _ => p :: frameReports rest
      | _ => frameReports rest
      end
  | _ :: rest => frameReports rest
  end.

(** The source has a positive duration. *)
Definition positiveDuration (ev : Event) : Prop :=
  match ev with
  | EvLoadedMetadata _ _ d => (0 < d)%Q
  | _ => True
  end.

(** The values the ticks of [compressVideo] have reported, given that the
    clock has reached [lo]; what else was reported is the 100 of the
    stop. *)
Definition compressProgressOK (lo : Q) (s : State) : Prop :=
  (forall p, In p (progressLog (trace s)) ->
     In p (frameReports (trace s)) \/ p = 100) /\
  if awaitMetadata s then frameReports (trace s) = []
  else (0 < duration s)%Q /\
       Sorted Z.le (frameReports (trace s)) /\
       Forall (fun v => 0 <= v <= Compress.percent (duration s) lo)
              (frameReports (trace s)).

(** [P] with a VP9 recorder that constructs. *)
Definition withVP9 (P : Platform) : Platform :=
  mkPlatform
    (fun mimeType =>
       String.eqb mimeType "video/webm;codecs=vp9" || isTypeSupported P mimeType)
    (context2d P) (stopInactiveThrows P) (readyAtCreation P).

Definition isAttempt (e : Effect) : bool :=
  match e with NewMediaRecorder _ _ _ => true | _ => false end.

(** The calls of a trace other than the constructions of a recorder. *)
Definition besidesAttempts (l : list Effect) : list Effect :=
  filter (fun e => negb (isAttempt e)) l.

(** Two runs that differ in nothing but the constructions of the recorder
    that were attempted. *)
Definition sameRun (s1 s2 : State) : Prop :=
  besidesAttempts (trace s1) = besidesAttempts (trace s2) /\
  promise s1 = promise s2 /\ video s1 = video s2 /\ urlLive s1 = urlLive s2 /\
  awaitMetadata s1 = awaitMetadata s2 /\ surface s1 = surface s2 /\
  recorder s1 = recorder s2 /\ stopQueued s1 = stopQueued s2 /\
  chunks s1 = chunks s2 /\ timers s1 = timers s2 /\
  playPending s1 = playPending s2 /\ rafPending s1 = rafPending s2 /\
  onendedSet s1 = onendedSet s2 /\ duration s1 = duration s2.

(** The intrinsic width and height of a source with a picture
    ([videoWidth] and [videoHeight] are [unsigned long]). *)
Definition intrinsic (w h : Z) : Prop :=
  0 <= w < 2 ^ 32 /\ 0 < h < 2 ^ 32.

(** [W] is [target * w / h] to within half a pixel, on either side. *)
Definition scaled (target w h W : Z) : Prop :=
  - h <= 2 * (W * h) - 2 * (target * w) <= h.

(** The size [cutVideo] gives the canvas for a source of [w] by [h]: the
    size of the source, or that size scaled to a height of 720. *)
Definition cutSized (w h : Z) (size : Z * Z) : Prop :=
  if h <=? 720 then size = (w, h)
  else snd size = 720 /\ scaled 720 w h (fst size) /\ fst size <= w.

(** The size [compressVideo] gives it: scaled to a height of 360. *)
Definition compressSized (w h : Z) (size : Z * Z) : Prop :=
  snd size = 360 /\ scaled 360 w h (fst size).

(* ================================================================= *)
(** ** Numbers and their text *)

(** [Math.floor] and the [%] of JavaScript, which truncates the quotient
    (the result has the sign of the dividend); the divisor is not zero. *)
Definition Math_floor (x : Q) : Z := Qfloor x.

Definition Math_trunc (x : Q) : Z :=
  if Qle_bool 0 x then Qfloor x else Qceiling x.

Definition remainder (x y : Q) : Q :=
  (x - y * inject_Z (Math_trunc (x / y)))%Q.

(** [Number.prototype.toString] on an integer, and the conversion of an
    integer in a template literal: all the digits of the integer.  (This
    is the text of a number that holds an integer up to
    [MAX_SAFE_INTEGER] in magnitude; from 1e21 on the text of a number
    has an exponent.) *)
Definition numberToString (z : Z) : string :=
  NilZero.string_of_int (Z.to_int z).

(** [Number.MAX_SAFE_INTEGER]: up to it a number holds every integer, and
    the text of an integer has all its digits. *)
Definition MAX_SAFE_INTEGER : Z := 2 ^ 53 - 1.

(** [String.prototype.padStart] with a one-character filler. *)
Definition padStart (targetLength : nat) (fill : ascii) (s : string) : string :=
  if (targetLength <=? String.length s)%nat then s
  else (string_of_list_ascii (repeat fill (targetLength - String.length s))
        ++ s)%string.

(** The decimal digit [k], for [0 <= k <= 9]. *)
Definition digit (k : Z) : ascii := ascii_of_nat (48 + Z.to_nat k).

(* ================================================================= *)
(** ** The application: the name of an exported clip *)

(** A string the program inspects character by character is the list of
    its UTF-16 code units, which is what a regular expression without the
    [u] flag sees. *)
Definition CodeUnits := list Z.

(** The code units of an ASCII literal. *)
Definition codeUnits (s : string) : CodeUnits :=
  map (fun c => Z.of_nat (nat_of_ascii c)) (list_ascii_of_string s).

(** The class [\s] of a regular expression: the white space and the line
    terminators of ECMAScript. *)
Definition isWhiteSpace (c : Z) : bool :=
  ((9 <=? c) && (c <=? 13))          (* TAB, LF, VT, FF, CR *)
  || (c =? 32)                       (* SPACE *)
  || (c =? 160)                      (* NO-BREAK SPACE *)
  || (c =? 5760)                     (* U+1680 *)
  || ((8192 <=? c) && (c <=? 8202))  (* U+2000 .. U+200A *)
  || (c =? 8232) || (c =? 8233)      (* LINE and PARAGRAPH SEPARATOR *)
  || (c =? 8239)                     (* U+202F *)
  || (c =? 8287)                     (* U+205F *)
  || (c =? 12288)                    (* U+3000 *)
  || (c =? 65279).                   (* U+FEFF *)

Definition underscore : Z := 95.

(** [s.replace(/\s+/g, '_')]: every maximal run of white space becomes one
    underscore.  [inRun] tells that the code unit before was white space,
    so that the current match goes on. *)
Fixpoint replaceRuns (inRun : bool) (s : CodeUnits) : CodeUnits :=
  match s with
  | [] => []
  | c :: rest =>
      if isWhiteSpace c
      then if inRun then replaceRuns true rest
           else underscore :: replaceRuns true rest
      else c :: replaceRuns false rest
  end.

Definition replaceWhiteSpace (s : CodeUnits) : CodeUnits :=
  replaceRuns false s.

(** The [download] attribute [handleExportClip] gives the link. *)
Definition downloadName (title : CodeUnits) : CodeUnits :=
  replaceWhiteSpace title ++ codeUnits "_highlight.webm".

(** The code units of [s] that are neither white space nor underscores. *)
Definition visible (s : CodeUnits) : CodeUnits :=
  filter (fun c => negb (isWhiteSpace c) && negb (c =? underscore)) s.

Definition noWhiteSpace (s : CodeUnits) : Prop :=
  Forall (fun c => isWhiteSpace c = false) s.

(** A run of white space, not empty. *)
Definition whiteSpaceRun (ws : CodeUnits) : Prop :=
  ws <> [] /\ Forall (fun c => isWhiteSpace c = true) ws.

(** [rest] does not go on with white space. *)
Definition startsVisible (rest : CodeUnits) : Prop :=
  match rest with
  | [] => True
  | c :: _ => isWhiteSpace c = false
  end.

(* ================================================================= *)
(** ** The analysis service *)

(** [file.type] of what [compressVideo] and [cutVideo] resolve with. *)
Definition blobType (b : Blob) : string :=
  match b with
  | OfFile f => mime f
  | NewBlob _ type => type
  end.

(** [x || y] on strings: the empty string is the falsy one. *)
Definition orElse (x y : string) : string :=
  if String.eqb x "" then y else x.

(** [s.split(sep)] for a separator of one character: the pieces between
    the separators, of which there is always at least one. *)
Fixpoint split (sep : ascii) (s : string) : list string :=
  match s with
  | EmptyString => [EmptyString]
  | String c rest =>
      if Ascii.eqb c sep then EmptyString :: split sep rest
      else match split sep rest with
           | piece :: pieces => String c piece :: pieces
           | [] => [String c EmptyString]
           end
  end.

(** A clip as the model's JSON gives it, and with the [id] the service
    adds.  Text that comes from the model is a list of code units. *)
Record ParsedClip := mkParsedClip {
  parsedTitle : CodeUnits;
  parsedStartTime : Q;
  parsedEndTime : Q;
  parsedDescription : CodeUnits;
  parsedReasoning : CodeUnits
}.

(** The records of [types.ts], in a module of their own: the names of
    their fields are common words. *)
Module Types.

Record Clip := mkClip {
  id : string;
  startTime : Q;
  endTime : Q;
  title : CodeUnits;
  description : CodeUnits;
  reasoning : CodeUnits
}.

Record AnalysisResult := mkAnalysisResult {
  clips : list Clip;
  markdownSummary : CodeUnits;
  videoTitle : CodeUnits
}.

End Types.

Definition Clip : Type := Types.Clip.
Definition AnalysisResult : Type := Types.AnalysisResult.

Record Parsed := mkParsed {
  parsedClips : list ParsedClip;
  parsedMarkdownSummary : CodeUnits;
  parsedVideoTitle : CodeUnits
}.

(** [array.map((x, index) => f x index)], counting from [index]. *)
Fixpoint mapFrom {A B : Type} (f : A -> nat -> B) (index : nat) (l : list A)
  : list B :=
  match l with
  | [] => []
  | x :: rest => f x index :: mapFrom f (S index) rest
  end.

Definition forget (c : Clip) : ParsedClip :=
  mkParsedClip (Types.title c) (Types.startTime c) (Types.endTime c)
    (Types.description c) (Types.reasoning c).

Module Gemini.

(** What [fileToGenerativePart] resolves with.  [data] is [undefined] when
    the split has no second piece. *)
Record InlineData := mkInlineData {
  data : option string;
  mimeType : string
}.

(** The [onloadend] handler of [fileToGenerativePart], for a reader whose
    [result] is the string [base64String]. *)
Definition fileToGenerativePart (file : Blob) (base64String : string)
  : InlineData :=
  let base64Data := nth_error (split "," base64String) 1 in
  {| data := base64Data; mimeType := orElse (blobType file) "video/mp4" |}.

(** The [id] given to the clip at [index] when the clock reads [now]. *)
Definition clipId (index : nat) (now : Z) : string :=
  ("clip-" ++ numberToString (Z.of_nat index) ++ "-" ++ numberToString now)%string.

(** The end of [analyzeVideo]: the clips of the parsed answer get their
    ids.  [now index] is what [Date.now()] returns when the clip at
    [index] is mapped. *)
Definition withIds (now : nat -> Z) (parsed : list ParsedClip) : list Clip :=
  mapFrom (fun clip index =>
             Types.mkClip (clipId index (now index))
                    (parsedStartTime clip) (parsedEndTime clip)
                    (parsedTitle clip) (parsedDescription clip)
                    (parsedReasoning clip))
          0 parsed.

Definition result (now : nat -> Z) (parsed : Parsed) : AnalysisResult :=
  {| Types.clips := withIds now (parsedClips parsed);
     Types.markdownSummary := parsedMarkdownSummary parsed;
     Types.videoTitle := parsedVideoTitle parsed |}.

End Gemini.

Definition noComma (s : string) : Prop :=
  ~ In ","%char (list_ascii_of_string s).

Definition noDash (s : string) : Prop :=
  ~ In "-"%char (list_ascii_of_string s).

(* ================================================================= *)
(** ** The application component *)

(** [ProcessingStatus] of [types.ts]. *)
Inductive ProcessingStatus := IDLE | READING_FILE | ANALYZING | COMPLETED | ERROR.

(** A run of [compressVideo] or [cutVideo] that the component started. *)
Definition Pipeline := State.
Definition PipelineEvent := Event.

(** [x || y] on text: the empty text is the falsy one. *)
Definition orElseUnits (x y : CodeUnits) : CodeUnits :=
  match x with
  | [] => y
  | _ :: _ => x
  end.

(** Whether a value of type [string | null] is truthy. *)
Definition truthy (x : option string) : bool :=
  match x with
  | Some s => negb (String.eqb s "")
  | None => false
  end.

Definition isSome {A : Type} (x : option A) : bool :=
  match x with Some _ => true | None => false end.

Module App.

(** [formatTime]. *)
Definition formatTime (seconds : Q) : string :=
  let mins := Math_floor (seconds / 60) in
  let secs := Math_floor (remainder seconds 60) in
  (numberToString mins ++ ":" ++ padStart 2 "0" (numberToString secs))%string.

(** What the component calls outside itself, in order. *)
Inductive Call :=
| PreviewURL (file : File)          (* [URL.createObjectURL(file)] on upload *)
| CompressVideo (file : File)
| AnalyzeVideo (processFile : Blob)
| CutVideo (file : File) (startTime endTime : Q)
| DownloadURL (blob : Blob)         (* [URL.createObjectURL(blob)] on export *)
| Download (download : CodeUnits)   (* [a.click()] on a link with this name *)
| RevokeDownloadURL
| SaveText (type : string) (download : CodeUnits)
| ConsoleError
| Alert (message : string).

(** Where [handleAnalyze] is suspended. *)
Inductive Awaiting := Nothing | ForCompression | ForAnalysis.

(** The state of the component ([useState]), the asynchronous work in
    flight, and the calls made so far.  [compression] is the run of
    [compressVideo] started by [handleAnalyze]: its progress callback
    stays live after its promise has settled.  [cutting] is the run of
    [cutVideo] that [handleExportClip] awaits; its progress callback does
    nothing, so the run is dropped once its promise has settled. *)
Record State := mkState {
  status : ProcessingStatus;
  statusMessage : string;
  videoFile : option File;
  videoUrl : option File;
  result : option AnalysisResult;
  activeClip : option Clip;
  currentTime : Q;
  duration : Q;
  showMarkdown : bool;
  progress : Z;
  exportingClipId : option string;
  awaiting : Awaiting;
  compression : option Pipeline;
  cutting : option (Clip * Pipeline);
  calls : list Call
}.

Definition init : State :=
  {| status := IDLE; statusMessage := ""; videoFile := None; videoUrl := None;
     result := None; activeClip := None; currentTime := 0; duration := 0;
     showMarkdown := false; progress := 0; exportingClipId := None;
     awaiting := Nothing; compression := None; cutting := None; calls := [] |}.

Definition setStatus (v : ProcessingStatus) (s : State) : State :=
  mkState v (statusMessage s) (videoFile s) (videoUrl s) (result s)
    (activeClip s) (currentTime s) (duration s) (showMarkdown s) (progress s)
    (exportingClipId s) (awaiting s) (compression s) (cutting s) (calls s).
Definition setStatusMessage (v : string) (s : State) : State :=
  mkState (status s) v (videoFile s) (videoUrl s) (result s)
    (activeClip s) (currentTime s) (duration s) (showMarkdown s) (progress s)
    (exportingClipId s) (awaiting s) (compression s) (cutting s) (calls s).
Definition setVideoFile (v : option File) (s : State) : State :=
  mkState (status s) (statusMessage s) v (videoUrl s) (result s)
    (activeClip s) (currentTime s) (duration s) (showMarkdown s) (progress s)
    (exportingClipId s) (awaiting s) (compression s) (cutting s) (calls s).
Definition setVideoUrl (v : option File) (s : State) : State :=
  mkState (status s) (statusMessage s) (videoFile s) v (result s)
    (activeClip s) (currentTime s) (duration s) (showMarkdown s) (progress s)
    (exportingClipId s) (awaiting s) (compression s) (cutting s) (calls s).
Definition setResult (v : option AnalysisResult) (s : State) : State :=
  mkState (status s) (statusMessage s) (videoFile s) (videoUrl s) v
    (activeClip s) (currentTime s) (duration s) (showMarkdown s) (progress s)
    (exportingClipId s) (awaiting s) (compression s) (cutting s) (calls s).
Definition setActiveClip (v : option Clip) (s : State) : State :=
  mkState (status s) (statusMessage s) (videoFile s) (videoUrl s) (result s)
    v (currentTime s) (duration s) (showMarkdown s) (progress s)
    (exportingClipId s) (awaiting s) (compression s) (cutting s) (calls s).
Definition setCurrentTime (v : Q) (s : State) : State :=
  mkState (status s) (statusMessage s) (videoFile s) (videoUrl s) (result s)
    (activeClip s) v (duration s) (showMarkdown s) (progress s)
    (exportingClipId s) (awaiting s) (compression s) (cutting s) (calls s).
Definition setDuration (v : Q) (s : State) : State :=
  mkState (status s) (statusMessage s) (videoFile s) (videoUrl s) (result s)
    (activeClip s) (currentTime s) v (showMarkdown s) (progress s)
    (exportingClipId s) (awaiting s) (compression s) (cutting s) (calls s).
Definition setShowMarkdown (v : bool) (s : State) : State :=
  mkState (status s) (statusMessage s) (videoFile s) (videoUrl s) (result s)
    (activeClip s) (currentTime s) (duration s) v (progress s)
    (exportingClipId s) (awaiting s) (compression s) (cutting s) (calls s).
Definition setProgress (v : Z) (s : State) : State :=
  mkState (status s) (statusMessage s) (videoFile s) (videoUrl s) (result s)
    (activeClip s) (currentTime s) (duration s) (showMarkdown s) v
    (exportingClipId s) (awaiting s) (compression s) (cutting s) (calls s).
Definition setExportingClipId (v : option string) (s : State) : State :=
  mkState (status s) (statusMessage s) (videoFile s) (videoUrl s) (result s)
    (activeClip s) (currentTime s) (duration s) (showMarkdown s) (progress s)
    v (awaiting s) (compression s) (cutting s) (calls s).
Definition setAwaiting (v : Awaiting) (s : State) : State :=
  mkState (status s) (statusMessage s) (videoFile s) (videoUrl s) (result s)
    (activeClip s) (currentTime s) (duration s) (showMarkdown s) (progress s)
    (exportingClipId s) v (compression s) (cutting s) (calls s).
Definition setCompression (v : option Pipeline) (s : State) : State :=
  mkState (status s) (statusMessage s) (videoFile s) (videoUrl s) (result s)
    (activeClip s) (currentTime s) (duration s) (showMarkdown s) (progress s)
    (exportingClipId s) (awaiting s) v (cutting s) (calls s).
Definition setCutting (v : option (Clip * Pipeline)) (s : State) : State :=
  mkState (status s) (statusMessage s) (videoFile s) (videoUrl s) (result s)
    (activeClip s) (currentTime s) (duration s) (showMarkdown s) (progress s)
    (exportingClipId s) (awaiting s) (compression s) v (calls s).
Definition call (c : Call) (s : State) : State :=
  mkState (status s) (statusMessage s) (videoFile s) (videoUrl s) (result s)
    (activeClip s) (currentTime s) (duration s) (showMarkdown s) (progress s)
    (exportingClipId s) (awaiting s) (compression s) (cutting s)
    (calls s ++ [c]).

(** What the browser and the user deliver to the component.  A card or a
    marker is named by the index of its clip in [result.clips]. *)
Inductive Event :=
| Upload (file : option File)       (* [change] of the file input, [files?.[0]] *)
| Analyze                            (* click on the analyse button *)
| Compression (ev : PipelineEvent) (* an event of the run of [compressVideo] *)
| AnalysisDone (now : nat -> Z) (parsed : Parsed)  (* [analyzeVideo] resolves *)
| AnalysisFailed                     (* [analyzeVideo] rejects *)
| Export (index : nat)               (* click on the export button of a card *)
| Cutting (ev : PipelineEvent)     (* an event of the run of [cutVideo] *)
| Select (index : nat)               (* click on a card or a marker *)
| ToggleMarkdown
| TimeUpdate (t : Q)                 (* [onTimeUpdate] of the player *)
| LoadedMetadata (d : Q)             (* [onLoadedMetadata] of the player *)
| DownloadMarkdown
| DownloadEDL.

Section Handlers.

Variable P : Platform.

(** [handleFileUpload]. *)
Definition handleFileUpload (file : option File) (s : State) : State :=
  match file with
  | Some f =>
      s |> setVideoFile (Some f)
        |> call (PreviewURL f) |> setVideoUrl (Some f)
        |> setStatus IDLE
        |> setResult None
        |> setActiveClip None
        |> setProgress 0
  | None => s
  end.

(** The progress callback [handleAnalyze] gives [compressVideo]. *)
Definition onProgress (p : Z) (s : State) : State :=
  s |> setProgress p
    |> setStatusMessage ("正在压缩上传... " ++ numberToString p ++ "%")%string.

(** The callback is called once for each report a handler of the run
    makes: the reports that [after] has and [before] had not. *)
Definition reports (before after : list Effect) : list Z :=
  progressLog (skipn (List.length before) after).

Definition callbacks (ps : list Z) (s : State) : State :=
  fold_left (fun s p => onProgress p s) ps s.

(** The [catch] of [handleAnalyze]. *)
Definition analysisFailed (s : State) : State :=
  s |> call ConsoleError
    |> setStatus ERROR
    |> setStatusMessage "分析过程中出错，请重试"
    |> setAwaiting Nothing.

(** [handleAnalyze] from [await compressVideo(...)] on: it goes on when the
    promise of the run has settled. *)
Definition afterCompression (s : State) : State :=
  match awaiting s, compression s with
  | ForCompression, Some run =>
      match promise run with
      | Pending => s
      | Resolved processFile =>
          s |> setStatus ANALYZING
            |> setStatusMessage "Gemini Pro 正在分析精彩片段..."
            |> call (AnalyzeVideo processFile)
            |> setAwaiting ForAnalysis
      | Rejected _ => analysisFailed s
      end
  | _, _ => s
  end.

(** [handleAnalyze] up to its first [await]: the executor of
    [compressVideo] runs, with the calls of the callback it makes, before
    the function is suspended. *)
Definition handleAnalyze (s : State) : State :=
  match videoFile s with
  | None => s
  | Some file =>
      let run := Compress.compressVideo file in
      s |> setStatus READING_FILE
        |> setStatusMessage "正在优化视频大小以进行 AI 分析..."
        |> call (CompressVideo file)
        |> setCompression (Some run)
        |> callbacks (reports [] (trace run))
        |> setAwaiting ForCompression
        |> afterCompression
  end.

(** An event of the run of [compressVideo]: its handler runs, calling the
    callback as it goes; then [handleAnalyze] goes on if it can. *)
Definition onCompression (ev : PipelineEvent) (s : State) : State :=
  match compression s with
  | None => s
  | Some run =>
      let run' := Compress.step P run ev in
      s |> setCompression (Some run')
        |> callbacks (reports (trace run) (trace run'))
        |> afterCompression
  end.

(** [handleAnalyze] from [await analyzeVideo(...)] on, when the analysis
    has resolved. *)
Definition analysisDone (analysisData : AnalysisResult) (s : State) : State :=
  s |> setResult (Some analysisData)
    |> setStatus COMPLETED
    |> setAwaiting Nothing.

(** [handleExportClip] from [await cutVideo(...)] on, with its [catch] and
    its [finally]. *)
Definition afterCut (s : State) : State :=
  match cutting s with
  | None => s
  | Some (clip, run) =>
      match promise run with
      | Pending => s
      | Resolved blob =>
          s |> call (DownloadURL blob)
            |> call (Download (downloadName (Types.title clip)))
            |> call RevokeDownloadURL
            |> setExportingClipId None
            |> setCutting None
      | Rejected _ =>
          s |> call ConsoleError
            |> call (Alert "导出失败，请重试")
            |> setExportingClipId None
            |> setCutting None
      end
  end.

(** [handleExportClip] up to its [await]. *)
Definition handleExportClip (clip : Clip) (s : State) : State :=
  match videoFile s with
  | None => s
  | Some file =>
      if truthy (exportingClipId s) then s
      else
        let run := Cut.cutVideo P file (Types.startTime clip) in
        s |> setExportingClipId (Some (Types.id clip))
          |> call (CutVideo file (Types.startTime clip) (Types.endTime clip))
          |> setCutting (Some (clip, run))
          |> afterCut
  end.

Definition onCutting (ev : PipelineEvent) (s : State) : State :=
  match cutting s with
  | None => s
  | Some (clip, run) =>
      s |> setCutting
             (Some (clip, Cut.step P (Types.startTime clip) (Types.endTime clip) run ev))
        |> afterCut
  end.

(** [handleDownloadMarkdown] and [handleDownloadEDL]: a blob of text is
    saved under a name made from the title of the video. *)
Definition handleDownloadMarkdown (s : State) : State :=
  match result s with
  | None => s
  | Some r =>
      s |> call (SaveText "text/markdown"
                   (orElseUnits (Types.videoTitle r) (codeUnits "summary")
                    ++ codeUnits ".md"))
  end.

Definition handleDownloadEDL (s : State) : State :=
  match result s with
  | None => s
  | Some r =>
      s |> call (SaveText "application/json"
                   (orElseUnits (Types.videoTitle r) (codeUnits "clips")
                    ++ codeUnits "_EDL.json"))
  end.

(** The clip of the card at [index]. *)
Definition card (s : State) (index : nat) : option Clip :=
  match result s with
  | Some r => nth_error (Types.clips r) index
  | None => None
  end.

Definition statusIs (a b : ProcessingStatus) : bool :=
  match a, b with
  | IDLE, IDLE | READING_FILE, READING_FILE | ANALYZING, ANALYZING
  | COMPLETED, COMPLETED | ERROR, ERROR => true
  | _, _ => false
  end.

(** What the rendered page lets through.  The file input is there while no
    file is chosen; the rest of the page needs a file.  The analyse button
    is there in [IDLE]; the cards, the markers, the toggle and the two
    downloads in [COMPLETED]; the export button of the clip that is being
    exported is disabled.  An asynchronous event needs its run.  The page
    is taken to be rendered from the new state before the next event is
    delivered, so that a handler reads the state its event finds. *)
Definition offered (s : State) (ev : Event) : bool :=
  match ev with
  | Upload _ => negb (isSome (videoFile s))
  | Analyze => isSome (videoFile s) && statusIs (status s) IDLE
  | Compression _ => isSome (compression s)
  | AnalysisDone _ _ | AnalysisFailed =>
      match awaiting s with ForAnalysis => true | _ => false end
  | Export index =>
      isSome (videoFile s) && statusIs (status s) COMPLETED
      && negb (showMarkdown s)
      && match card s index, exportingClipId s with
         | Some clip, Some exporting => negb (String.eqb exporting (Types.id clip))
         | Some _, None => true
         | None, _ => false
         end
  | Cutting _ => isSome (cutting s)
  | Select index =>
      isSome (videoFile s) && statusIs (status s) COMPLETED && isSome (card s index)
  | ToggleMarkdown => isSome (videoFile s) && statusIs (status s) COMPLETED
  | TimeUpdate _ | LoadedMetadata _ =>
      isSome (videoFile s) && isSome (videoUrl s)
  | DownloadMarkdown | DownloadEDL => statusIs (status s) COMPLETED
  end.

Definition handle (s : State) (ev : Event) : State :=
  match ev with
  | Upload file => handleFileUpload file s
  | Analyze => handleAnalyze s
  | Compression ev => onCompression ev s
  | AnalysisDone now parsed => analysisDone (Gemini.result now parsed) s
  | AnalysisFailed => analysisFailed s
  | Export index =>
      match card s index with
      | Some clip => handleExportClip clip s
      | None => s
      end
  | Cutting ev => onCutting ev s
  | Select index => setActiveClip (card s index) s
  | ToggleMarkdown => setShowMarkdown (negb (showMarkdown s)) s
  | TimeUpdate t => setCurrentTime t s
  | LoadedMetadata d => setDuration d s
  | DownloadMarkdown => handleDownloadMarkdown s
  | DownloadEDL => handleDownloadEDL s
  end.

Definition step (s : State) (ev : Event) : State :=
  if offered s ev then handle s ev else s.

Definition run (evs : list Event) : State := fold_left step evs init.

End Handlers.

End App.

(** The statuses [handleAnalyze] ends in. *)
Definition final (st : ProcessingStatus) : bool :=
  match st with
  | COMPLETED | ERROR => true
  | _ => false
  end.

(** The status tells where [handleAnalyze] is, and only [IDLE] goes
    without a file. *)
Definition consistent (s : App.State) : bool :=
  match App.awaiting s with
  | App.ForCompression => App.statusIs (App.status s) READING_FILE
  | App.ForAnalysis => App.statusIs (App.status s) ANALYZING
  | App.Nothing =>
      App.statusIs (App.status s) IDLE || final (App.status s)
  end
  && (App.statusIs (App.status s) IDLE || isSome (App.videoFile s)).

(** What [analyzeVideo] has been called with, in order. *)
Definition analysed (l : list App.Call) : list Blob :=
  flat_map (fun c => match c with App.AnalyzeVideo b => [b] | _ => [] end) l.

(** How the run of [compressVideo] and [handleAnalyze] hang together. *)
Definition analysisOK (P : Platform) (s : App.State) : Prop :=
  match App.compression s with
  | None =>
      App.status s = IDLE /\ App.awaiting s = App.Nothing /\
      analysed (App.calls s) = []
  | Some run =>
      exists file cevs,
        App.videoFile s = Some file /\ run = Compress.run P file cevs /\
        match promise run with
        | Pending =>
            App.awaiting s = App.ForCompression /\
            App.status s = READING_FILE /\ analysed (App.calls s) = []
        | Resolved b =>
            App.awaiting s <> App.ForCompression /\
            (App.status s = ANALYZING \/ final (App.status s) = true) /\
            (App.status s = COMPLETED -> App.result s <> None) /\
            analysed (App.calls s) = [b]
        | Rejected _ =>
            App.awaiting s = App.Nothing /\ App.status s = ERROR /\
            analysed (App.calls s) = []
        end
  end.

(** The events that [handleAnalyze] and the upload react to. *)
Definition ofAnalysis (ev : App.Event) : bool :=
  match ev with
  | App.Upload _ | App.Analyze | App.Compression _
  | App.AnalysisDone _ _ | App.AnalysisFailed => true
  | _ => false
  end.

(** The last percentage the run of [compressVideo] has reported, and 0
    before the first report. *)
Definition shown (s : App.State) : Z :=
  match App.compression s with
  | Some run => last (progressLog (trace run)) 0
  | None => 0
  end.

(** [handleAnalyze] waits for a run of [compressVideo] on [file] that has
    seen no load error. *)
Definition waiting (P : Platform) (file : File) (s : App.State) : Prop :=
  exists cevs,
    ~ In EvError cevs /\
    App.compression s = Some (Compress.run P file cevs) /\
    App.awaiting s = App.ForCompression /\
    App.status s = READING_FILE /\
    App.videoFile s = Some file /\
    analysed (App.calls s) = [].

(** Counting the calls of one kind. *)
Definition count (kind : App.Call -> bool) (l : list App.Call) : nat :=
  List.length (filter kind l).

Definition isCutVideo (c : App.Call) : bool :=
  match c with App.CutVideo _ _ _ => true | _ => false end.
Definition isDownloadURL (c : App.Call) : bool :=
  match c with App.DownloadURL _ => true | _ => false end.
Definition isDownload (c : App.Call) : bool :=
  match c with App.Download _ => true | _ => false end.
Definition isRevokeDownloadURL (c : App.Call) : bool :=
  match c with App.RevokeDownloadURL => true | _ => false end.
Definition isAlert (c : App.Call) : bool :=
  match c with App.Alert _ => true | _ => false end.

(** Every clip of the result has an id that is not empty. *)
Definition idsOK (s : App.State) : Prop :=
  forall r, App.result s = Some r -> Forall (fun c => Types.id c <> "") (Types.clips r).

(** The export in flight: [exportingClipId] names its clip, and its run of
    [cutVideo] has not settled. *)
Definition exportOK (P : Platform) (s : App.State) : Prop :=
  match App.cutting s with
  | None => App.exportingClipId s = None
  | Some (clip, run) =>
      App.exportingClipId s = Some (Types.id clip) /\ Types.id clip <> "" /\
      promise run = Pending /\
      exists file cevs,
        App.videoFile s = Some file /\
        run = Cut.run P file (Types.startTime clip) (Types.endTime clip) cevs
  end.

(** Every export that was started has been saved, has failed, or is in
    flight; a download URL is made for each save and revoked after it. *)
Definition exportsBalanced (s : App.State) : Prop :=
  let l := App.calls s in
  count isCutVideo l
  = (count isDownload l + count isAlert l
     + if isSome (App.cutting s) then 1 else 0)%nat /\
  count isDownloadURL l = count isDownload l /\
  count isRevokeDownloadURL l = count isDownload l /\
  Forall (fun c => match c with
                   | App.Download download => noWhiteSpace download
                   | _ => True
                   end) l.

(** [handleExportClip] waits for a run of [cutVideo] for [clip] that has
    seen no load error; [started] exports have been started so far and
    [saved] of them saved. *)
Definition exportWaiting (P : Platform) (file : File) (clip : Clip)
    (started saved : nat) (s : App.State) : Prop :=
  exists cevs,
    ~ In EvError cevs /\
    App.cutting s
    = Some (clip, Cut.run P file (Types.startTime clip) (Types.endTime clip) cevs) /\
    App.exportingClipId s = Some (Types.id clip) /\
    App.videoFile s = Some file /\
    count isCutVideo (App.calls s) = started /\
    count isDownload (App.calls s) = saved.

(** The events that [handleExportClip] reacts to. *)
Definition ofExport (ev : App.Event) : bool :=
  match ev with
  | App.Export _ | App.Cutting _ => true
  | _ => false
  end.

(* ================================================================= *)
(** ** Arithmetic of [Math.round] *)

Lemma Math_round_mono (x y : Q) : (x <= y)%Q -> Math_round x <= Math_round y.
Proof.
  intros Hxy. unfold Math_round. apply Qfloor_resp_le.
  apply Qplus_le_compat; [exact Hxy | apply Qle_refl].
Qed.

(** Rounding [k * (w / h)] is an integer division. *)
Lemma Math_round_ratio (k w h : Z) :
  0 < h ->
  Math_round (inject_Z k * (inject_Z w / inject_Z h)) = (2 * k * w + h) / (2 * h).
Proof.
  intros Hh. unfold Math_round. rewrite (Zdiv_Qdiv (2 * k * w + h) (2 * h)).
  apply Qfloor_comp.
  rewrite inject_Z_plus, !inject_Z_mult.
  assert (Hq : ~ (inject_Z h == 0)%Q).
  { intros E. unfold Qeq in E. simpl in E. lia. }
  field. exact Hq.
Qed.

Lemma round_ratio_near (k w h : Z) :
  0 < h ->
  let W := (2 * k * w + h) / (2 * h) in
  - h < 2 * (W * h) - 2 * (k * w) <= h.
Proof.
  intros Hh W.
  assert (H2 : 0 < 2 * h) by lia.
  pose proof (Z.mul_div_le (2 * k * w + h) (2 * h) H2) as Hle.
  pose proof (Z.mul_succ_div_gt (2 * k * w + h) (2 * h) H2) as Hgt.
  fold W in Hle, Hgt. nia.
Qed.

(* ================================================================= *)
(** ** Basic facts about traces and steps *)

Lemma Each_nil (Q : list Effect -> Effect -> Prop) : Each Q [].
Proof. intros [|x b] e a H; discriminate H. Qed.

Lemma Each_snoc (Q : list Effect -> Effect -> Prop) (l : list Effect) (x : Effect) :
  Each Q l -> Q l x -> Each Q (l ++ [x]).
Proof.
  intros Hl Hx before e after Heq.
  destruct after as [|a0 t].
  - apply app_inj_tail in Heq. destruct Heq as [-> ->]. exact Hx.
  - destruct (@exists_last _ (a0 :: t)) as (t' & z & Ht); [discriminate|].
    rewrite Ht in Heq.
    change (before ++ e :: t' ++ [z]) with (before ++ (e :: t') ++ [z]) in Heq.
    rewrite app_assoc in Heq. apply app_inj_tail in Heq.
    destruct Heq as [Heq _]. exact (Hl _ _ _ Heq).
Qed.

Lemma quiescent_compress_step (P : Platform) (s : State) (ev : Event) :
  quiescent s -> Compress.step P s ev = s.
Proof.
  intros (Hv & Ha & Hr & Hq & Ht & Hp & Hf & Ho).
  destruct ev; simpl; unfold recorderFails;
    rewrite ?Hv, ?Ha, ?Hr, ?Hq, ?Ht, ?Hp, ?Hf, ?Ho; reflexivity.
Qed.

Lemma quiescent_compress_run (P : Platform) (evs : list Event) (s : State) :
  quiescent s -> fold_left (Compress.step P) evs s = s.
Proof.
  intros Hs. induction evs as [|ev evs IH]; simpl.
  - reflexivity.
  - rewrite quiescent_compress_step by exact Hs. exact IH.
Qed.

(* ================================================================= *)
(** ** The fast path of [compressVideo] *)

Lemma compress_fast_path_state (file : File) :
  size file < Compress.THRESHOLD ->
  Compress.compressVideo file = blank |> onProgress 100 |> resolve (OfFile file).
Proof.
  intros Hsz. unfold Compress.compressVideo.
  change (20 * 1024 * 1024) with Compress.THRESHOLD.
  destruct (Z.ltb_spec (size file) Compress.THRESHOLD) as [_|Hge];
    [reflexivity | lia].
Qed.

Lemma compress_fast_path_run (P : Platform) (file : File) (evs : list Event) :
  size file < Compress.THRESHOLD ->
  Compress.run P file evs = blank |> onProgress 100 |> resolve (OfFile file).
Proof.
  intros Hsz. unfold Compress.run. rewrite (compress_fast_path_state file Hsz).
  apply quiescent_compress_run. repeat split.
Qed.

(** C3.  A file below the size threshold: the promise resolves at once with
    the caller's own file object, the progress callback is called once, with
    100, and nothing else is ever done in the run: no video element, no
    object URL, no canvas, no recorder, and no event changes the state. *)
Theorem compress_small_file_fast_path (P : Platform) (file : File) :
  size file < Compress.THRESHOLD ->
  let s := Compress.compressVideo file in
  promise s = Resolved (OfFile file) /\
  trace s = [Progress 100; Resolve (OfFile file)] /\
  progressLog (trace s) = [100] /\
  quiescent s /\ urlLive s = false /\ surface s = None /\
  forall evs, Compress.run P file evs = s.
Proof.
  intros Hsz s.
  pose proof (compress_fast_path_state file Hsz) as Hs. fold s in Hs.
  assert (Hq : quiescent s) by (rewrite Hs; repeat split).
  rewrite Hs at 1 2 3. repeat split; try exact Hq; try (rewrite Hs; reflexivity).
  intros evs. unfold Compress.run. fold s. apply quiescent_compress_run, Hq.
Qed.

Lemma compress_small_file_fast_path_witness :
  let file := mkFile "clip.mp4" 1048576 "video/mp4" in
  let P := mkPlatform (fun _ => true) true false None in
  progressLog (trace (Compress.compressVideo file)) = [100] /\
  Compress.run P file [EvLoadedMetadata 640 360 12; EvEnded; EvTimeout]
  = Compress.compressVideo file.
Proof.
  intros file P.
  destruct (compress_small_file_fast_path P file) as (_ & _ & Hlog & _ & _ & _ & Hrun).
  - vm_compute. reflexivity.
  - split; [exact Hlog | apply Hrun].
Defined.

(* ================================================================= *)
(** ** Invariants of the two state machines *)

Lemma stopCalled_snoc (l : list Effect) (e : Effect) :
  stopCalled (l ++ [e]) = stopCalled l || isStopCall e.
Proof. unfold stopCalled. rewrite existsb_app. simpl. now rewrite orb_false_r. Qed.

Lemma resolveCalled_snoc (l : list Effect) (e : Effect) :
  resolveCalled (l ++ [e]) = resolveCalled l || isResolve e.
Proof. unfold resolveCalled. rewrite existsb_app. simpl. now rewrite orb_false_r. Qed.

Lemma canvas_snoc (l : list Effect) (e : Effect) :
  existsb isCanvas (l ++ [e]) = existsb isCanvas l || isCanvas e.
Proof. rewrite existsb_app. simpl. now rewrite orb_false_r. Qed.

Ltac flags :=
  rewrite ?stopCalled_snoc, ?resolveCalled_snoc, ?canvas_snoc; simpl.

(** Both sides of a preservation goal are boolean expressions over the
    fields of the state: case analysis, stopping as soon as a case is
    settled. *)
Ltac settled :=
  simpl; flags; rewrite ?orb_false_r;
  try solve [exact id | intros; discriminate | intros; reflexivity].

Ltac bool_cases :=
  settled;
  repeat (match goal with
          | r : option RecordingState |- _ => destruct r as [[| |]|]
          | |- context [existsb isCanvas ?t] => destruct (existsb isCanvas t)
          | |- context [stopCalled ?t] => destruct (stopCalled t)
          | |- context [resolveCalled ?t] => destruct (resolveCalled t)
          | u : option (Z * Z) |- _ =>
              match goal with |- context [u] => destruct u as [[? ?]|] end
          | b : bool |- _ =>
              match goal with |- context [b] => destruct b end
          | n : nat |- _ =>
              match goal with |- context [n] => destruct n as [|?] end
          end; settled).

Lemma cutGood_step (P : Platform) (startTime endTime : Q) (s : State) (ev : Event) :
  cutGood s = true -> cutGood (Cut.step P startTime endTime s ev) = true.
Proof.
  destruct s as [tr pr vi ul am su re sq ch ti pp rp oe du].
  unfold cutGood.
  destruct ev as [| w h d | | o | | | o | e | o | | c | |]; simpl.
  - destruct vi; bool_cases.
  - destruct am; [|exact id].
    unfold Cut.onloadedmetadata, Cut.startProcessing.
    destruct (Cut.dimensions w h);
      destruct (context2d P); simpl;
      destruct (isTypeSupported P "video/webm;codecs=vp9"); simpl;
      try destruct (isTypeSupported P "video/webm");
      bool_cases.
  - destruct vi; bool_cases.
  - exact id.
  - exact id.
  - destruct ti as [|ti]; [exact id|]. bool_cases.
  - destruct pp; [|exact id]. unfold Cut.drawFrame.
    destruct (Cut.finished endTime o); destruct re as [[| |]|];
      destruct su as [[? ?]|]; bool_cases.
  - destruct pp; [|exact id]. bool_cases.
  - destruct rp; [|exact id]. unfold Cut.drawFrame.
    destruct (Cut.finished endTime o); destruct re as [[| |]|];
      destruct su as [[? ?]|]; bool_cases.
  - exact id.
  - unfold ondataavailable.
    destruct re; [|exact id]. destruct (nonEmpty c); exact id.
  - destruct sq; [|exact id]. bool_cases.
  - unfold recorderFails; simpl. bool_cases.
Qed.

Lemma compressGood_step (P : Platform) (s : State) (ev : Event) :
  compressGood s = true -> compressGood (Compress.step P s ev) = true.
Proof.
  destruct s as [tr pr vi ul am su re sq ch ti pp rp oe du].
  unfold compressGood.
  destruct ev as [| w h d | | o | | | o | e | o | | c | |]; simpl.
  - destruct vi; bool_cases.
  - destruct am; [|exact id].
    unfold Compress.onloadedmetadata.
    destruct (context2d P); simpl;
      try destruct (isTypeSupported P "video/webm;codecs=vp8");
      bool_cases.
  - exact id.
  - exact id.
  - exact id.
  - destruct ti as [|ti]; [exact id|]. unfold Compress.stopAndReport; simpl.
    destruct re as [[| |]|]; simpl; try destruct (stopInactiveThrows P);
      bool_cases.
  - destruct pp; [|exact id]. unfold Compress.drawFrame.
    destruct (paused o || ended o); destruct re as [[| |]|];
      destruct su as [[? ?]|]; bool_cases.
  - destruct pp; [|exact id]. bool_cases.
  - destruct rp; [|exact id]. unfold Compress.drawFrame.
    destruct (paused o || ended o); destruct re as [[| |]|];
      destruct su as [[? ?]|]; bool_cases.
  - destruct oe; [|exact id]. bool_cases.
  - unfold ondataavailable.
    destruct re; [|exact id]. destruct (nonEmpty c); exact id.
  - destruct sq; [|exact id]. bool_cases.
  - unfold recorderFails; simpl. bool_cases.
Qed.

Lemma cutGood_init (P : Platform) (file : File) (startTime : Q) :
  cutGood (Cut.cutVideo P file startTime) = true.
Proof.
  unfold Cut.cutVideo. destruct (readyAtCreation P) as [[w h]|]; [|reflexivity].
  unfold Cut.startProcessing.
  destruct (Cut.dimensions w h);
    destruct (context2d P); simpl;
    destruct (isTypeSupported P "video/webm;codecs=vp9"); simpl;
    destruct (isTypeSupported P "video/webm"); reflexivity.
Qed.

Lemma compressGood_init (file : File) :
  Compress.THRESHOLD <= size file ->
  compressGood (Compress.compressVideo file) = true.
Proof.
  intros Hsz. unfold Compress.compressVideo.
  change (20 * 1024 * 1024) with Compress.THRESHOLD.
  destruct (Z.ltb_spec (size file) Compress.THRESHOLD); [lia | reflexivity].
Qed.

Lemma cut_run_snoc P file startTime endTime evs ev :
  Cut.run P file startTime endTime (evs ++ [ev])
  = Cut.step P startTime endTime (Cut.run P file startTime endTime evs) ev.
Proof. unfold Cut.run. now rewrite fold_left_app. Qed.

Lemma compress_run_snoc P file evs ev :
  Compress.run P file (evs ++ [ev])
  = Compress.step P (Compress.run P file evs) ev.
Proof. unfold Compress.run. now rewrite fold_left_app. Qed.

Lemma cut_run_app P file startTime endTime evs more :
  Cut.run P file startTime endTime (evs ++ more)
  = fold_left (Cut.step P startTime endTime) more (Cut.run P file startTime endTime evs).
Proof. unfold Cut.run. now rewrite fold_left_app. Qed.

Lemma compress_run_app P file evs more :
  Compress.run P file (evs ++ more)
  = fold_left (Compress.step P) more (Compress.run P file evs).
Proof. unfold Compress.run. now rewrite fold_left_app. Qed.

Lemma cutGood_fold P startTime endTime evs s :
  cutGood s = true -> cutGood (fold_left (Cut.step P startTime endTime) evs s) = true.
Proof.
  revert s. induction evs as [|ev evs IH]; intros s Hs; simpl.
  - exact Hs.
  - apply IH, cutGood_step, Hs.
Qed.

Lemma compressGood_fold P evs s :
  compressGood s = true -> compressGood (fold_left (Compress.step P) evs s) = true.
Proof.
  revert s. induction evs as [|ev evs IH]; intros s Hs; simpl.
  - exact Hs.
  - apply IH, compressGood_step, Hs.
Qed.

Lemma cutGood_run P file startTime endTime evs :
  cutGood (Cut.run P file startTime endTime evs) = true.
Proof. apply cutGood_fold, cutGood_init. Qed.

Lemma compressGood_run P file evs :
  Compress.THRESHOLD <= size file ->
  compressGood (Compress.run P file evs) = true.
Proof. intros H. apply compressGood_fold, compressGood_init, H. Qed.

(** What the invariants say, field by field. *)
Lemma cutGood_facts (s : State) :
  cutGood s = true ->
  (recorder s = Some Recording ->
     stopCalled (trace s) = false /\ resolveCalled (trace s) = false) /\
  (stopQueued s = true -> resolveCalled (trace s) = false) /\
  (awaitMetadata s = true ->
     existsb isCanvas (trace s) = false /\ surface s = None /\ recorder s = None) /\
  (stopCalled (trace s) = true -> playPending s = false /\ rafPending s = false) /\
  (playPending s = true -> rafPending s = false) /\
  (surface s <> None -> awaitMetadata s = false).
Proof.
  destruct s as [tr pr vi ul am su re sq ch ti pp rp oe du].
  unfold cutGood; simpl. intros H.
  destruct oe; [discriminate H|]. simpl in H.
  destruct pp, rp; simpl in H; try discriminate H;
  destruct am; simpl in H;
  destruct (existsb isCanvas tr); simpl in H; try discriminate H;
  destruct su as [[? ?]|]; simpl in H; try discriminate H;
  destruct re as [[| |]|]; simpl in H; try discriminate H;
  destruct sq; simpl in H; try discriminate H;
  destruct (stopCalled tr); simpl in H; try discriminate H;
  destruct (resolveCalled tr); simpl in H; try discriminate H;
  repeat split; intros; try discriminate; try congruence; try reflexivity.
  all: destruct ti as [|[|?]]; simpl in H; discriminate H.
Qed.

Lemma compressGood_facts (s : State) :
  compressGood s = true ->
  (recorder s = Some Recording ->
     stopCalled (trace s) = false /\ resolveCalled (trace s) = false) /\
  (stopQueued s = true -> resolveCalled (trace s) = false) /\
  (awaitMetadata s = true ->
     existsb isCanvas (trace s) = false /\ surface s = None /\ recorder s = None) /\
  (playPending s = true -> rafPending s = false) /\
  (surface s <> None -> awaitMetadata s = false) /\
  (recorder s = None -> resolveCalled (trace s) = false).
Proof.
  destruct s as [tr pr vi ul am su re sq ch ti pp rp oe du].
  unfold compressGood; simpl. intros H.
  destruct pp, rp; simpl in H; try discriminate H;
  destruct am; simpl in H;
  destruct (existsb isCanvas tr); simpl in H; try discriminate H;
  destruct su as [[? ?]|]; simpl in H; try discriminate H;
  destruct re as [[| |]|]; simpl in H; try discriminate H;
  destruct sq; simpl in H; try discriminate H;
  destruct (stopCalled tr); simpl in H; try discriminate H;
  destruct (resolveCalled tr); simpl in H; try discriminate H;
  repeat split; intros; try discriminate; try congruence; try reflexivity.
Qed.

Lemma percent_cut_le_99 (startTime endTime t : Q) :
  Cut.percent startTime endTime t <= 99.
Proof. unfold Cut.percent. apply Z.le_min_l. Qed.

Lemma percent_compress_le_99 (d t : Q) : Compress.percent d t <= 99.
Proof. unfold Compress.percent. apply Z.le_min_l. Qed.

Lemma not_finished (endTime : Q) (o : Obs) :
  Cut.finished endTime o = false ->
  paused o = false /\ ended o = false /\ (currentTime o < endTime)%Q.
Proof.
  unfold Cut.finished. intros H.
  apply orb_false_iff in H. destruct H as [H Ht].
  apply orb_false_iff in H. destruct H as [Hp He].
  repeat split; try assumption.
  apply Qnot_le_lt. intros Hle. apply Qle_bool_iff in Hle. congruence.
Qed.

(** Closes the obligation of one effect: either the effect is not of the
    kind the statement is about, or the fact about the trace before it is
    one of the hypotheses. *)
Ltac side_condition :=
  match goal with
  | |- hundredAfterStop _ _ =>
      let E := fresh in intros E;
      first [ discriminate E
            | eexists; reflexivity
            | injection E as E; exfalso;
              match type of E with
              | Cut.percent ?a ?b ?c = _ =>
                  pose proof (percent_cut_le_99 a b c); lia
              | Compress.percent ?a ?b = _ =>
                  pose proof (percent_compress_le_99 a b); lia
              end ]
  | |- hundredBeforeFinalize _ _ =>
      let E := fresh in intros E;
      first [ discriminate E
            | flags; rewrite ?orb_false_r; assumption
            | injection E as E; exfalso;
              match type of E with
              | Cut.percent ?a ?b ?c = _ =>
                  pose proof (percent_cut_le_99 a b c); lia
              end ]
  | |- stopOnce _ _ =>
      let E := fresh in intros E;
      first [ discriminate E | flags; rewrite ?orb_false_r; assumption ]
  | |- finalizeOnce _ _ =>
      let E := fresh in intros E;
      first [ discriminate E | flags; rewrite ?orb_false_r; assumption ]
  | |- canvasOnce _ _ =>
      let E := fresh in intros E;
      first [ discriminate E | flags; rewrite ?orb_false_r; assumption ]
  | |- sampledBefore _ _ _ =>
      let E := fresh in intros ? ? ? E;
      first [ discriminate E | injection E as <- _ _; assumption ]
  | |- clamped _ _ =>
      let E := fresh in intros ? E;
      first [ discriminate E
            | injection E as <-; right; split; [reflexivity | eexists; reflexivity]
            | injection E as <-; left;
              first [ apply percent_cut_le_99 | apply percent_compress_le_99 ] ]
  end.

Ltac effects_ok :=
  simpl; repeat (apply Each_snoc); try assumption;
  repeat split; side_condition.

Lemma cut_effects_step (P : Platform) (startTime endTime : Q) (s : State) (ev : Event) :
  cutGood s = true ->
  Each (cutEffectOK endTime) (trace s) ->
  Each (cutEffectOK endTime) (trace (Cut.step P startTime endTime s ev)).
Proof.
  intros Hg He.
  destruct (cutGood_facts s Hg) as (Hrec & Hq & Haw & _ & _ & _).
  unfold cutEffectOK.
  destruct ev as [| w h d | | o | | | o | e | o | | c | |]; simpl;
    try assumption.
  - destruct (video s); [effects_ok | assumption].
  - destruct (awaitMetadata s) eqn:Ea; [|assumption].
    destruct (Haw eq_refl) as (Hcv & _ & _).
    unfold Cut.onloadedmetadata, Cut.startProcessing.
    destruct (Cut.dimensions w h);
      destruct (context2d P); simpl;
      destruct (isTypeSupported P "video/webm;codecs=vp9"); simpl;
      try destruct (isTypeSupported P "video/webm"); effects_ok.
  - destruct (video s); [effects_ok | assumption].
  - destruct (timers s); [assumption | effects_ok].
  - destruct (playPending s); [|assumption]. unfold Cut.drawFrame.
    destruct (Cut.finished endTime o) eqn:Ef; simpl.
    + destruct (recorder s) as [[| |]|] eqn:Er; try effects_ok.
      destruct (Hrec eq_refl) as (Hst & Hrs). effects_ok.
    + destruct (not_finished _ _ Ef) as (_ & _ & Hlt).
      destruct (surface s) as [[? ?]|]; effects_ok.
  - destruct (playPending s); [effects_ok | assumption].
  - destruct (rafPending s); [|assumption]. unfold Cut.drawFrame.
    destruct (Cut.finished endTime o) eqn:Ef; simpl.
    + destruct (recorder s) as [[| |]|] eqn:Er; try effects_ok.
      destruct (Hrec eq_refl) as (Hst & Hrs). effects_ok.
    + destruct (not_finished _ _ Ef) as (_ & _ & Hlt).
      destruct (surface s) as [[? ?]|]; effects_ok.
  - unfold ondataavailable.
    destruct (recorder s); [|assumption]. destruct (nonEmpty c); assumption.
  - destruct (stopQueued s) eqn:Eq; [|assumption].
    pose proof (Hq eq_refl) as Hrs. effects_ok.
  - unfold recorderFails. destruct (recorder s) as [[| |]|]; assumption.
Qed.

Lemma compress_effects_step (P : Platform) (s : State) (ev : Event) :
  compressGood s = true ->
  Each compressEffectOK (trace s) ->
  Each compressEffectOK (trace (Compress.step P s ev)).
Proof.
  intros Hg He.
  destruct (compressGood_facts s Hg) as (Hrec & Hq & Haw & _ & _ & _).
  unfold compressEffectOK.
  destruct ev as [| w h d | | o | | | o | e | o | | c | |]; simpl;
    try assumption.
  - destruct (video s); [effects_ok | assumption].
  - destruct (awaitMetadata s) eqn:Ea; [|assumption].
    destruct (Haw eq_refl) as (Hcv & _ & _).
    unfold Compress.onloadedmetadata.
    destruct (context2d P); simpl;
      try destruct (isTypeSupported P "video/webm;codecs=vp8"); effects_ok.
  - destruct (timers s); [assumption|]. unfold Compress.stopAndReport; simpl.
    destruct (recorder s) as [[| |]|]; simpl;
      try destruct (stopInactiveThrows P); effects_ok.
  - destruct (playPending s); [|assumption]. unfold Compress.drawFrame.
    destruct (paused o || ended o); simpl; [assumption|].
    destruct (surface s) as [[? ?]|]; effects_ok.
  - destruct (playPending s); [effects_ok | assumption].
  - destruct (rafPending s); [|assumption]. unfold Compress.drawFrame.
    destruct (paused o || ended o); simpl; [assumption|].
    destruct (surface s) as [[? ?]|]; effects_ok.
  - destruct (onendedSet s); [effects_ok | assumption].
  - unfold ondataavailable.
    destruct (recorder s); [|assumption]. destruct (nonEmpty c); assumption.
  - destruct (stopQueued s) eqn:Eq; [|assumption].
    pose proof (Hq eq_refl) as Hrs. effects_ok.
  - unfold recorderFails. destruct (recorder s) as [[| |]|]; assumption.
Qed.

Lemma cut_startProcessing_effects (P : Platform) (startTime endTime : Q)
    (w h : Z) (s : State) :
  existsb isCanvas (trace s) = false ->
  Each (cutEffectOK endTime) (trace s) ->
  Each (cutEffectOK endTime) (trace (fst (Cut.startProcessing P startTime w h s))).
Proof.
  intros Hcv He. unfold cutEffectOK, Cut.startProcessing in *.
  destruct (Cut.dimensions w h);
    destruct (context2d P); simpl;
    destruct (isTypeSupported P "video/webm;codecs=vp9"); simpl;
    try destruct (isTypeSupported P "video/webm"); effects_ok.
Qed.

Lemma cut_effects_init (P : Platform) (file : File) (startTime endTime : Q) :
  Each (cutEffectOK endTime) (trace (Cut.cutVideo P file startTime)).
Proof.
  unfold Cut.cutVideo.
  set (s0 := blank |> emit CreateVideo |> setVideo true
                   |> createObjectURL file |> emit (Seek startTime)).
  assert (H0 : Each (cutEffectOK endTime) (trace s0)).
  { change (trace s0)
      with ((([] ++ [CreateVideo]) ++ [CreateObjectURL file]) ++ [Seek startTime]).
    unfold cutEffectOK. repeat (apply Each_snoc); try apply Each_nil;
      repeat split; side_condition. }
  assert (Hc : existsb isCanvas (trace s0) = false) by reflexivity.
  clearbody s0.
  destruct (readyAtCreation P) as [[w h]|]; [|exact H0].
  pose proof (cut_startProcessing_effects P startTime endTime w h s0 Hc H0) as H1.
  destruct (Cut.startProcessing P startTime w h s0) as [s' [e|]]; simpl in *;
    [|exact H1].
  apply Each_snoc; [exact H1|]. unfold cutEffectOK. repeat split; side_condition.
Qed.

Lemma compress_effects_init (file : File) :
  Compress.THRESHOLD <= size file ->
  Each compressEffectOK (trace (Compress.compressVideo file)).
Proof.
  intros Hsz. unfold Compress.compressVideo.
  change (20 * 1024 * 1024) with Compress.THRESHOLD.
  destruct (Z.ltb_spec (size file) Compress.THRESHOLD); [lia|].
  change (trace _) with (([] ++ [CreateVideo]) ++ [CreateObjectURL file]).
  unfold compressEffectOK. repeat (apply Each_snoc); try apply Each_nil;
    repeat split; side_condition.
Qed.

Lemma cut_effects_fold P startTime endTime evs s :
  cutGood s = true ->
  Each (cutEffectOK endTime) (trace s) ->
  Each (cutEffectOK endTime) (trace (fold_left (Cut.step P startTime endTime) evs s)).
Proof.
  revert s. induction evs as [|ev evs IH]; intros s Hg He; simpl.
  - exact He.
  - apply IH; [apply cutGood_step, Hg | apply cut_effects_step; assumption].
Qed.

Lemma compress_effects_fold P evs s :
  compressGood s = true ->
  Each compressEffectOK (trace s) ->
  Each compressEffectOK (trace (fold_left (Compress.step P) evs s)).
Proof.
  revert s. induction evs as [|ev evs IH]; intros s Hg He; simpl.
  - exact He.
  - apply IH; [apply compressGood_step, Hg | apply compress_effects_step; assumption].
Qed.

Lemma cut_effects_run P file startTime endTime evs :
  Each (cutEffectOK endTime) (trace (Cut.run P file startTime endTime evs)).
Proof. apply cut_effects_fold; [apply cutGood_init | apply cut_effects_init]. Qed.

Lemma compress_effects_run P file evs :
  Compress.THRESHOLD <= size file ->
  Each compressEffectOK (trace (Compress.run P file evs)).
Proof.
  intros H. apply compress_effects_fold;
    [apply compressGood_init, H | apply compress_effects_init, H].
Qed.

Lemma Each_weaken (Q1 Q2 : list Effect -> Effect -> Prop) (l : list Effect) :
  (forall b e, Q1 b e -> Q2 b e) -> Each Q1 l -> Each Q2 l.
Proof. intros H H1 b e a E. apply H. exact (H1 b e a E). Qed.

(* ================================================================= *)
(** ** The encoding session: chunks and the finalize signal *)

(** Appending a chunk to the parts of a blob appends its bytes: the order of
    [chunks] is the order of the bytes of the artifact. *)
Lemma blobBytes_snoc (parts : list Chunk) (c : Chunk) :
  blobBytes (parts ++ [c]) = blobBytes parts ++ c.
Proof.
  unfold blobBytes. rewrite concat_app. simpl. now rewrite app_nil_r.
Qed.

(** The argument is the same for the two functions; it is made once, over
    any step function whose handlers treat [chunks] and the promise the way
    [ondataavailable] and [onstop] do. *)
Section Accumulation.

Variable step : State -> Event -> State.
Variable init : State.

Hypothesis step_chunks : forall s ev,
  recorder s <> None ->
  chunks (step s ev) = chunks s ++ filter nonEmpty (payloads [ev]).
Hypothesis step_recorder : forall s ev,
  recorder s <> None -> recorder (step s ev) <> None.
Hypothesis step_no_recorder : forall s ev,
  recorder s = None -> chunks (step s ev) = chunks s.
Hypothesis step_settled : forall s ev,
  promise s <> Pending -> promise (step s ev) = promise s.
Hypothesis step_resolves : forall s ev b,
  promise s = Pending -> promise (step s ev) = Resolved b ->
  ev = EvStop /\ b = NewBlob (chunks s) "video/webm".
Hypothesis init_chunks : chunks init = [].
Hypothesis init_unresolved : forall b, promise init <> Resolved b.

Lemma payloads_cons (ev : Event) (evs : list Event) :
  payloads (ev :: evs) = payloads [ev] ++ payloads evs.
Proof. unfold payloads. simpl. now rewrite app_nil_r. Qed.

Lemma chunks_grow (post : list Event) (s : State) :
  recorder s <> None ->
  chunks (fold_left step post s) = chunks s ++ filter nonEmpty (payloads post).
Proof.
  revert s. induction post as [|ev post IH]; intros s Hr; simpl fold_left.
  - simpl. now rewrite app_nil_r.
  - rewrite IH by (apply step_recorder, Hr).
    rewrite step_chunks by exact Hr.
    rewrite (payloads_cons ev post), filter_app, app_assoc. reflexivity.
Qed.

Lemma no_recorder_no_chunks (evs : list Event) :
  recorder (fold_left step evs init) = None ->
  chunks (fold_left step evs init) = [].
Proof.
  induction evs as [|ev evs IH] using rev_ind; intros Hr.
  - exact init_chunks.
  - rewrite fold_left_app in *. simpl in *.
    destruct (recorder (fold_left step evs init)) eqn:Er.
    + exfalso. apply (step_recorder (fold_left step evs init) ev); [congruence|exact Hr].
    + rewrite step_no_recorder by exact Er. apply IH. reflexivity.
Qed.

Lemma resolved_by_finalize (evs : list Event) (b : Blob) :
  promise (fold_left step evs init) = Resolved b ->
  exists pre post,
    evs = pre ++ EvStop :: post /\
    b = NewBlob (chunks (fold_left step pre init)) "video/webm".
Proof.
  induction evs as [|ev evs IH] using rev_ind; intros Hp.
  - simpl in Hp. destruct (init_unresolved b Hp).
  - rewrite fold_left_app in Hp. simpl in Hp.
    destruct (promise (fold_left step evs init)) as [|b'|e] eqn:Ep.
    + destruct (step_resolves _ _ _ Ep Hp) as [-> ->].
      exists evs, []. split; reflexivity.
    + rewrite step_settled in Hp by congruence. rewrite Ep in Hp.
      destruct (IH Hp) as (pre & post & Hevs & Hb).
      exists pre, (post ++ [ev]). split; [|exact Hb].
      rewrite Hevs, <- app_assoc. reflexivity.
    + rewrite step_settled in Hp by congruence. rewrite Ep in Hp. discriminate Hp.
Qed.

End Accumulation.

Lemma settle_settled (new old : Promise) : old <> Pending -> settle new old = old.
Proof. destruct old; [congruence | reflexivity | reflexivity]. Qed.

(** Case analysis over a step: the event, then every test its handler
    makes on the fields of the state and on the platform. *)
Ltac handler_cases :=
  simpl in *;
  repeat match goal with
    | r : option RecordingState |- _ => destruct r as [[| |]|]; simpl in *
    | u : option (Z * Z) |- _ => destruct u as [[? ?]|]; simpl in *
    | |- context [Cut.dimensions ?w ?h] => destruct (Cut.dimensions w h); simpl
    | |- context [if negb ?b then _ else _] => destruct b eqn:?; simpl
    | |- context [if ?b && _ then _ else _] => destruct b eqn:?; simpl
    | |- context [if ?b then _ else _] => destruct b eqn:?; simpl
    end.

Ltac cut_step_cases s ev :=
  destruct s as [?tr ?pr ?vi ?ul ?am ?su ?re ?sq ?ch ti ?pp ?rp ?oe ?du];
  destruct ti as [|?ti];
  destruct ev as [| ?w ?h ?d | | ?o | | | ?o | ?e | ?o | | ?c | |]; simpl;
  unfold Cut.drawFrame, recorderFails, ondataavailable,
    Cut.onloadedmetadata, Cut.startProcessing;
  handler_cases.

Ltac compress_step_cases s ev :=
  destruct s as [?tr ?pr ?vi ?ul ?am ?su ?re ?sq ?ch ti ?pp ?rp ?oe ?du];
  destruct ti as [|?ti];
  destruct ev as [| ?w ?h ?d | | ?o | | | ?o | ?e | ?o | | ?c | |]; simpl;
  unfold Compress.drawFrame, recorderFails, ondataavailable,
    Compress.onloadedmetadata, Compress.stopAndReport;
  handler_cases.

Lemma cut_step_chunks P startTime endTime s ev :
  chunks (Cut.step P startTime endTime s ev) =
  match recorder s with
  | Some _ => chunks s ++ filter nonEmpty (payloads [ev])
  | None => chunks s
  end.
Proof.
  cut_step_cases s ev; rewrite ?app_nil_r; reflexivity.
Qed.

Lemma cut_step_recorder P startTime endTime s ev :
  recorder s <> None -> recorder (Cut.step P startTime endTime s ev) <> None.
Proof.
  intros Hr. cut_step_cases s ev; congruence.
Qed.

Lemma cut_step_promise P startTime endTime s ev :
  promise (Cut.step P startTime endTime s ev) = promise s \/
  (promise s = Pending /\
   ((exists e, promise (Cut.step P startTime endTime s ev) = Rejected e) \/
    (ev = EvStop /\ stopQueued s = true /\
     promise (Cut.step P startTime endTime s ev)
     = Resolved (NewBlob (chunks s) "video/webm")))).
Proof.
  destruct (promise s) eqn:Ep.
  2, 3: left; cut_step_cases s ev; rewrite ?Ep; reflexivity.
  cut_step_cases s ev; rewrite ?Ep; simpl;
    first [ left; reflexivity
          | right; split; [reflexivity|]; left; eexists; reflexivity
          | right; split; [reflexivity|]; right; repeat split; reflexivity ].
Qed.

Lemma compress_step_chunks P s ev :
  chunks (Compress.step P s ev) =
  match recorder s with
  | Some _ => chunks s ++ filter nonEmpty (payloads [ev])
  | None => chunks s
  end.
Proof.
  compress_step_cases s ev; rewrite ?app_nil_r; reflexivity.
Qed.

Lemma compress_step_recorder P s ev :
  recorder s <> None -> recorder (Compress.step P s ev) <> None.
Proof.
  intros Hr. compress_step_cases s ev; congruence.
Qed.

Lemma compress_step_promise P s ev :
  promise (Compress.step P s ev) = promise s \/
  (promise s = Pending /\
   ((exists e, promise (Compress.step P s ev) = Rejected e) \/
    (ev = EvStop /\ stopQueued s = true /\
     promise (Compress.step P s ev)
     = Resolved (NewBlob (chunks s) "video/webm")))).
Proof.
  destruct (promise s) eqn:Ep.
  2, 3: left; compress_step_cases s ev; rewrite ?Ep; reflexivity.
  compress_step_cases s ev; rewrite ?Ep; simpl;
    first [ left; reflexivity
          | right; split; [reflexivity|]; left; eexists; reflexivity
          | right; split; [reflexivity|]; right; repeat split; reflexivity ].
Qed.

Lemma cut_init_facts (P : Platform) (file : File) (startTime : Q) :
  let s := Cut.cutVideo P file startTime in
  chunks s = [] /\ (forall b, promise s <> Resolved b) /\
  urlLive s = negb (existsb (fun e => match e with RevokeObjectURL => true | _ => false end) (trace s)) /\
  video s = true.
Proof.
  unfold Cut.cutVideo. destruct (readyAtCreation P) as [[w h]|].
  - unfold Cut.startProcessing. destruct (Cut.dimensions w h).
    destruct (context2d P); simpl;
      destruct (isTypeSupported P "video/webm;codecs=vp9"); simpl;
      try destruct (isTypeSupported P "video/webm"); simpl;
      repeat split; intros; discriminate.
  - simpl. repeat split. intros; discriminate.
Qed.

Lemma compress_init_facts (file : File) :
  Compress.THRESHOLD <= size file ->
  Compress.compressVideo file =
    blank |> emit CreateVideo |> setVideo true
          |> createObjectURL file |> setAwaitMetadata true.
Proof.
  intros Hsz. unfold Compress.compressVideo.
  change (20 * 1024 * 1024) with Compress.THRESHOLD.
  destruct (Z.ltb_spec (size file) Compress.THRESHOLD); [lia | reflexivity].
Qed.

Lemma cut_no_recorder_no_chunks P file startTime endTime evs :
  recorder (Cut.run P file startTime endTime evs) = None ->
  chunks (Cut.run P file startTime endTime evs) = [].
Proof.
  apply (no_recorder_no_chunks _ _ (cut_step_recorder P startTime endTime)).
  - intros s ev Hr. rewrite cut_step_chunks, Hr. reflexivity.
  - apply cut_init_facts.
Qed.

Lemma cut_chunks_grow P file startTime endTime pre post :
  recorder (Cut.run P file startTime endTime pre) <> None ->
  chunks (Cut.run P file startTime endTime (pre ++ post))
  = chunks (Cut.run P file startTime endTime pre) ++ filter nonEmpty (payloads post).
Proof.
  intros Hr. rewrite cut_run_app.
  apply (chunks_grow (Cut.step P startTime endTime)); [|apply cut_step_recorder|exact Hr].
  intros s ev Hs. rewrite cut_step_chunks. destruct (recorder s); congruence.
Qed.

Lemma cut_resolved_by_finalize P file startTime endTime evs b :
  promise (Cut.run P file startTime endTime evs) = Resolved b ->
  exists pre post,
    evs = pre ++ EvStop :: post /\
    b = NewBlob (chunks (Cut.run P file startTime endTime pre)) "video/webm".
Proof.
  apply (resolved_by_finalize (Cut.step P startTime endTime)).
  - intros s ev Hp.
    destruct (cut_step_promise P startTime endTime s ev) as [H|[H _]]; congruence.
  - intros s ev b' Hp Hb.
    destruct (cut_step_promise P startTime endTime s ev)
      as [H|[_ [[e H]|(H1 & _ & H2)]]]; try congruence.
    split; [exact H1 | congruence].
  - apply cut_init_facts.
Qed.

Lemma compress_no_recorder_no_chunks P file evs :
  Compress.THRESHOLD <= size file ->
  recorder (Compress.run P file evs) = None ->
  chunks (Compress.run P file evs) = [].
Proof.
  intros Hsz.
  apply (no_recorder_no_chunks _ _ (compress_step_recorder P)).
  - intros s ev Hr. rewrite compress_step_chunks, Hr. reflexivity.
  - rewrite compress_init_facts by exact Hsz. reflexivity.
Qed.

Lemma compress_chunks_grow P file pre post :
  recorder (Compress.run P file pre) <> None ->
  chunks (Compress.run P file (pre ++ post))
  = chunks (Compress.run P file pre) ++ filter nonEmpty (payloads post).
Proof.
  intros Hr. rewrite compress_run_app.
  apply (chunks_grow (Compress.step P)); [|apply compress_step_recorder|exact Hr].
  intros s ev Hs. rewrite compress_step_chunks. destruct (recorder s); congruence.
Qed.

Lemma compress_resolved_by_finalize P file evs b :
  Compress.THRESHOLD <= size file ->
  promise (Compress.run P file evs) = Resolved b ->
  exists pre post,
    evs = pre ++ EvStop :: post /\
    b = NewBlob (chunks (Compress.run P file pre)) "video/webm".
Proof.
  intros Hsz.
  apply (resolved_by_finalize (Compress.step P)).
  - intros s ev Hp.
    destruct (compress_step_promise P s ev) as [H|[H _]]; congruence.
  - intros s ev b' Hp Hb.
    destruct (compress_step_promise P s ev)
      as [H|[_ [[e H]|(H1 & _ & H2)]]]; try congruence.
    split; [exact H1 | congruence].
  - rewrite compress_init_facts by exact Hsz. intros b'. discriminate.
Qed.

(** The recorder's [stop] event, when it is owed and the promise is still
    pending: [onstop] revokes the object URL and resolves with the blob of
    the chunks gathered so far. *)
Lemma cut_stop_resolves P file startTime endTime evs :
  let cut := Cut.run P file startTime endTime in
  stopQueued (cut evs) = true -> promise (cut evs) = Pending ->
  let blob := NewBlob (chunks (cut evs)) "video/webm" in
  promise (cut (evs ++ [EvStop])) = Resolved blob /\
  trace (cut (evs ++ [EvStop]))
  = trace (cut evs) ++ [RevokeObjectURL; Resolve blob].
Proof.
  intros cut Hq Hp blob. unfold cut. rewrite cut_run_snoc. fold (cut evs).
  unfold Cut.step. rewrite Hq. unfold onstop, resolve, revokeObjectURL. simpl.
  rewrite Hp. simpl. rewrite <- app_assoc. split; reflexivity.
Qed.

Lemma compress_stop_resolves P file evs :
  let compress := Compress.run P file in
  stopQueued (compress evs) = true -> promise (compress evs) = Pending ->
  let blob := NewBlob (chunks (compress evs)) "video/webm" in
  promise (compress (evs ++ [EvStop])) = Resolved blob /\
  trace (compress (evs ++ [EvStop]))
  = trace (compress evs) ++ [RevokeObjectURL; Resolve blob].
Proof.
  intros compress Hq Hp blob. unfold compress. rewrite compress_run_snoc.
  fold (compress evs).
  unfold Compress.step. rewrite Hq. unfold onstop, resolve, revokeObjectURL. simpl.
  rewrite Hp. simpl. rewrite <- app_assoc. split; reflexivity.
Qed.

(** C9.  In a run of either function the chunk list is empty until the
    recorder exists; from then on it grows by exactly the non-empty chunks
    the recorder emits, in emission order, and nothing else touches it.
    When the recorder's [stop] event arrives, owed and with the promise
    pending, its handler revokes the object URL and resolves the promise
    with the blob made of the chunks accumulated at that moment, whose
    bytes are their concatenation; and the promise resolves in no other
    way.  (For [compressVideo]: in the runs that build a recorder, those
    of a file at or above the threshold.) *)
Theorem chunks_in_order_then_finalize
    (P : Platform) (file : File) (startTime endTime : Q) :
  let cut := Cut.run P file startTime endTime in
  let compress := Compress.run P file in
  ((forall evs, recorder (cut evs) = None -> chunks (cut evs) = []) /\
   (forall pre post, recorder (cut pre) <> None ->
      chunks (cut (pre ++ post))
      = chunks (cut pre) ++ filter nonEmpty (payloads post)) /\
   (forall evs, stopQueued (cut evs) = true -> promise (cut evs) = Pending ->
      let blob := NewBlob (chunks (cut evs)) "video/webm" in
      promise (cut (evs ++ [EvStop])) = Resolved blob /\
      trace (cut (evs ++ [EvStop]))
      = trace (cut evs) ++ [RevokeObjectURL; Resolve blob]) /\
   (forall evs b, promise (cut evs) = Resolved b ->
      exists pre post,
        evs = pre ++ EvStop :: post /\
        b = NewBlob (chunks (cut pre)) "video/webm")) /\
  (Compress.THRESHOLD <= size file ->
   (forall evs, recorder (compress evs) = None -> chunks (compress evs) = []) /\
   (forall pre post, recorder (compress pre) <> None ->
      chunks (compress (pre ++ post))
      = chunks (compress pre) ++ filter nonEmpty (payloads post)) /\
   (forall evs, stopQueued (compress evs) = true ->
      promise (compress evs) = Pending ->
      let blob := NewBlob (chunks (compress evs)) "video/webm" in
      promise (compress (evs ++ [EvStop])) = Resolved blob /\
      trace (compress (evs ++ [EvStop]))
      = trace (compress evs) ++ [RevokeObjectURL; Resolve blob]) /\
   (forall evs b, promise (compress evs) = Resolved b ->
      exists pre post,
        evs = pre ++ EvStop :: post /\
        b = NewBlob (chunks (compress pre)) "video/webm")).
Proof.
  intros cut compress. split; [|intros Hsz]; repeat split.
  - intros evs. apply cut_no_recorder_no_chunks.
  - intros pre post. apply cut_chunks_grow.
  - apply (cut_stop_resolves P file startTime endTime evs); assumption.
  - apply (cut_stop_resolves P file startTime endTime evs); assumption.
  - intros evs b. apply cut_resolved_by_finalize.
  - intros evs. apply compress_no_recorder_no_chunks, Hsz.
  - intros pre post. apply compress_chunks_grow.
  - apply (compress_stop_resolves P file evs); assumption.
  - apply (compress_stop_resolves P file evs); assumption.
  - intros evs b. apply compress_resolved_by_finalize, Hsz.
Qed.

Lemma chunks_in_order_then_finalize_witness :
  let P := mkPlatform (fun _ => true) true false None in
  let file := mkFile "match.mp4" 30000000 "video/mp4" in
  let tick t := mkObs false false t in
  let a := [Byte.x1a; Byte.x45] in
  let b := [Byte.xdf] in
  promise (Cut.run P file 2%Q 5%Q
             ([EvLoadedMetadata 1920 1080 10; EvTimeout; EvPlayResolved (tick 2%Q);
               EvData a; EvData []; EvFrame (tick 5%Q); EvData b] ++ [EvStop]))
  = Resolved (NewBlob [a; b] "video/webm") /\
  promise (Compress.run P file
             ([EvLoadedMetadata 1920 1080 10; EvPlayResolved (tick 0%Q);
               EvData a; EvEnded; EvTimeout; EvData []; EvData b] ++ [EvStop]))
  = Resolved (NewBlob [a; b] "video/webm").
Proof.
  intros P file tick a b.
  destruct (chunks_in_order_then_finalize P file 2%Q 5%Q)
    as ((_ & _ & Hcut & _) & Hcomp).
  split.
  - apply Hcut; reflexivity.
  - destruct Hcomp as (_ & _ & Hstop & _).
    + vm_compute. discriminate.
    + apply Hstop; reflexivity.
Defined.

(* ================================================================= *)
(** ** The size threshold *)

(** C10.  The fast path is taken exactly by the files of fewer than
    20 * 1024 * 1024 = 20971520 bytes: those resolve with the file itself.
    A file of 20971520 bytes or more starts the pipeline: the video element
    and the object URL are created, the promise is pending, and if it is
    resolved later, it is with a blob built by the recorder's [stop]
    handler, never with the file. *)
Theorem compress_threshold_is_20MiB (P : Platform) (file : File) :
  Compress.THRESHOLD = 20971520 /\
  (size file < 20971520 ->
     promise (Compress.compressVideo file) = Resolved (OfFile file) /\
     forall evs, promise (Compress.run P file evs) = Resolved (OfFile file)) /\
  (20971520 <= size file ->
     trace (Compress.compressVideo file) = [CreateVideo; CreateObjectURL file] /\
     promise (Compress.compressVideo file) = Pending /\
     awaitMetadata (Compress.compressVideo file) = true /\
     forall evs b, promise (Compress.run P file evs) = Resolved b ->
       exists parts, b = NewBlob parts "video/webm").
Proof.
  split; [reflexivity|]. split.
  - intros Hlt.
    assert (Hsz : size file < Compress.THRESHOLD) by exact Hlt.
    split.
    + rewrite (compress_fast_path_state file Hsz). reflexivity.
    + intros evs. rewrite (compress_fast_path_run P file evs Hsz). reflexivity.
  - intros Hge.
    assert (Hsz : Compress.THRESHOLD <= size file) by exact Hge.
    rewrite (compress_init_facts file Hsz). repeat split.
    intros evs b Hb.
    destruct (compress_resolved_by_finalize P file evs b Hsz Hb)
      as (pre & post & _ & ->).
    eexists. reflexivity.
Qed.

Lemma compress_threshold_is_20MiB_witness :
  let P := mkPlatform (fun _ => true) true false None in
  let below := mkFile "below.mp4" 20971519 "video/mp4" in
  let edge := mkFile "edge.mp4" 20971520 "video/mp4" in
  promise (Compress.compressVideo below) = Resolved (OfFile below) /\
  promise (Compress.compressVideo edge) = Pending.
Proof.
  intros P below edge.
  destruct (compress_threshold_is_20MiB P below) as (_ & Hbelow & _).
  destruct (compress_threshold_is_20MiB P edge) as (_ & _ & Hedge).
  split.
  - apply Hbelow. simpl. lia.
  - apply Hedge. simpl. lia.
Defined.

(* ================================================================= *)
(** ** The capture surface *)

Lemma TARGET_WIDTH_div (w h : Z) :
  0 < h -> Compress.TARGET_WIDTH w h = (720 * w + h) / (2 * h).
Proof.
  intros Hh. unfold Compress.TARGET_WIDTH, Compress.TARGET_HEIGHT.
  rewrite Math_round_ratio by exact Hh. reflexivity.
Qed.

Lemma dimensions_small (w h : Z) : h <= 720 -> Cut.dimensions w h = (w, h).
Proof.
  intros Hh. unfold Cut.dimensions, Cut.MAX_HEIGHT.
  destruct (Z.ltb_spec 720 h); [lia | reflexivity].
Qed.

Lemma dimensions_large (w h : Z) :
  720 < h -> Cut.dimensions w h = ((1440 * w + h) / (2 * h), 720).
Proof.
  intros Hh. unfold Cut.dimensions, Cut.MAX_HEIGHT.
  destruct (Z.ltb_spec 720 h); [|lia].
  rewrite Math_round_ratio by lia. reflexivity.
Qed.

Lemma capped_width_le (w h : Z) :
  0 <= w -> 720 < h -> (1440 * w + h) / (2 * h) <= w.
Proof.
  intros Hw Hbig.
  assert (Hp : 0 <= (h - 720) * w) by (apply Z.mul_nonneg_nonneg; lia).
  apply Z.lt_succ_r. apply Z.div_lt_upper_bound.
  - lia.
  - unfold Z.succ. nia.
Qed.

Lemma cut_step_surface P startTime endTime s ev :
  awaitMetadata s = false ->
  surface (Cut.step P startTime endTime s ev) = surface s /\
  awaitMetadata (Cut.step P startTime endTime s ev) = false.
Proof.
  intros Ha. cut_step_cases s ev; subst; split; (reflexivity || discriminate).
Qed.

Lemma compress_step_surface P s ev :
  awaitMetadata s = false ->
  surface (Compress.step P s ev) = surface s /\
  awaitMetadata (Compress.step P s ev) = false.
Proof.
  intros Ha. compress_step_cases s ev; subst; split; (reflexivity || discriminate).
Qed.

Lemma cut_surface_kept P startTime endTime more s :
  awaitMetadata s = false ->
  surface (fold_left (Cut.step P startTime endTime) more s) = surface s.
Proof.
  revert s. induction more as [|ev more IH]; intros s Ha; simpl; [reflexivity|].
  destruct (cut_step_surface P startTime endTime s ev Ha) as [Hs Ha'].
  rewrite IH by exact Ha'. exact Hs.
Qed.

Lemma compress_surface_kept P more s :
  awaitMetadata s = false ->
  surface (fold_left (Compress.step P) more s) = surface s.
Proof.
  revert s. induction more as [|ev more IH]; intros s Ha; simpl; [reflexivity|].
  destruct (compress_step_surface P s ev Ha) as [Hs Ha'].
  rewrite IH by exact Ha'. exact Hs.
Qed.

Lemma cut_metadata_surface P startTime endTime s w h d :
  awaitMetadata s = true ->
  surface (Cut.step P startTime endTime s (EvLoadedMetadata w h d))
  = Some (Cut.dimensions w h).
Proof.
  intros Ha. simpl. rewrite Ha.
  unfold Cut.onloadedmetadata, Cut.startProcessing.
  destruct (Cut.dimensions w h);
    destruct (context2d P); simpl;
    destruct (isTypeSupported P "video/webm;codecs=vp9"); simpl;
    try destruct (isTypeSupported P "video/webm"); reflexivity.
Qed.

Lemma compress_metadata_surface P s w h d :
  awaitMetadata s = true ->
  surface (Compress.step P s (EvLoadedMetadata w h d))
  = Some (Compress.TARGET_WIDTH w h, Compress.TARGET_HEIGHT).
Proof.
  intros Ha. simpl. rewrite Ha.
  unfold Compress.onloadedmetadata.
  destruct (context2d P); simpl;
    try destruct (isTypeSupported P "video/webm;codecs=vp8"); reflexivity.
Qed.

Lemma cut_dimensions_sized (w h : Z) :
  0 <= w -> 0 < h -> cutSized w h (Cut.dimensions w h).
Proof.
  intros Hw Hh. unfold cutSized. destruct (Z.leb_spec h 720) as [Hle|Hgt].
  - apply dimensions_small, Hle.
  - rewrite dimensions_large by exact Hgt. simpl.
    pose proof (@round_ratio_near 720 w h Hh) as Hn. simpl in Hn.
    replace (2 * 720 * w) with (1440 * w) in Hn by lia.
    destruct Hn as [Hn1 Hn2].
    split; [reflexivity|]. split; [|apply capped_width_le; assumption].
    unfold scaled. split; [apply Z.lt_le_incl; exact Hn1 | exact Hn2].
Qed.

Lemma compress_dimensions_sized (w h : Z) :
  0 < h -> compressSized w h (Compress.TARGET_WIDTH w h, Compress.TARGET_HEIGHT).
Proof.
  intros Hh. unfold compressSized. simpl. split; [reflexivity|].
  rewrite TARGET_WIDTH_div by exact Hh.
  pose proof (@round_ratio_near 360 w h Hh) as Hn. simpl in Hn.
  replace (2 * 360 * w) with (720 * w) in Hn by lia.
  destruct Hn as [Hn1 Hn2].
  unfold scaled. split; [apply Z.lt_le_incl; exact Hn1 | exact Hn2].
Qed.

(** C7.  The canvas is sized when the metadata arrives, from the intrinsic
    width and height of the source.  [compressVideo]: height 360, and the
    width that is [360 * w / h] to within half a pixel.  [cutVideo]: the
    source size itself when the height is at most 720; otherwise height
    720 and the width that is [720 * w / h] to within half a pixel, which
    is no wider than the source.  In either run a canvas is created at most
    once, and once the size is set no event changes it. *)
Theorem surface_dimensions_fixed
    (P : Platform) (file : File) (startTime endTime : Q) (w h : Z) :
  intrinsic w h ->
  let cut := Cut.run P file startTime endTime in
  let compress := Compress.run P file in
  (readyAtCreation P = Some (w, h) ->
   exists size, surface (cut []) = Some size /\ cutSized w h size) /\
  (forall evs d, awaitMetadata (cut evs) = true ->
     surface (cut evs) = None /\
     exists size,
       surface (cut (evs ++ [EvLoadedMetadata w h d])) = Some size /\
       cutSized w h size) /\
  (forall evs size more, surface (cut evs) = Some size ->
     surface (cut (evs ++ more)) = Some size) /\
  (forall evs, Each canvasOnce (trace (cut evs))) /\
  (Compress.THRESHOLD <= size file ->
   (forall evs d, awaitMetadata (compress evs) = true ->
      surface (compress evs) = None /\
      exists size,
        surface (compress (evs ++ [EvLoadedMetadata w h d])) = Some size /\
        compressSized w h size) /\
   (forall evs size more, surface (compress evs) = Some size ->
      surface (compress (evs ++ more)) = Some size) /\
   (forall evs, Each canvasOnce (trace (compress evs)))).
Proof.
  intros ((Hw & _) & (Hh & _)) cut compress.
  split; [|split; [|split; [|split]]].
  - intros Hready. exists (Cut.dimensions w h).
    split; [|apply cut_dimensions_sized; assumption].
    unfold cut, Cut.run, Cut.cutVideo. simpl. rewrite Hready.
    unfold Cut.startProcessing.
    destruct (Cut.dimensions w h);
      destruct (context2d P); simpl;
      destruct (isTypeSupported P "video/webm;codecs=vp9"); simpl;
      try destruct (isTypeSupported P "video/webm"); reflexivity.
  - intros evs d Ha. split.
    + apply (cutGood_facts _ (cutGood_run P file startTime endTime evs)), Ha.
    + exists (Cut.dimensions w h).
      split; [|apply cut_dimensions_sized; assumption].
      unfold cut. rewrite cut_run_snoc. apply cut_metadata_surface, Ha.
  - intros evs dims more Hs. unfold cut. rewrite cut_run_app.
    rewrite cut_surface_kept; [exact Hs|].
    apply (cutGood_facts _ (cutGood_run P file startTime endTime evs)).
    fold (cut evs). congruence.
  - intros evs. apply Each_weaken with (Q1 := cutEffectOK endTime);
      [|apply cut_effects_run].
    intros b e H. apply H.
  - intros Hsz. split; [|split].
    + intros evs d Ha. split.
      * apply (compressGood_facts _ (compressGood_run P file evs Hsz)), Ha.
      * exists (Compress.TARGET_WIDTH w h, Compress.TARGET_HEIGHT).
        split; [|apply compress_dimensions_sized; assumption].
        unfold compress. rewrite compress_run_snoc.
        apply compress_metadata_surface, Ha.
    + intros evs dims more Hs. unfold compress. rewrite compress_run_app.
      rewrite compress_surface_kept; [exact Hs|].
      apply (compressGood_facts _ (compressGood_run P file evs Hsz)).
      fold (compress evs). congruence.
    + intros evs. apply Each_weaken with (Q1 := compressEffectOK);
        [|apply compress_effects_run, Hsz].
      intros b e H. apply H.
Qed.

Lemma surface_dimensions_fixed_witness :
  let P := mkPlatform (fun _ => true) true false None in
  let file := mkFile "match.mp4" 30000000 "video/mp4" in
  exists size,
    surface (Cut.run P file 0%Q 1%Q ([] ++ [EvLoadedMetadata 3840 2160 10]))
    = Some size /\
    cutSized 3840 2160 size.
Proof.
  intros P file.
  assert (Hi : intrinsic 3840 2160) by (unfold intrinsic; change (2 ^ 32) with 4294967296; lia).
  destruct (surface_dimensions_fixed P file 0%Q 1%Q 3840 2160 Hi)
    as (_ & Hmeta & _).
  apply (Hmeta [] 10%Q). reflexivity.
Defined.

(* ================================================================= *)
(** ** The range given to [cutVideo] *)

Lemma cut_step_rejects P startTime endTime s ev e :
  promise s = Pending ->
  promise (Cut.step P startTime endTime s ev) = Rejected e ->
  raisedByCode e \/ ev = EvPlayRejected e.
Proof.
  intros Hp. unfold raisedByCode.
  cut_step_cases s ev; subst; simpl; intros H; try discriminate H;
    injection H as <-; auto.
Qed.

Lemma cut_init_rejects P file startTime e :
  promise (Cut.cutVideo P file startTime) = Rejected e -> raisedByCode e.
Proof.
  unfold Cut.cutVideo, raisedByCode.
  destruct (readyAtCreation P) as [[w h]|]; [|discriminate].
  unfold Cut.startProcessing. destruct (Cut.dimensions w h).
  destruct (context2d P); simpl;
    destruct (isTypeSupported P "video/webm;codecs=vp9"); simpl;
    try destruct (isTypeSupported P "video/webm"); simpl;
    intros H; try discriminate H; injection H as <-; auto.
Qed.

Lemma cut_rejections P file startTime endTime evs e :
  promise (Cut.run P file startTime endTime evs) = Rejected e ->
  raisedByCode e \/ In (EvPlayRejected e) evs.
Proof.
  induction evs as [|ev evs IH] using rev_ind; intros Hp.
  - left. exact (cut_init_rejects P file startTime e Hp).
  - rewrite cut_run_snoc in Hp.
    destruct (cut_step_promise P startTime endTime
                (Cut.run P file startTime endTime evs) ev)
      as [Hsame | (Hpend & _)].
    + rewrite Hsame in Hp. destruct (IH Hp) as [H|H]; [left; exact H|].
      right. apply in_or_app. left. exact H.
    + destruct (cut_step_rejects P startTime endTime _ ev e Hpend Hp) as [H|H].
      * left; exact H.
      * right. apply in_or_app. right. left. exact H.
Qed.

Lemma inverted_range_finishes (startTime endTime : Q) (o : Obs) :
  (endTime <= startTime)%Q -> (startTime <= currentTime o)%Q ->
  Cut.finished endTime o = true.
Proof.
  intros H1 H2. unfold Cut.finished.
  assert (H : Qle_bool endTime (currentTime o) = true).
  { apply Qle_bool_iff. eapply Qle_trans; eassumption. }
  rewrite H. now rewrite orb_true_r.
Qed.

(* ================================================================= *)
(** ** Refused playback *)

(** C4, evaluated on the code.  When [play()] is refused after the recorder
    has been started, either function rejects the promise with the error it
    was handed, and does nothing else: the object URL created for the file
    is still live and the recorder is still recording.  (The other exits,
    [onerror], the missing 2d context and [onstop], all revoke the URL.) *)
Theorem autoplay_refusal_keeps_url_and_recorder
    (P : Platform) (file : File) (startTime endTime : Q)
    (w h : Z) (d : Q) (e : JsError) :
  context2d P = true ->
  isTypeSupported P "video/webm;codecs=vp8" = true ->
  isTypeSupported P "video/webm" = true ->
  readyAtCreation P = None ->
  Compress.THRESHOLD <= size file ->
  let compress :=
    Compress.run P file [EvLoadedMetadata w h d; EvPlayRejected e] in
  let cut :=
    Cut.run P file startTime endTime
      [EvLoadedMetadata w h d; EvTimeout; EvPlayRejected e] in
  (promise compress = Rejected e /\ urlLive compress = true /\
   recorder compress = Some Recording /\
   ~ In RevokeObjectURL (trace compress) /\ ~ In RecorderStop (trace compress)) /\
  (promise cut = Rejected e /\ urlLive cut = true /\
   recorder cut = Some Recording /\
   ~ In RevokeObjectURL (trace cut) /\ ~ In RecorderStop (trace cut)).
Proof.
  intros Hctx Hvp8 Hwebm Hready Hsz compress cut. split.
  - unfold compress, Compress.run. rewrite (compress_init_facts file Hsz).
    simpl. unfold Compress.onloadedmetadata. rewrite Hctx, Hvp8. simpl.
    repeat split; intros H; repeat (destruct H as [H|H]; [discriminate H|]);
      exact H.
  - unfold cut, Cut.run, Cut.cutVideo. rewrite Hready. simpl.
    unfold Cut.onloadedmetadata, Cut.startProcessing.
    destruct (Cut.dimensions w h). rewrite Hctx, Hwebm. simpl.
    destruct (isTypeSupported P "video/webm;codecs=vp9"); simpl;
      repeat split; intros H;
      repeat (destruct H as [H|H]; [discriminate H|]); exact H.
Qed.

Lemma autoplay_refusal_keeps_url_and_recorder_witness :
  let P := mkPlatform (fun _ => true) true false None in
  let file := mkFile "match.mp4" 30000000 "video/mp4" in
  let e := DOMException "NotAllowedError" in
  urlLive (Compress.run P file [EvLoadedMetadata 1920 1080 10; EvPlayRejected e])
  = true /\
  recorder (Cut.run P file 2%Q 5%Q
              [EvLoadedMetadata 1920 1080 10; EvTimeout; EvPlayRejected e])
  = Some Recording.
Proof.
  intros P file e.
  destruct (@autoplay_refusal_keeps_url_and_recorder P file 2%Q 5%Q 1920 1080 10%Q e)
    as ((_ & Hurl & _) & (_ & _ & Hrec & _));
    try reflexivity.
  - vm_compute. discriminate.
  - split; [exact Hurl | exact Hrec].
Defined.

(* ================================================================= *)
(** ** Building the recorder *)

Lemma recorderAttempts_app (l l' : list Effect) :
  recorderAttempts (l ++ l') = recorderAttempts l ++ recorderAttempts l'.
Proof.
  induction l as [|x l IH]; simpl; [reflexivity|].
  destruct x; simpl; rewrite IH; reflexivity.
Qed.

Lemma cut_step_attempts P startTime endTime s ev :
  recorderAttempts (trace (Cut.step P startTime endTime s ev))
  = recorderAttempts (trace s) ++
    match ev with
    | EvLoadedMetadata _ _ _ =>
        if awaitMetadata s && context2d P then cutPreferences P else []
    | _ => []
    end.
Proof.
  unfold cutPreferences.
  cut_step_cases s ev; rewrite ?recorderAttempts_app; simpl;
    rewrite ?app_nil_r, <- ?app_assoc; reflexivity.
Qed.

Lemma compress_step_attempts P s ev :
  recorderAttempts (trace (Compress.step P s ev))
  = recorderAttempts (trace s) ++
    match ev with
    | EvLoadedMetadata _ _ _ =>
        if awaitMetadata s && context2d P then compressPreferences P else []
    | _ => []
    end.
Proof.
  unfold compressPreferences.
  compress_step_cases s ev; rewrite ?recorderAttempts_app; simpl;
    rewrite ?app_nil_r, <- ?app_assoc; reflexivity.
Qed.

Lemma cut_attempts P file startTime endTime evs :
  let s := Cut.run P file startTime endTime evs in
  (awaitMetadata s = true -> recorderAttempts (trace s) = []) /\
  (recorderAttempts (trace s) = [] \/ recorderAttempts (trace s) = cutPreferences P).
Proof.
  induction evs as [|ev evs IH] using rev_ind.
  - unfold Cut.run, Cut.cutVideo, cutPreferences. simpl.
    destruct (readyAtCreation P) as [[w h]|]; [|split; auto].
    unfold Cut.startProcessing. destruct (Cut.dimensions w h).
    destruct (context2d P); simpl;
      destruct (isTypeSupported P "video/webm;codecs=vp9"); simpl;
      try destruct (isTypeSupported P "video/webm"); simpl;
      split; auto; discriminate.
  - simpl in *. rewrite cut_run_snoc.
    set (s := Cut.run P file startTime endTime evs) in *.
    destruct IH as [IHa IHb].
    destruct (awaitMetadata s) eqn:Ea.
    + rewrite cut_step_attempts, (IHa eq_refl), Ea. simpl. split.
      * destruct ev; try (intros; reflexivity).
        simpl. rewrite Ea. unfold Cut.onloadedmetadata.
        destruct (Cut.startProcessing P startTime videoWidth videoHeight
                    (setAwaitMetadata false s)) as [s' [e|]] eqn:Es;
          pose proof (f_equal (fun x => awaitMetadata (fst x)) Es) as Hx;
          revert Hx; unfold Cut.startProcessing;
          destruct (Cut.dimensions videoWidth videoHeight);
          destruct (context2d P); simpl;
          destruct (isTypeSupported P "video/webm;codecs=vp9"); simpl;
          try destruct (isTypeSupported P "video/webm"); simpl;
          intros <-; discriminate.
      * destruct ev; auto. destruct (context2d P); auto.
    + destruct (cut_step_surface P startTime endTime s ev Ea) as [_ Ha'].
      rewrite cut_step_attempts, Ea. simpl.
      replace (match ev with EvLoadedMetadata _ _ _ => [] | _ => [] end)
        with (@nil (string * bool)) by (destruct ev; reflexivity).
      rewrite app_nil_r. split; [congruence | exact IHb].
Qed.

Lemma compress_attempts P file evs :
  Compress.THRESHOLD <= size file ->
  let s := Compress.run P file evs in
  (awaitMetadata s = true -> recorderAttempts (trace s) = []) /\
  (recorderAttempts (trace s) = [] \/
   recorderAttempts (trace s) = compressPreferences P).
Proof.
  intros Hsz.
  induction evs as [|ev evs IH] using rev_ind.
  - unfold Compress.run. simpl. rewrite (compress_init_facts file Hsz).
    simpl. split; auto.
  - simpl in *. rewrite compress_run_snoc.
    set (s := Compress.run P file evs) in *.
    destruct IH as [IHa IHb].
    destruct (awaitMetadata s) eqn:Ea.
    + rewrite compress_step_attempts, (IHa eq_refl), Ea. simpl. split.
      * destruct ev; try (intros; reflexivity).
        simpl. rewrite Ea. unfold Compress.onloadedmetadata.
        destruct (context2d P); simpl;
          try destruct (isTypeSupported P "video/webm;codecs=vp8"); simpl;
          discriminate.
      * destruct ev; auto. destruct (context2d P); auto.
    + destruct (compress_step_surface P s ev Ea) as [_ Ha'].
      rewrite compress_step_attempts, Ea. simpl.
      replace (match ev with EvLoadedMetadata _ _ _ => [] | _ => [] end)
        with (@nil (string * bool)) by (destruct ev; reflexivity).
      rewrite app_nil_r. split; [congruence | exact IHb].
Qed.

Lemma cut_data_run P startTime endTime (cs : list Chunk) (s : State) :
  recorder s <> None ->
  fold_left (Cut.step P startTime endTime) (map EvData cs) s
  = setChunks (chunks s ++ filter nonEmpty cs) s.
Proof.
  revert s. induction cs as [|c cs IH]; intros s Hr; simpl.
  - rewrite app_nil_r. destruct s; reflexivity.
  - destruct (recorder s) eqn:Er; [|congruence].
    unfold ondataavailable. destruct (nonEmpty c).
    + rewrite IH by (simpl; congruence). simpl.
      unfold setChunks; simpl. rewrite <- app_assoc. reflexivity.
    + apply IH. congruence.
Qed.

(** A finishing tick that finds the recorder recording and the promise
    pending, whatever the recorder still emits, and then its [stop] event:
    the promise resolves with the chunks gathered before the tick and the
    non-empty ones emitted after it. *)
Lemma cut_finish_resolves P file startTime endTime evs o (viaPlay : bool) cs :
  let cut := Cut.run P file startTime endTime in
  let tick := if viaPlay then EvPlayResolved o else EvFrame o in
  Cut.finished endTime o = true ->
  (if viaPlay then playPending (cut evs) else rafPending (cut evs)) = true ->
  recorder (cut evs) = Some Recording -> promise (cut evs) = Pending ->
  promise (cut (evs ++ [tick] ++ map EvData cs ++ [EvStop]))
  = Resolved (NewBlob (chunks (cut evs) ++ filter nonEmpty cs) "video/webm").
Proof.
  intros cut tick Hfin Hdue Hrec Hp. unfold cut.
  rewrite cut_run_app. fold (cut evs). rewrite fold_left_app. simpl fold_left at 2.
  set (s1 := Cut.step P startTime endTime (cut evs) tick).
  assert (H1 : recorder s1 = Some Inactive /\ stopQueued s1 = true /\
               promise s1 = Pending /\ chunks s1 = chunks (cut evs)).
  { unfold s1, tick, Cut.step.
    destruct viaPlay; rewrite Hdue; unfold Cut.drawFrame;
      rewrite Hfin; simpl; rewrite Hrec; repeat split; exact Hp. }
  destruct H1 as (Hr1 & Hq1 & Hp1 & Hc1).
  rewrite fold_left_app. rewrite cut_data_run by congruence.
  simpl fold_left. unfold Cut.step. simpl. rewrite Hq1.
  unfold onstop, resolve, revokeObjectURL. simpl. rewrite Hp1, Hc1. reflexivity.
Qed.

(** What a run of [cutVideo] on a platform that constructs the container
    default has done when the first tick is due: the recorder records, the
    promise is pending, nothing has been gathered and nothing sampled. *)
Lemma cut_first_tick_due P file startTime endTime w h d :
  context2d P = true -> isTypeSupported P "video/webm" = true ->
  readyAtCreation P = None ->
  let s := Cut.run P file startTime endTime [EvLoadedMetadata w h d; EvTimeout] in
  playPending s = true /\ recorder s = Some Recording /\ promise s = Pending /\
  chunks s = [] /\ drawn (trace s) = false.
Proof.
  intros Hctx Hwebm Hready. unfold Cut.run, Cut.cutVideo. rewrite Hready.
  simpl fold_left. unfold Cut.step. simpl.
  unfold Cut.onloadedmetadata, Cut.startProcessing.
  destruct (Cut.dimensions w h). rewrite Hctx, Hwebm. simpl.
  destruct (isTypeSupported P "video/webm;codecs=vp9"); simpl; repeat split.
Qed.

Lemma besidesAttempts_snoc (l : list Effect) (e : Effect) :
  besidesAttempts (l ++ [e])
  = besidesAttempts l ++ if isAttempt e then [] else [e].
Proof.
  unfold besidesAttempts. rewrite filter_app. simpl.
  destruct (isAttempt e); reflexivity.
Qed.

Ltac same_run :=
  unfold sameRun; simpl; rewrite ?besidesAttempts_snoc; simpl;
  rewrite ?app_nil_r;
  repeat match goal with
         | H : besidesAttempts _ = besidesAttempts _ |- _ => rewrite H; clear H
         end;
  repeat split; reflexivity.

Lemma sameRun_startProcessing (P : Platform) (startTime : Q) (w h : Z) (s1 s2 : State) :
  isTypeSupported P "video/webm;codecs=vp9" = false ->
  isTypeSupported P "video/webm" = true ->
  sameRun s1 s2 ->
  sameRun (fst (Cut.startProcessing P startTime w h s1))
          (fst (Cut.startProcessing (withVP9 P) startTime w h s2)) /\
  snd (Cut.startProcessing P startTime w h s1) = None /\
  snd (Cut.startProcessing (withVP9 P) startTime w h s2) = None.
Proof.
  intros Hvp9 Hwebm.
  destruct s1 as [tr1 pr vi ul am su re sq ch ti pp rp oe du].
  destruct s2 as [tr2 pr2 vi2 ul2 am2 su2 re2 sq2 ch2 ti2 pp2 rp2 oe2 du2].
  unfold sameRun. simpl.
  intros (Ht & <- & <- & <- & <- & <- & <- & <- & <- & <- & <- & <- & <- & <-).
  unfold Cut.startProcessing. destruct (Cut.dimensions w h) as [width height].
  simpl. rewrite Hvp9, Hwebm.
  destruct (context2d P); simpl; (split; [same_run | split; reflexivity]).
Qed.

Lemma sameRun_step (P : Platform) (startTime endTime : Q) (s1 s2 : State) (ev : Event) :
  isTypeSupported P "video/webm;codecs=vp9" = false ->
  isTypeSupported P "video/webm" = true ->
  sameRun s1 s2 ->
  sameRun (Cut.step P startTime endTime s1 ev)
          (Cut.step (withVP9 P) startTime endTime s2 ev).
Proof.
  intros Hvp9 Hwebm Hs.
  destruct ev as [| w h d | | o | | | o | e | o | | c | |].
  2: { (* loadedmetadata *)
    unfold Cut.step.
    assert (Ha : awaitMetadata s1 = awaitMetadata s2) by apply Hs.
    rewrite <- Ha. destruct (awaitMetadata s1); [|exact Hs].
    unfold Cut.onloadedmetadata.
    assert (Hs' : sameRun (setAwaitMetadata false s1) (setAwaitMetadata false s2)).
    { destruct s1, s2. unfold sameRun in *. simpl in *. tauto. }
    destruct (sameRun_startProcessing P startTime w h _ _ Hvp9 Hwebm Hs')
      as (H & H1 & H2).
    destruct (Cut.startProcessing P startTime w h (setAwaitMetadata false s1))
      as [t1 e1].
    destruct (Cut.startProcessing (withVP9 P) startTime w h (setAwaitMetadata false s2))
      as [t2 e2].
    simpl in *. subst e1 e2. exact H. }
  all: destruct s1 as [tr1 pr vi ul am su re sq ch ti pp rp oe du];
    destruct s2 as [tr2 pr2 vi2 ul2 am2 su2 re2 sq2 ch2 ti2 pp2 rp2 oe2 du2];
    unfold sameRun in Hs; simpl in Hs;
    destruct Hs as (Ht & <- & <- & <- & <- & <- & <- & <- & <- & <- & <- & <- & <- & <-);
    unfold Cut.step; simpl;
    unfold Cut.drawFrame, recorderFails, ondataavailable; simpl;
    repeat match goal with
      | |- context [if ?b then _ else _] => destruct b eqn:?; simpl
      | |- context [match ?x with _ => _ end] => is_var x; destruct x; simpl
      end;
    same_run.
Qed.

Lemma sameRun_run (P : Platform) (file : File) (startTime endTime : Q)
    (evs : list Event) :
  isTypeSupported P "video/webm;codecs=vp9" = false ->
  isTypeSupported P "video/webm" = true ->
  sameRun (Cut.run P file startTime endTime evs)
          (Cut.run (withVP9 P) file startTime endTime evs).
Proof.
  intros Hvp9 Hwebm. induction evs as [|ev evs IH] using rev_ind.
  - unfold Cut.run, Cut.cutVideo. simpl fold_left. simpl readyAtCreation.
    destruct (readyAtCreation P) as [[w h]|].
    + set (s0 := emit (Seek startTime) _).
      destruct (sameRun_startProcessing P startTime w h s0 s0 Hvp9 Hwebm)
        as (H & H1 & H2).
      { repeat split. }
      destruct (Cut.startProcessing P startTime w h s0) as [t1 e1].
      destruct (Cut.startProcessing (withVP9 P) startTime w h s0) as [t2 e2].
      simpl in *. subst e1 e2. exact H.
    + repeat split.
  - rewrite !cut_run_snoc. apply sameRun_step; assumption.
Qed.

(** A first tick that does not finish: a frame is sampled and the next
    tick scheduled, with the recorder recording and the promise pending. *)
Lemma cut_first_tick_samples P file startTime endTime w h d o :
  context2d P = true -> isTypeSupported P "video/webm" = true ->
  readyAtCreation P = None ->
  Cut.finished endTime o = false ->
  let s := Cut.run P file startTime endTime
             [EvLoadedMetadata w h d; EvTimeout; EvPlayResolved o] in
  rafPending s = true /\ recorder s = Some Recording /\ promise s = Pending /\
  chunks s = [] /\ drawn (trace s) = true.
Proof.
  intros Hctx Hwebm Hready Hfin s.
  destruct (cut_first_tick_due P file startTime endTime w h d Hctx Hwebm Hready)
    as (Hdue & Hrec & Hp & Hch & _).
  unfold s.
  change [EvLoadedMetadata w h d; EvTimeout; EvPlayResolved o]
    with ([EvLoadedMetadata w h d; EvTimeout] ++ [EvPlayResolved o]).
  rewrite cut_run_snoc.
  set (s2 := Cut.run P file startTime endTime [EvLoadedMetadata w h d; EvTimeout]) in *.
  unfold Cut.step. rewrite Hdue. unfold Cut.drawFrame. rewrite Hfin.
  destruct (surface (setPlayPending false s2)) as [[? ?]|]; simpl;
    unfold drawn; rewrite !existsb_app; simpl;
    rewrite orb_true_r; repeat split; assumption.
Qed.

(** C5, as the code has it.  [cutVideo] tries VP9 and, when that
    construction throws, the container default; whichever it tried, it
    tried in that order and only once.  When VP9 fails and the default
    constructs, nothing is rejected and nothing escapes the handler: from
    then on the run differs from the run with a VP9 recorder in nothing
    but the record of the attempts, whatever the events; a finishing tick
    that finds the recorder recording stops it, and the recorder's [stop]
    event resolves the pending promise with the non-empty chunks emitted
    until then, in a run that has sampled frames as in one that has not.
    [compressVideo] makes one attempt, VP8, and has no second
    preference. *)
Theorem recorder_construction_preferences
    (P : Platform) (file : File) (startTime endTime : Q) :
  let cut := Cut.run P file startTime endTime in
  (forall evs,
     recorderAttempts (trace (cut evs)) = [] \/
     recorderAttempts (trace (cut evs)) = cutPreferences P) /\
  (isTypeSupported P "video/webm;codecs=vp9" = false ->
   isTypeSupported P "video/webm" = true ->
   (forall evs, sameRun (cut evs) (Cut.run (withVP9 P) file startTime endTime evs)) /\
   (forall evs o (viaPlay : bool) cs,
      let tick := if viaPlay then EvPlayResolved o else EvFrame o in
      Cut.finished endTime o = true ->
      (if viaPlay then playPending (cut evs) else rafPending (cut evs)) = true ->
      recorder (cut evs) = Some Recording -> promise (cut evs) = Pending ->
      promise (cut (evs ++ [tick] ++ map EvData cs ++ [EvStop]))
      = Resolved (NewBlob (chunks (cut evs) ++ filter nonEmpty cs) "video/webm")) /\
   (context2d P = true -> readyAtCreation P = None ->
    forall w h d,
      let start := [EvLoadedMetadata w h d] in
      (recorder (cut start) = Some Inactive /\ promise (cut start) = Pending /\
       timers (cut start) = 1%nat /\
       recorderAttempts (trace (cut start))
       = [("video/webm;codecs=vp9", false); ("video/webm", true)]) /\
      (forall o cs,
         Cut.finished endTime o = true ->
         promise (cut ([EvLoadedMetadata w h d; EvTimeout; EvPlayResolved o]
                       ++ map EvData cs ++ [EvStop]))
         = Resolved (NewBlob (filter nonEmpty cs) "video/webm")) /\
      (forall o cs o' cs',
         Cut.finished endTime o = false -> Cut.finished endTime o' = true ->
         drawn (trace (cut [EvLoadedMetadata w h d; EvTimeout; EvPlayResolved o]))
         = true /\
         promise (cut (([EvLoadedMetadata w h d; EvTimeout; EvPlayResolved o]
                        ++ map EvData cs)
                       ++ [EvFrame o'] ++ map EvData cs' ++ [EvStop]))
         = Resolved (NewBlob (filter nonEmpty cs ++ filter nonEmpty cs')
                       "video/webm")))) /\
  (Compress.THRESHOLD <= size file ->
   forall evs,
     let s := Compress.run P file evs in
     recorderAttempts (trace s) = [] \/
     recorderAttempts (trace s) = compressPreferences P).
Proof.
  intros cut. split; [|split].
  - intros evs. apply cut_attempts.
  - intros Hvp9 Hwebm. split; [|split].
    + intros evs. apply sameRun_run; assumption.
    + intros evs o viaPlay cs tick Hfin Hdue Hrec Hp.
      apply (cut_finish_resolves P file startTime endTime evs o viaPlay cs);
        assumption.
    + intros Hctx Hready w h d start. split; [|split].
      * unfold start, cut, Cut.run, Cut.cutVideo. rewrite Hready. simpl fold_left.
        unfold Cut.step. simpl.
        unfold Cut.onloadedmetadata, Cut.startProcessing.
        destruct (Cut.dimensions w h). rewrite Hctx, Hvp9, Hwebm. simpl.
        repeat split.
      * intros o cs Hfin.
        destruct (cut_first_tick_due P file startTime endTime w h d Hctx Hwebm Hready)
          as (Hdue & Hrec & Hp & Hch & _).
        pose proof (cut_finish_resolves P file startTime endTime
                      [EvLoadedMetadata w h d; EvTimeout] o true cs
                      Hfin Hdue Hrec Hp) as H.
        rewrite Hch in H. exact H.
      * intros o cs o' cs' Hfin Hfin'.
        destruct (cut_first_tick_samples P file startTime endTime w h d o
                    Hctx Hwebm Hready Hfin) as (Hdue & Hrec & Hp & Hch & Hdr).
        split; [exact Hdr|].
        set (pre := [EvLoadedMetadata w h d; EvTimeout; EvPlayResolved o]) in *.
        assert (Hs : Cut.run P file startTime endTime (pre ++ map EvData cs)
                     = setChunks (filter nonEmpty cs)
                         (Cut.run P file startTime endTime pre)).
        { rewrite cut_run_app, cut_data_run by congruence.
          rewrite Hch. reflexivity. }
        unfold cut.
        rewrite (cut_finish_resolves P file startTime endTime
                   (pre ++ map EvData cs) o' false cs' Hfin');
          rewrite Hs; simpl; try assumption.
        reflexivity.
  - intros Hsz evs. apply compress_attempts, Hsz.
Qed.

Lemma recorder_construction_preferences_witness :
  let P := mkPlatform (String.eqb "video/webm") true false None in
  let file := mkFile "match.mp4" 30000000 "video/mp4" in
  promise (Cut.run P file 2%Q 5%Q
             (([EvLoadedMetadata 1920 1080 10; EvTimeout;
                EvPlayResolved (mkObs false false 2%Q)]
               ++ map EvData [[Byte.x1a]; []])
              ++ [EvFrame (mkObs false false 5%Q)]
              ++ map EvData [[Byte.x45]] ++ [EvStop]))
  = Resolved (NewBlob ([[Byte.x1a]] ++ [[Byte.x45]]) "video/webm") /\
  (recorderAttempts (trace (Compress.run P file [EvLoadedMetadata 1920 1080 10])) = [] \/
   recorderAttempts (trace (Compress.run P file [EvLoadedMetadata 1920 1080 10]))
   = [("video/webm;codecs=vp8", false)]).
Proof.
  intros P file.
  destruct (recorder_construction_preferences P file 2%Q 5%Q) as (_ & Hcut & Hcomp).
  split.
  - destruct (Hcut eq_refl eq_refl) as (_ & _ & Hrun).
    destruct (Hrun eq_refl eq_refl 1920 1080 10%Q) as (_ & _ & Hord).
    apply (Hord (mkObs false false 2%Q) [[Byte.x1a]; []]
             (mkObs false false 5%Q) [[Byte.x45]]); reflexivity.
  - apply Hcomp. vm_compute. discriminate.
Defined.

(** C5, as stated, fails.  On a platform that constructs only the
    container default, [compressVideo] tries VP8, the exception leaves the
    handler, and the promise stays pending whatever follows: there is no
    second attempt and no rejection.  On a platform that constructs
    nothing, [cutVideo] tries both, and the promise stays pending as
    well. *)
Lemma recorder_construction_failure_hangs :
  let file := mkFile "match.mp4" 30000000 "video/mp4" in
  let defaultOnly := mkPlatform (String.eqb "video/webm") true false None in
  let nothing := mkPlatform (fun _ => false) true false None in
  let compress := Compress.run defaultOnly file
    [EvLoadedMetadata 1920 1080 10; EvPlayResolved (mkObs false false 0%Q);
     EvEnded; EvTimeout; EvStop] in
  let cut := Cut.run nothing file 2%Q 5%Q
    [EvLoadedMetadata 1920 1080 10; EvTimeout;
     EvPlayResolved (mkObs false false 2%Q); EvStop] in
  recorderAttempts (trace compress) = [("video/webm;codecs=vp8", false)] /\
  recorder compress = None /\ promise compress = Pending /\
  trace compress
  = [CreateVideo; CreateObjectURL file; CreateCanvas 640 360; CaptureStream 15;
     NewMediaRecorder "video/webm;codecs=vp8" 600000 false;
     Uncaught NotSupportedError] /\
  recorderAttempts (trace cut)
  = [("video/webm;codecs=vp9", false); ("video/webm", false)] /\
  recorder cut = None /\ promise cut = Pending /\ urlLive cut = true.
Proof. vm_compute. repeat split. Qed.

(* ================================================================= *)
(** ** The sampling loop *)

Lemma cutGood_loop (s : State) :
  cutGood s = true ->
  rafPending s = true \/ playPending s = true ->
  timers s = O /\ awaitMetadata s = false /\
  (rafPending s = true -> playPending s = false).
Proof.
  destruct s as [tr pr vi ul am su re sq ch ti pp rp oe du].
  unfold cutGood; simpl. intros H Hd.
  destruct oe; [discriminate H|]. simpl in H.
  destruct pp, rp; simpl in H; try discriminate H;
    try (destruct Hd; discriminate);
  destruct am; simpl in H;
  destruct (existsb isCanvas tr); simpl in H; try discriminate H;
  destruct su as [[? ?]|]; simpl in H; try discriminate H;
  destruct re as [[| |]|]; simpl in H; try discriminate H;
  destruct sq; simpl in H; try discriminate H;
  destruct (stopCalled tr); simpl in H; try discriminate H;
  destruct (resolveCalled tr); simpl in H; try discriminate H;
  destruct ti as [|[|?]]; simpl in H; try discriminate H;
  repeat split; intros; try discriminate; reflexivity.
Qed.

Lemma compressGood_loop (s : State) :
  compressGood s = true ->
  rafPending s = true \/ playPending s = true ->
  awaitMetadata s = false /\ (rafPending s = true -> playPending s = false).
Proof.
  destruct s as [tr pr vi ul am su re sq ch ti pp rp oe du].
  unfold compressGood; simpl. intros H Hd.
  destruct pp, rp; simpl in H; try discriminate H;
    try (destruct Hd; discriminate);
  destruct am; simpl in H;
  destruct (existsb isCanvas tr); simpl in H; try discriminate H;
  destruct su as [[? ?]|]; simpl in H; try discriminate H;
  destruct re as [[| |]|]; simpl in H; try discriminate H;
  destruct sq; simpl in H; try discriminate H;
  destruct (stopCalled tr); simpl in H; try discriminate H;
  destruct (resolveCalled tr); simpl in H; try discriminate H;
  repeat split; intros; try discriminate; reflexivity.
Qed.

Lemma loopOver_step P startTime endTime s ev :
  loopOver s -> loopOver (Cut.step P startTime endTime s ev).
Proof.
  unfold loopOver. intros (Hr & Hp & Ht & Ha).
  destruct s as [tr pr vi ul am su re sq ch ti pp rp oe du]; simpl in *; subst.
  destruct ev; simpl; unfold recorderFails, ondataavailable; simpl;
    repeat match goal with
    | |- context [if ?b then _ else _] => destruct b; simpl
    | r : option RecordingState |- _ => destruct r as [[| |]|]; simpl
    end; repeat split.
Qed.

Lemma samplingOver_step P s ev :
  samplingOver s -> samplingOver (Compress.step P s ev).
Proof.
  unfold samplingOver. intros (Hr & Hp & Ha).
  destruct s as [tr pr vi ul am su re sq ch ti pp rp oe du]; simpl in *; subst.
  destruct ti as [|ti];
  destruct ev; simpl; unfold recorderFails, ondataavailable, Compress.stopAndReport;
    simpl;
    repeat match goal with
    | |- context [if ?b then _ else _] => destruct b; simpl
    | r : option RecordingState |- _ => destruct r as [[| |]|]; simpl
    end; repeat split.
Qed.

Lemma loopOver_fold P startTime endTime more s :
  loopOver s -> loopOver (fold_left (Cut.step P startTime endTime) more s).
Proof.
  revert s. induction more as [|ev more IH]; intros s Hs; simpl; [exact Hs|].
  apply IH, loopOver_step, Hs.
Qed.

Lemma samplingOver_fold P more s :
  samplingOver s -> samplingOver (fold_left (Compress.step P) more s).
Proof.
  revert s. induction more as [|ev more IH]; intros s Hs; simpl; [exact Hs|].
  apply IH, samplingOver_step, Hs.
Qed.

Lemma reachedEnd_finished (endTime : Q) (o : Obs) :
  reachedEnd endTime o -> Cut.finished endTime o = true.
Proof.
  unfold reachedEnd, Cut.finished. intros [H|[H|H]].
  - rewrite H. reflexivity.
  - rewrite H. now rewrite orb_true_r.
  - apply Qle_bool_iff in H. rewrite H. now rewrite orb_true_r.
Qed.

(** What a finishing call of [drawFrame] in [cutVideo] does. *)
Lemma cut_drawFrame_finished startTime endTime (o : Obs) (s : State) :
  Cut.finished endTime o = true ->
  let s' := Cut.drawFrame startTime endTime o s in
  trace s' = trace s ++
    match recorder s with
    | Some Recording => [RecorderStop; Progress 100]
    | _ => []
    end ++ [Pause] /\
  recorder s' <> Some Recording /\
  rafPending s' = rafPending s /\ playPending s' = playPending s /\
  timers s' = timers s /\ awaitMetadata s' = awaitMetadata s.
Proof.
  intros Hf. unfold Cut.drawFrame. rewrite Hf.
  destruct (recorder s) as [[| |]|] eqn:Er; simpl; rewrite ?Er;
    rewrite <- ?app_assoc; simpl; repeat split; discriminate.
Qed.

Lemma cut_finishing_tick P file startTime endTime evs o more (viaPlay : bool) :
  let cut := Cut.run P file startTime endTime in
  let tick := if viaPlay then EvPlayResolved o else EvFrame o in
  Cut.finished endTime o = true ->
  (if viaPlay then playPending (cut evs) else rafPending (cut evs)) = true ->
  trace (cut (evs ++ [tick]))
  = trace (cut evs) ++
    match recorder (cut evs) with
    | Some Recording => [RecorderStop; Progress 100]
    | _ => []
    end ++ [Pause] /\
  recorder (cut (evs ++ [tick])) <> Some Recording /\
  rafPending (cut (evs ++ tick :: more)) = false.
Proof.
  intros cut tick Hf Hdue.
  pose proof (cutGood_run P file startTime endTime evs) as Hg. fold (cut evs) in Hg.
  assert (Hd : rafPending (cut evs) = true \/ playPending (cut evs) = true)
    by (destruct viaPlay; auto).
  destruct (cutGood_loop _ Hg Hd) as (Ht & Ha & Hrp).
  destruct (cutGood_facts _ Hg) as (_ & _ & _ & _ & Hpr & _).
  assert (Hstep : cut (evs ++ [tick])
                  = Cut.drawFrame startTime endTime o
                      (if viaPlay then setPlayPending false (cut evs)
                       else setRafPending false (cut evs))).
  { unfold cut, tick. rewrite cut_run_snoc. fold (cut evs).
    destruct viaPlay; simpl; rewrite Hdue; reflexivity. }
  pose proof (cut_drawFrame_finished startTime endTime o
                (if viaPlay then setPlayPending false (cut evs)
                 else setRafPending false (cut evs)) Hf) as Hdf.
  rewrite <- Hstep in Hdf. simpl in Hdf.
  destruct Hdf as (Htr & Hrec & Hraf & Hplay & Htim & Haw).
  split; [|split].
  - rewrite Htr. destruct viaPlay; reflexivity.
  - exact Hrec.
  - change (evs ++ tick :: more) with (evs ++ [tick] ++ more).
    rewrite app_assoc. unfold cut at 1. rewrite cut_run_app. fold (cut (evs ++ [tick])).
    apply loopOver_fold. unfold loopOver.
    rewrite Hraf, Hplay, Htim, Haw.
    destruct viaPlay; simpl; repeat split; auto.
Qed.

Lemma compress_finishing_tick P file evs o more (viaPlay : bool) :
  Compress.THRESHOLD <= size file ->
  let compress := Compress.run P file in
  let tick := if viaPlay then EvPlayResolved o else EvFrame o in
  paused o || ended o = true ->
  (if viaPlay then playPending (compress evs) else rafPending (compress evs)) = true ->
  trace (compress (evs ++ [tick])) = trace (compress evs) /\
  rafPending (compress (evs ++ tick :: more)) = false.
Proof.
  intros Hsz compress tick Hf Hdue.
  pose proof (compressGood_run P file evs Hsz) as Hg. fold (compress evs) in Hg.
  assert (Hd : rafPending (compress evs) = true \/ playPending (compress evs) = true)
    by (destruct viaPlay; auto).
  destruct (compressGood_loop _ Hg Hd) as (Ha & Hrp).
  destruct (compressGood_facts _ Hg) as (_ & _ & _ & Hpr & _).
  assert (Hstep : compress (evs ++ [tick])
                  = if viaPlay then setPlayPending false (compress evs)
                    else setRafPending false (compress evs)).
  { unfold compress, tick. rewrite compress_run_snoc. fold (compress evs).
    destruct viaPlay; simpl; rewrite Hdue; unfold Compress.drawFrame;
      rewrite Hf; reflexivity. }
  split.
  - rewrite Hstep. destruct viaPlay; reflexivity.
  - change (evs ++ tick :: more) with (evs ++ [tick] ++ more).
    rewrite app_assoc. unfold compress at 1. rewrite compress_run_app.
    fold (compress (evs ++ [tick])).
    apply samplingOver_fold. unfold samplingOver. rewrite Hstep.
    destruct viaPlay; simpl; repeat split; auto.
Qed.

(** A tick of [compressVideo] that finds the video neither paused nor
    ended samples a frame, reports and schedules the next tick, wherever
    the clock is. *)
Lemma compress_sampling_tick P file evs o (viaPlay : bool) :
  let compress := Compress.run P file in
  let tick := if viaPlay then EvPlayResolved o else EvFrame o in
  paused o = false -> ended o = false ->
  (if viaPlay then playPending (compress evs) else rafPending (compress evs)) = true ->
  let dims := match surface (compress evs) with Some d => d | None => (0, 0) end in
  trace (compress (evs ++ [tick]))
  = trace (compress evs)
    ++ [DrawImage (currentTime o) (fst dims) (snd dims);
        Progress (Compress.percent (duration (compress evs)) (currentTime o));
        RequestAnimationFrame] /\
  rafPending (compress (evs ++ [tick])) = true.
Proof.
  intros compress tick Hp He Hdue dims. unfold compress.
  rewrite compress_run_snoc. fold (compress evs). unfold dims.
  unfold tick, Compress.step.
  destruct viaPlay; rewrite Hdue; unfold Compress.drawFrame; rewrite Hp, He; simpl;
    destruct (surface (compress evs)) as [[? ?]|]; simpl;
    rewrite <- !app_assoc; split; reflexivity.
Qed.

(** C6, as the code has it.  [cutVideo]: a call of [drawFrame] that finds
    the video paused or ended, or its clock at or past [endTime], samples
    nothing and schedules nothing: it stops the recorder if it is recording
    (reporting 100), pauses the video, and no tick is scheduled again in
    the rest of the run; so every frame that is ever sampled was visible
    before [endTime].  [compressVideo] tests [paused] and [ended] only: a
    call of [drawFrame] that finds the video paused or ended does nothing,
    and no tick is scheduled again; a call that finds it neither, samples
    a frame, reports and schedules the next tick, also when the clock has
    reached the duration read when the metadata arrived. *)
Theorem sampling_loop_stops_at_end
    (P : Platform) (file : File) (startTime endTime : Q) :
  let cut := Cut.run P file startTime endTime in
  let compress := Compress.run P file in
  (forall evs o more (viaPlay : bool),
     let tick := if viaPlay then EvPlayResolved o else EvFrame o in
     reachedEnd endTime o ->
     (if viaPlay then playPending (cut evs) else rafPending (cut evs)) = true ->
     trace (cut (evs ++ [tick]))
     = trace (cut evs) ++
       match recorder (cut evs) with
       | Some Recording => [RecorderStop; Progress 100]
       | _ => []
       end ++ [Pause] /\
     recorder (cut (evs ++ [tick])) <> Some Recording /\
     rafPending (cut (evs ++ tick :: more)) = false) /\
  (forall evs, Each (sampledBefore endTime) (trace (cut evs))) /\
  (Compress.THRESHOLD <= size file ->
   (forall evs o more (viaPlay : bool),
      let tick := if viaPlay then EvPlayResolved o else EvFrame o in
      paused o = true \/ ended o = true ->
      (if viaPlay then playPending (compress evs) else rafPending (compress evs)) = true ->
      trace (compress (evs ++ [tick])) = trace (compress evs) /\
      rafPending (compress (evs ++ tick :: more)) = false) /\
   (forall evs o (viaPlay : bool),
      let tick := if viaPlay then EvPlayResolved o else EvFrame o in
      paused o = false -> ended o = false ->
      (if viaPlay then playPending (compress evs) else rafPending (compress evs)) = true ->
      let dims := match surface (compress evs) with Some d => d | None => (0, 0) end in
      trace (compress (evs ++ [tick]))
      = trace (compress evs)
        ++ [DrawImage (currentTime o) (fst dims) (snd dims);
            Progress (Compress.percent (duration (compress evs)) (currentTime o));
            RequestAnimationFrame] /\
      rafPending (compress (evs ++ [tick])) = true)).
Proof.
  intros cut compress. split; [|split].
  - intros evs o more viaPlay tick Hend Hdue.
    apply cut_finishing_tick; [apply reachedEnd_finished, Hend | exact Hdue].
  - intros evs. apply Each_weaken with (Q1 := cutEffectOK endTime);
      [|apply cut_effects_run].
    intros b e H. apply H.
  - intros Hsz. split.
    + intros evs o more viaPlay tick Hend Hdue.
      apply compress_finishing_tick; try assumption.
      destruct Hend as [H|H]; rewrite H; [reflexivity | apply orb_true_r].
    + intros evs o viaPlay tick Hp He Hdue.
      apply (compress_sampling_tick P file evs o viaPlay); assumption.
Qed.

Lemma sampling_loop_stops_at_end_witness :
  let P := mkPlatform (fun _ => true) true false None in
  let file := mkFile "match.mp4" 30000000 "video/mp4" in
  let cutEvs := [EvLoadedMetadata 1920 1080 10; EvTimeout;
                 EvPlayResolved (mkObs false false 2%Q)] in
  let compressEvs := [EvLoadedMetadata 1920 1080 10;
                      EvPlayResolved (mkObs false false 0%Q)] in
  rafPending (Cut.run P file 2%Q 5%Q
                (cutEvs ++ EvFrame (mkObs false false 5%Q)
                        :: [EvFrame (mkObs false false 3%Q)])) = false /\
  rafPending (Compress.run P file
                (compressEvs ++ EvFrame (mkObs false true 10%Q)
                             :: [EvFrame (mkObs false false 3%Q)])) = false /\
  rafPending (Compress.run P file
                (compressEvs ++ [EvFrame (mkObs false false 12%Q)])) = true.
Proof.
  intros P file cutEvs compressEvs.
  destruct (sampling_loop_stops_at_end P file 2%Q 5%Q) as (Hcut & _ & Hcomp).
  destruct Hcomp as (Hstop & Hgo); [vm_compute; discriminate|].
  split; [|split].
  - apply (Hcut cutEvs (mkObs false false 5%Q) [EvFrame (mkObs false false 3%Q)] false).
    + right. right. simpl. unfold Qle. simpl. lia.
    + reflexivity.
  - apply (Hstop compressEvs (mkObs false true 10%Q)
             [EvFrame (mkObs false false 3%Q)] false).
    + right. reflexivity.
    + reflexivity.
  - apply (Hgo compressEvs (mkObs false false 12%Q) false); reflexivity.
Defined.

(** C6, as stated, fails for [compressVideo].  The duration read when the
    metadata arrived is 10 seconds; a tick that reads the clock at 12 while
    the element reports neither [paused] nor [ended] samples the frame,
    reports 99 and schedules the next tick. *)
Lemma compress_samples_past_the_duration :
  let P := mkPlatform (fun _ => true) true false None in
  let file := mkFile "match.mp4" 30000000 "video/mp4" in
  let before := Compress.run P file
    [EvLoadedMetadata 1920 1080 10; EvPlayResolved (mkObs false false 0%Q)] in
  let after := Compress.run P file
    [EvLoadedMetadata 1920 1080 10; EvPlayResolved (mkObs false false 0%Q);
     EvFrame (mkObs false false 12%Q)] in
  duration before = 10%Q /\
  reachedEnd (duration before) (mkObs false false 12%Q) /\
  trace after
  = trace before ++ [DrawImage 12%Q 640 360; Progress 99; RequestAnimationFrame] /\
  rafPending after = true.
Proof.
  split; [reflexivity|]. split.
  - right. right. simpl. unfold Qle. simpl. lia.
  - vm_compute. split; reflexivity.
Qed.

(* ================================================================= *)
(** ** The range is not validated *)

Lemma Each_In (Q : list Effect -> Effect -> Prop) (l : list Effect) (e : Effect) :
  Each Q l -> In e l -> exists before, Q before e.
Proof.
  intros H Hin. destruct (in_split _ _ Hin) as (before & after & E).
  exists before. exact (H before e after E).
Qed.

(** C2, as the code has it.  [cutVideo] does not look at the range before
    it starts: whatever [startTime] and [endTime] are, the executor creates
    the video element and the object URL and seeks to [startTime]; the
    promise is never rejected for the range (a rejection carries the load
    error, the canvas error, a recorder construction error thrown inside
    the executor, or whatever [play()] was refused with).  With
    [endTime <= startTime], a tick at or after [startTime] is a finishing
    one: it samples nothing, stops the recorder if it is recording and
    pauses the video, and a frame is never sampled at or after
    [startTime]; once the recorder is stopped, its [stop] event resolves
    the pending promise with the chunks gathered so far.  On a platform
    that can record, the run whose first tick is at or after [startTime]
    so resolves, with the non-empty chunks the recorder emitted, without
    having sampled a frame. *)
Theorem cutVideo_does_not_validate_range
    (P : Platform) (file : File) (startTime endTime : Q) :
  let cut := Cut.run P file startTime endTime in
  (exists rest,
     trace (Cut.cutVideo P file startTime)
     = [CreateVideo; CreateObjectURL file; Seek startTime] ++ rest) /\
  (readyAtCreation P = None ->
     promise (Cut.cutVideo P file startTime) = Pending /\
     urlLive (Cut.cutVideo P file startTime) = true) /\
  (forall evs e,
     promise (cut evs) = Rejected e ->
     raisedByCode e \/ In (EvPlayRejected e) evs) /\
  (forall o, (endTime <= startTime)%Q -> (startTime <= currentTime o)%Q ->
     Cut.finished endTime o = true) /\
  ((endTime <= startTime)%Q ->
   (forall evs t w h, In (DrawImage t w h) (trace (cut evs)) -> (t < startTime)%Q) /\
   (forall evs o (viaPlay : bool),
      let tick := if viaPlay then EvPlayResolved o else EvFrame o in
      (startTime <= currentTime o)%Q ->
      (if viaPlay then playPending (cut evs) else rafPending (cut evs)) = true ->
      trace (cut (evs ++ [tick]))
      = trace (cut evs) ++
        match recorder (cut evs) with
        | Some Recording => [RecorderStop; Progress 100]
        | _ => []
        end ++ [Pause]) /\
   (forall evs o (viaPlay : bool) cs,
      let tick := if viaPlay then EvPlayResolved o else EvFrame o in
      (startTime <= currentTime o)%Q ->
      (if viaPlay then playPending (cut evs) else rafPending (cut evs)) = true ->
      recorder (cut evs) = Some Recording -> promise (cut evs) = Pending ->
      promise (cut (evs ++ [tick] ++ map EvData cs ++ [EvStop]))
      = Resolved (NewBlob (chunks (cut evs) ++ filter nonEmpty cs) "video/webm")) /\
   (context2d P = true -> isTypeSupported P "video/webm" = true ->
    readyAtCreation P = None ->
    forall w h d o cs, (startTime <= currentTime o)%Q ->
      let s := cut ([EvLoadedMetadata w h d; EvTimeout]
                    ++ [EvPlayResolved o] ++ map EvData cs ++ [EvStop]) in
      promise s = Resolved (NewBlob (filter nonEmpty cs) "video/webm") /\
      drawn (trace s) = false)).
Proof.
  intros cut. split; [|split; [|split; [|split]]].
  - unfold Cut.cutVideo. destruct (readyAtCreation P) as [[w h]|].
    + unfold Cut.startProcessing. destruct (Cut.dimensions w h).
      destruct (context2d P); simpl;
        destruct (isTypeSupported P "video/webm;codecs=vp9"); simpl;
        try destruct (isTypeSupported P "video/webm"); simpl;
        eexists; reflexivity.
    + exists []. reflexivity.
  - intros Hr. unfold Cut.cutVideo. rewrite Hr. split; reflexivity.
  - intros evs e. apply cut_rejections.
  - intros o. apply inverted_range_finishes.
  - intros Hinv. split; [|split; [|split]].
    + intros evs t w h Hin.
      destruct (Each_In _ _ _ (cut_effects_run P file startTime endTime evs) Hin)
        as (before & Hok).
      assert (Hs : sampledBefore endTime before (DrawImage t w h)) by apply Hok.
      eapply Qlt_le_trans; [exact (Hs t w h eq_refl) | exact Hinv].
    + intros evs o viaPlay tick Ho Hdue.
      apply (cut_finishing_tick P file startTime endTime evs o [] viaPlay);
        [apply (inverted_range_finishes startTime); assumption | exact Hdue].
    + intros evs o viaPlay cs tick Ho Hdue Hrec Hp.
      apply (cut_finish_resolves P file startTime endTime evs o viaPlay cs);
        try assumption.
      apply (inverted_range_finishes startTime); assumption.
    + intros Hctx Hwebm Hready w h d o cs Ho s.
      destruct (cut_first_tick_due P file startTime endTime w h d Hctx Hwebm Hready)
        as (Hdue & Hrec & Hp & Hch & Hdr).
      assert (Hfin : Cut.finished endTime o = true)
        by (apply (inverted_range_finishes startTime); assumption).
      split.
      * unfold s, cut.
        rewrite (cut_finish_resolves P file startTime endTime _ o true cs
                   Hfin Hdue Hrec Hp).
        rewrite Hch. reflexivity.
      * unfold s, cut.
        rewrite cut_run_app, !fold_left_app. cbn [fold_left].
        set (s2 := Cut.run P file startTime endTime [EvLoadedMetadata w h d; EvTimeout]) in *.
        set (s3 := Cut.step P startTime endTime s2 (EvPlayResolved o)).
        assert (H3 : drawn (trace s3) = false /\ recorder s3 <> None).
        { unfold s3, Cut.step. rewrite Hdue. unfold Cut.drawFrame.
          rewrite Hfin. simpl. rewrite Hrec. simpl.
          unfold drawn in *. rewrite !existsb_app. simpl.
          rewrite Hdr. split; [reflexivity | discriminate]. }
        destruct H3 as [Hd3 Hr3].
        rewrite cut_data_run by exact Hr3.
        unfold Cut.step. simpl.
        destruct (stopQueued s3); [|exact Hd3].
        unfold onstop, resolve, revokeObjectURL. simpl.
        unfold drawn in *. rewrite !existsb_app. simpl. rewrite Hd3. reflexivity.
Qed.

Lemma cutVideo_does_not_validate_range_witness :
  let P := mkPlatform (fun _ => true) true false None in
  let file := mkFile "match.mp4" 30000000 "video/mp4" in
  promise (Cut.cutVideo P file 5%Q) = Pending /\
  Cut.finished 3%Q (mkObs false false 5%Q) = true /\
  promise (Cut.run P file 5%Q 3%Q
             ([EvLoadedMetadata 1920 1080 10; EvTimeout]
              ++ [EvPlayResolved (mkObs false false 5%Q)]
              ++ map EvData [[Byte.x1a]; []] ++ [EvStop]))
  = Resolved (NewBlob [[Byte.x1a]] "video/webm").
Proof.
  intros P file.
  destruct (cutVideo_does_not_validate_range P file 5%Q 3%Q)
    as (_ & Hinit & _ & Hfin & Hinv).
  assert (H53 : (3 <= 5)%Q) by (unfold Qle; simpl; lia).
  assert (H55 : (5 <= 5)%Q) by (unfold Qle; simpl; lia).
  split; [|split].
  - apply Hinit. reflexivity.
  - apply Hfin; assumption.
  - destruct (Hinv H53) as (_ & _ & _ & Hrun).
    apply (Hrun eq_refl eq_refl eq_refl 1920 1080 10%Q
             (mkObs false false 5%Q) [[Byte.x1a]; []] H55).
Defined.

(** C2, as stated, fails.  With the range (5, 3), and with the range
    (0, 20) on a source of 10 seconds, the call creates the element and the
    object URL, builds the canvas and the recorder when the metadata
    arrives, and the promise resolves with a blob; nothing is rejected. *)
Lemma cutVideo_invalid_range_resolves :
  let P := mkPlatform (fun _ => true) true false None in
  let file := mkFile "match.mp4" 30000000 "video/mp4" in
  let inverted := Cut.run P file 5%Q 3%Q
    [EvLoadedMetadata 1920 1080 10; EvTimeout;
     EvPlayResolved (mkObs false false 5%Q); EvStop] in
  let beyond := Cut.run P file 0%Q 20%Q
    [EvLoadedMetadata 1920 1080 10; EvTimeout;
     EvPlayResolved (mkObs false false 0%Q); EvData [Byte.x1a];
     EvFrame (mkObs false false 6%Q);
     EvFrame (mkObs false true 10%Q); EvStop] in
  trace (Cut.cutVideo P file 5%Q) = [CreateVideo; CreateObjectURL file; Seek 5%Q] /\
  promise inverted = Resolved (NewBlob [] "video/webm") /\
  surface inverted = Some (1280, 720) /\
  promise beyond = Resolved (NewBlob [[Byte.x1a]] "video/webm") /\
  progressLog (trace beyond) = [0; 30; 100].
Proof. vm_compute. repeat split. Qed.

(* ================================================================= *)
(** ** Stopping the recorder *)

Lemma compress_finalize_once P file evs :
  Each finalizeOnce (trace (Compress.run P file evs)).
Proof.
  destruct (Z.lt_ge_cases (size file) Compress.THRESHOLD) as [Hlt|Hge].
  - rewrite (compress_fast_path_run P file evs Hlt).
    change (trace _) with (([] ++ [Progress 100]) ++ [Resolve (OfFile file)]).
    repeat apply Each_snoc; [apply Each_nil | |]; intros H;
      (discriminate H || reflexivity).
  - apply Each_weaken with (Q1 := compressEffectOK);
      [|apply compress_effects_run, Hge].
    intros b e H. apply H.
Qed.

(** C8, as the code has it.  In [cutVideo] the stop is guarded: a
    finishing call of [drawFrame] that finds the recorder in another state
    than recording calls neither [stop()] nor [onProgress], it only pauses
    the video; in a run [stop()] is called at most once and [resolve] is
    called at most once.  In [compressVideo] the end-of-media callback
    calls [stop()] whatever the state of the recorder; [resolve] is still
    called at most once in a run. *)
Theorem recorder_stop_guard
    (P : Platform) (file : File) (startTime endTime : Q) :
  (forall s o,
     Cut.finished endTime o = true -> recorder s <> Some Recording ->
     Cut.drawFrame startTime endTime o s = emit Pause s) /\
  (forall evs,
     Each stopOnce (trace (Cut.run P file startTime endTime evs)) /\
     Each finalizeOnce (trace (Cut.run P file startTime endTime evs))) /\
  (forall s, exists rest,
     trace (Compress.stopAndReport P s) = trace s ++ RecorderStop :: rest) /\
  (forall evs, Each finalizeOnce (trace (Compress.run P file evs))).
Proof.
  split; [|split; [|split]].
  - intros s o Hf Hr. unfold Cut.drawFrame. rewrite Hf.
    destruct (recorder s) as [[| |]|]; try reflexivity. congruence.
  - intros evs.
    pose proof (cut_effects_run P file startTime endTime evs) as H.
    split; apply Each_weaken with (Q1 := cutEffectOK endTime); try exact H;
      intros b e Hq; apply Hq.
  - intros s. unfold Compress.stopAndReport.
    destruct (recorder s) as [[| |]|]; simpl;
      try destruct (stopInactiveThrows P); simpl;
      rewrite <- ?app_assoc; eexists; reflexivity.
  - intros evs. apply compress_finalize_once.
Qed.

Lemma recorder_stop_guard_witness :
  let P := mkPlatform (fun _ => true) true true None in
  let file := mkFile "match.mp4" 30000000 "video/mp4" in
  let s := Cut.run P file 2%Q 5%Q
             [EvLoadedMetadata 1920 1080 10; EvTimeout;
              EvPlayResolved (mkObs false false 2%Q); EvRecorderError] in
  Cut.step P 2%Q 5%Q s (EvFrame (mkObs false false 5%Q))
  = emit Pause (setRafPending false s).
Proof.
  intros P file s.
  destruct (recorder_stop_guard P file 2%Q 5%Q) as (Hguard & _).
  change (Cut.step P 2%Q 5%Q s (EvFrame (mkObs false false 5%Q)))
    with (Cut.drawFrame 2%Q 5%Q (mkObs false false 5%Q) (setRafPending false s)).
  apply Hguard.
  - reflexivity.
  - vm_compute. discriminate.
Defined.

(** C8, as stated, fails for [compressVideo].  The recorder fails by
    itself and its [stop] event resolves the promise; when the video ends,
    the callback calls [stop()] on the inactive recorder all the same.
    Where that call throws, the exception leaves the callback; where it
    does nothing, the callback goes on to report 100. *)
Lemma compress_stop_is_not_guarded :
  let file := mkFile "match.mp4" 30000000 "video/mp4" in
  let throwing := mkPlatform (fun _ => true) true true None in
  let lenient := mkPlatform (fun _ => true) true false None in
  let evs := [EvLoadedMetadata 1920 1080 10;
              EvPlayResolved (mkObs false false 0%Q);
              EvRecorderError; EvStop; EvEnded] in
  recorder (Compress.run throwing file evs) = Some Inactive /\
  trace (Compress.run throwing file (evs ++ [EvTimeout]))
  = trace (Compress.run throwing file evs)
    ++ [RecorderStop; Uncaught InvalidStateError] /\
  trace (Compress.run lenient file (evs ++ [EvTimeout]))
  = trace (Compress.run lenient file evs) ++ [RecorderStop; Progress 100].
Proof. vm_compute. repeat split. Qed.

(* ================================================================= *)
(** ** Progress reports *)

Lemma progressLog_app (l l' : list Effect) :
  progressLog (l ++ l') = progressLog l ++ progressLog l'.
Proof.
  induction l as [|x l IH]; simpl; [reflexivity|].
  destruct x; simpl; rewrite ?IH; reflexivity.
Qed.

Lemma Sorted_snoc (l : list Z) (v : Z) :
  Sorted Z.le l -> Forall (fun x => x <= v) l -> Sorted Z.le (l ++ [v]).
Proof.
  induction l as [|a l IH]; intros Hs Hf; simpl.
  - repeat constructor.
  - inversion Hs as [|? ? Hs' Hhd]; subst.
    inversion Hf as [|? ? Hav Hf']; subst.
    constructor; [apply IH; assumption|].
    destruct l as [|b l]; simpl; constructor.
    + exact Hav.
    + inversion Hhd; assumption.
Qed.
















(* ================================================================= *)
(** ** The object URL and the load error *)

Lemma released_cut_step P startTime endTime s ev :
  released s -> released (Cut.step P startTime endTime s ev).
Proof.
  unfold released. intros (H1 & H2).
  cut_step_cases s ev; simpl in *; flags;
    rewrite ?orb_false_r, ?orb_true_r;
    repeat split; intros; auto; try discriminate;
    try (destruct pr; simpl in *; try discriminate; eauto; fail).
Qed.

Lemma released_compress_step P s ev :
  released s -> released (Compress.step P s ev).
Proof.
  unfold released. intros (H1 & H2).
  compress_step_cases s ev; simpl in *; flags;
    rewrite ?orb_false_r, ?orb_true_r;
    repeat split; intros; auto; try discriminate;
    try (destruct pr; simpl in *; try discriminate; eauto; fail).
Qed.

Lemma released_cut_run P file startTime endTime evs :
  released (Cut.run P file startTime endTime evs).
Proof.
  induction evs as [|ev evs IH] using rev_ind.
  - unfold Cut.run, Cut.cutVideo, released. simpl.
    destruct (readyAtCreation P) as [[w h]|].
    + unfold Cut.startProcessing. destruct (Cut.dimensions w h).
      destruct (context2d P); simpl;
        destruct (isTypeSupported P "video/webm;codecs=vp9"); simpl;
        try destruct (isTypeSupported P "video/webm"); simpl;
        repeat split; intros; discriminate.
    + simpl. repeat split; intros; discriminate.
  - rewrite cut_run_snoc. apply released_cut_step, IH.
Qed.

Lemma released_compress_run P file evs :
  released (Compress.run P file evs).
Proof.
  induction evs as [|ev evs IH] using rev_ind.
  - unfold Compress.run, Compress.compressVideo, released. simpl fold_left.
    destruct (size file <? _); simpl;
      repeat split; intros; try discriminate; reflexivity.
  - rewrite compress_run_snoc. apply released_compress_step, IH.
Qed.

Lemma cut_step_url P startTime endTime s ev :
  urlLive s = false -> urlLive (Cut.step P startTime endTime s ev) = false.
Proof. intros H. cut_step_cases s ev; subst; reflexivity. Qed.

Lemma compress_step_url P s ev :
  urlLive s = false -> urlLive (Compress.step P s ev) = false.
Proof. intros H. compress_step_cases s ev; subst; reflexivity. Qed.

Lemma cut_url_stays_released P startTime endTime more s :
  urlLive s = false ->
  urlLive (fold_left (Cut.step P startTime endTime) more s) = false.
Proof.
  revert s. induction more as [|ev more IH]; intros s H; simpl; [exact H|].
  apply IH, cut_step_url, H.
Qed.

Lemma compress_url_stays_released P more s :
  urlLive s = false -> urlLive (fold_left (Compress.step P) more s) = false.
Proof.
  revert s. induction more as [|ev more IH]; intros s H; simpl; [exact H|].
  apply IH, compress_step_url, H.
Qed.

(** X1.  Success releases the object URL.  In a run of either function,
    whenever the promise is resolved the object URL made for the file has
    been revoked (or, on the fast path of [compressVideo], was never made),
    and a revoked URL is never live again in the rest of the run. *)
Theorem resolved_run_has_released_url
    (P : Platform) (file : File) (startTime endTime : Q) :
  let cut := Cut.run P file startTime endTime in
  let compress := Compress.run P file in
  (forall evs b, promise (cut evs) = Resolved b -> urlLive (cut evs) = false) /\
  (forall evs more, urlLive (cut evs) = false -> urlLive (cut (evs ++ more)) = false) /\
  (forall evs b, promise (compress evs) = Resolved b -> urlLive (compress evs) = false) /\
  (forall evs more, urlLive (compress evs) = false ->
     urlLive (compress (evs ++ more)) = false).
Proof.
  intros cut compress. repeat split.
  - intros evs b Hb.
    destruct (released_cut_run P file startTime endTime evs) as [H1 H2].
    apply H1. apply (H2 b). exact Hb.
  - intros evs more H. unfold cut. rewrite cut_run_app.
    apply cut_url_stays_released, H.
  - intros evs b Hb.
    destruct (released_compress_run P file evs) as [H1 H2].
    apply H1. apply (H2 b). exact Hb.
  - intros evs more H. unfold compress. rewrite compress_run_app.
    apply compress_url_stays_released, H.
Qed.

Lemma resolved_run_has_released_url_witness :
  let P := mkPlatform (fun _ => true) true false None in
  let file := mkFile "match.mp4" 30000000 "video/mp4" in
  urlLive (Cut.run P file 2%Q 5%Q
             [EvLoadedMetadata 1920 1080 10; EvTimeout;
              EvPlayResolved (mkObs false false 5%Q); EvStop]) = false.
Proof.
  intros P file.
  destruct (resolved_run_has_released_url P file 2%Q 5%Q) as (H & _).
  apply (H _ (NewBlob [] "video/webm")). reflexivity.
Defined.

Lemma cut_step_video P startTime endTime s ev :
  video (Cut.step P startTime endTime s ev) = video s.
Proof. cut_step_cases s ev; reflexivity. Qed.

Lemma compress_step_video P s ev :
  video (Compress.step P s ev) = video s.
Proof. compress_step_cases s ev; reflexivity. Qed.

Lemma cut_video_exists P file startTime endTime evs :
  video (Cut.run P file startTime endTime evs) = true.
Proof.
  induction evs as [|ev evs IH] using rev_ind.
  - apply cut_init_facts.
  - rewrite cut_run_snoc, cut_step_video. exact IH.
Qed.

Lemma compress_video_exists P file evs :
  Compress.THRESHOLD <= size file ->
  video (Compress.run P file evs) = true.
Proof.
  intros Hsz. induction evs as [|ev evs IH] using rev_ind.
  - unfold Compress.run. simpl. rewrite (compress_init_facts file Hsz). reflexivity.
  - rewrite compress_run_snoc, compress_step_video. exact IH.
Qed.

Lemma cut_promise_stable P startTime endTime more s :
  promise s <> Pending ->
  promise (fold_left (Cut.step P startTime endTime) more s) = promise s.
Proof.
  revert s. induction more as [|ev more IH]; intros s Hs; simpl; [reflexivity|].
  assert (H : promise (Cut.step P startTime endTime s ev) = promise s).
  { destruct (cut_step_promise P startTime endTime s ev) as [H|[H _]]; congruence. }
  rewrite IH; congruence.
Qed.

Lemma compress_promise_stable P more s :
  promise s <> Pending ->
  promise (fold_left (Compress.step P) more s) = promise s.
Proof.
  revert s. induction more as [|ev more IH]; intros s Hs; simpl; [reflexivity|].
  assert (H : promise (Compress.step P s ev) = promise s).
  { destruct (compress_step_promise P s ev) as [H|[H _]]; congruence. }
  rewrite IH; congruence.
Qed.

(** What [video.onerror] does to a run whose promise is pending. *)
Lemma onerror_pending (s : State) :
  promise s = Pending ->
  promise (onerror s) = Rejected (Error "Video load failed") /\
  urlLive (onerror s) = false /\
  recorder (onerror s) = recorder s /\
  stopCalled (trace (onerror s)) = stopCalled (trace s) /\
  rafPending (onerror s) = rafPending s.
Proof.
  intros Hp. unfold onerror. simpl. rewrite Hp. flags.
  rewrite !orb_false_r. repeat split.
Qed.

(** X2.  A load error.  When the video element reports an error while the
    promise is pending, either function rejects with "Video load failed"
    and revokes the object URL, and the rejection stands whatever follows.
    Nothing else is undone: the recorder is left in the state it was in
    (recording, if the error comes during playback), [stop()] is not
    called, and a scheduled tick stays scheduled. *)
Theorem load_error_rejects_and_releases_url
    (P : Platform) (file : File) (startTime endTime : Q) :
  let cut := Cut.run P file startTime endTime in
  let compress := Compress.run P file in
  (forall evs, promise (cut evs) = Pending ->
     let s' := cut (evs ++ [EvError]) in
     promise s' = Rejected (Error "Video load failed") /\
     urlLive s' = false /\
     recorder s' = recorder (cut evs) /\
     stopCalled (trace s') = stopCalled (trace (cut evs)) /\
     rafPending s' = rafPending (cut evs) /\
     forall more, promise (cut (evs ++ EvError :: more))
                  = Rejected (Error "Video load failed")) /\
  (Compress.THRESHOLD <= size file ->
   forall evs, promise (compress evs) = Pending ->
     let s' := compress (evs ++ [EvError]) in
     promise s' = Rejected (Error "Video load failed") /\
     urlLive s' = false /\
     recorder s' = recorder (compress evs) /\
     stopCalled (trace s') = stopCalled (trace (compress evs)) /\
     rafPending s' = rafPending (compress evs) /\
     forall more, promise (compress (evs ++ EvError :: more))
                  = Rejected (Error "Video load failed")).
Proof.
  intros cut compress. split.
  - intros evs Hp s'.
    assert (Hs : s' = onerror (cut evs)).
    { unfold s', cut. rewrite cut_run_snoc. simpl.
      rewrite cut_video_exists. reflexivity. }
    destruct (onerror_pending (cut evs) Hp) as (H1 & H2 & H3 & H4 & H5).
    rewrite Hs. repeat split; try assumption.
    intros more. change (evs ++ EvError :: more) with (evs ++ [EvError] ++ more).
    rewrite app_assoc. unfold cut. rewrite cut_run_app.
    fold (cut (evs ++ [EvError])). fold s'. rewrite Hs.
    rewrite cut_promise_stable; [exact H1 | rewrite H1; discriminate].
  - intros Hsz evs Hp s'.
    assert (Hs : s' = onerror (compress evs)).
    { unfold s', compress. rewrite compress_run_snoc. simpl.
      rewrite (compress_video_exists P file evs Hsz). reflexivity. }
    destruct (onerror_pending (compress evs) Hp) as (H1 & H2 & H3 & H4 & H5).
    rewrite Hs. repeat split; try assumption.
    intros more. change (evs ++ EvError :: more) with (evs ++ [EvError] ++ more).
    rewrite app_assoc. unfold compress. rewrite compress_run_app.
    fold (compress (evs ++ [EvError])). fold s'. rewrite Hs.
    rewrite compress_promise_stable; [exact H1 | rewrite H1; discriminate].
Qed.

Lemma load_error_rejects_and_releases_url_witness :
  let P := mkPlatform (fun _ => true) true false None in
  let file := mkFile "match.mp4" 30000000 "video/mp4" in
  let evs := [EvLoadedMetadata 1920 1080 10;
              EvPlayResolved (mkObs false false 0%Q)] in
  promise (Compress.run P file (evs ++ [EvError]))
  = Rejected (Error "Video load failed") /\
  recorder (Compress.run P file (evs ++ [EvError])) = Some Recording.
Proof.
  intros P file evs.
  destruct (load_error_rejects_and_releases_url P file 0%Q 1%Q) as (_ & H).
  destruct (H ltac:(unfold Compress.THRESHOLD; simpl; lia) evs eq_refl)
    as (H1 & _ & H3 & _).
  split; [exact H1 | rewrite H3; reflexivity].
Defined.

(* ================================================================= *)
(** ** Runs that cannot build a recorder *)

Lemma cutGood_no_recorder (s : State) :
  cutGood s = true -> recorder s = None ->
  resolveCalled (trace s) = false /\ stopQueued s = false /\
  playPending s = false /\ rafPending s = false /\ timers s = O.
Proof.
  destruct s as [tr pr vi ul am su re sq ch ti pp rp oe du].
  unfold cutGood; simpl. intros H Hr. subst re.
  destruct oe; [discriminate H|]. simpl in H.
  destruct pp, rp; simpl in H; try discriminate H;
  destruct am; simpl in H;
  destruct (existsb isCanvas tr); simpl in H; try discriminate H;
  destruct su as [[? ?]|]; simpl in H; try discriminate H;
  destruct sq; simpl in H; try discriminate H;
  destruct (stopCalled tr); simpl in H; try discriminate H;
  destruct (resolveCalled tr); simpl in H; try discriminate H;
  destruct ti; simpl in H; try discriminate H;
  repeat split.
Qed.

Lemma cut_no_recorder_step P startTime endTime s ev :
  cutCannotRecord P -> cutGood s = true ->
  recorder s = None -> recorder (Cut.step P startTime endTime s ev) = None.
Proof.
  intros HP Hg Hr. unfold cutCannotRecord in HP.
  destruct (cutGood_no_recorder s Hg Hr) as (_ & _ & _ & _ & Ht). clear Hg.
  cut_step_cases s ev; try reflexivity; try discriminate;
    destruct HP as [HP|[HP1 HP2]]; congruence.
Qed.

Lemma compress_no_recorder_step P s ev :
  compressCannotRecord P ->
  recorder s = None -> recorder (Compress.step P s ev) = None.
Proof.
  intros HP Hr. unfold compressCannotRecord in HP.
  compress_step_cases s ev; try reflexivity; try discriminate;
    destruct HP as [HP|HP]; congruence.
Qed.

Lemma cut_never_records P file startTime endTime evs :
  cutCannotRecord P ->
  recorder (Cut.run P file startTime endTime evs) = None.
Proof.
  intros HP. induction evs as [|ev evs IH] using rev_ind.
  - unfold Cut.run, Cut.cutVideo. simpl. unfold cutCannotRecord in HP.
    destruct (readyAtCreation P) as [[w h]|]; [|reflexivity].
    unfold Cut.startProcessing. destruct (Cut.dimensions w h).
    destruct (context2d P); simpl;
      destruct (isTypeSupported P "video/webm;codecs=vp9"); simpl;
      try destruct (isTypeSupported P "video/webm"); simpl;
      try reflexivity; destruct HP as [HP|[HP1 HP2]]; congruence.
  - rewrite cut_run_snoc. apply cut_no_recorder_step; try assumption.
    apply cutGood_run.
Qed.

Lemma compress_never_records P file evs :
  compressCannotRecord P ->
  recorder (Compress.run P file evs) = None.
Proof.
  intros HP. induction evs as [|ev evs IH] using rev_ind.
  - unfold Compress.run, Compress.compressVideo. simpl fold_left.
    destruct (size file <? _); reflexivity.
  - rewrite compress_run_snoc. apply compress_no_recorder_step; assumption.
Qed.

Lemma compressGood_no_recorder (s : State) :
  compressGood s = true -> recorder s = None ->
  resolveCalled (trace s) = false /\ stopQueued s = false /\
  playPending s = false /\ rafPending s = false /\ timers s = O /\
  onendedSet s = false.
Proof.
  destruct s as [tr pr vi ul am su re sq ch ti pp rp oe du].
  unfold compressGood; simpl. intros H Hr. subst re.
  destruct pp, rp; simpl in H; try discriminate H;
  destruct am; simpl in H;
  destruct (existsb isCanvas tr); simpl in H; try discriminate H;
  destruct su as [[? ?]|]; simpl in H; try discriminate H;
  destruct sq; simpl in H; try discriminate H;
  destruct (stopCalled tr); simpl in H; try discriminate H;
  destruct (resolveCalled tr); simpl in H; try discriminate H;
  destruct oe; simpl in H; try discriminate H;
  destruct ti; simpl in H; try discriminate H;
  repeat split.
Qed.

(** Without a recorder, and with a 2d context, only the load error settles
    the promise or touches the object URL. *)
Lemma cut_hang_step P startTime endTime s ev :
  cutCannotRecord P -> context2d P = true -> cutGood s = true ->
  recorder s = None -> ev <> EvError ->
  promise (Cut.step P startTime endTime s ev) = promise s /\
  urlLive (Cut.step P startTime endTime s ev) = urlLive s.
Proof.
  intros HP Hctx Hg Hr Hev. unfold cutCannotRecord in HP.
  destruct (cutGood_no_recorder s Hg Hr) as (_ & Hq & Hp & Hf & Ht). clear Hg.
  cut_step_cases s ev; try congruence; try (split; reflexivity);
    destruct HP as [HP|[HP1 HP2]]; congruence.
Qed.

Lemma compress_hang_step P s ev :
  compressCannotRecord P -> context2d P = true -> compressGood s = true ->
  recorder s = None -> ev <> EvError ->
  promise (Compress.step P s ev) = promise s /\
  urlLive (Compress.step P s ev) = urlLive s.
Proof.
  intros HP Hctx Hg Hr Hev. unfold compressCannotRecord in HP.
  destruct (compressGood_no_recorder s Hg Hr) as (_ & Hq & Hp & Hf & Ht & Ho).
  clear Hg.
  compress_step_cases s ev; try congruence; try (split; reflexivity);
    destruct HP as [HP|HP]; congruence.
Qed.

Lemma cut_hangs P file startTime endTime evs :
  cutCannotRecord P -> context2d P = true -> readyAtCreation P = None ->
  ~ In EvError evs ->
  promise (Cut.run P file startTime endTime evs) = Pending /\
  urlLive (Cut.run P file startTime endTime evs) = true.
Proof.
  intros HP Hctx Hready. induction evs as [|ev evs IH] using rev_ind; intros Hno.
  - unfold Cut.run, Cut.cutVideo. simpl. rewrite Hready. split; reflexivity.
  - rewrite cut_run_snoc.
    destruct (cut_hang_step P startTime endTime
                (Cut.run P file startTime endTime evs) ev HP Hctx
                (cutGood_run P file startTime endTime evs)
                (cut_never_records P file startTime endTime evs HP)) as [H1 H2].
    + intros ->. apply Hno. apply in_or_app. right. left. reflexivity.
    + rewrite H1, H2. apply IH. intros H. apply Hno. apply in_or_app. left. exact H.
Qed.

Lemma compress_hangs P file evs :
  Compress.THRESHOLD <= size file ->
  compressCannotRecord P -> context2d P = true ->
  ~ In EvError evs ->
  promise (Compress.run P file evs) = Pending /\
  urlLive (Compress.run P file evs) = true.
Proof.
  intros Hsz HP Hctx. induction evs as [|ev evs IH] using rev_ind; intros Hno.
  - unfold Compress.run. simpl. rewrite (compress_init_facts file Hsz).
    split; reflexivity.
  - rewrite compress_run_snoc.
    destruct (compress_hang_step P (Compress.run P file evs) ev HP Hctx
                (compressGood_run P file evs Hsz)
                (compress_never_records P file evs HP)) as [H1 H2].
    + intros ->. apply Hno. apply in_or_app. right. left. reflexivity.
    + rewrite H1, H2. apply IH. intros H. apply Hno. apply in_or_app. left. exact H.
Qed.

(** X3.  No recorder, no artifact.  On a platform where the recorder cannot
    be built (no 2d context, or no configuration that constructs), a run
    of either function never has a recorder and its promise is never
    resolved.  When it is the configurations that fail, the construction
    error leaves the handler uncaught: as long as the video element
    reports no error, the promise stays pending and the object URL stays
    live, whatever else happens. *)
Theorem no_recorder_no_artifact
    (P : Platform) (file : File) (startTime endTime : Q) :
  let cut := Cut.run P file startTime endTime in
  let compress := Compress.run P file in
  (cutCannotRecord P ->
   (forall evs, recorder (cut evs) = None /\
                forall b, promise (cut evs) <> Resolved b) /\
   (context2d P = true -> readyAtCreation P = None ->
    forall evs, ~ In EvError evs ->
      promise (cut evs) = Pending /\ urlLive (cut evs) = true)) /\
  (compressCannotRecord P -> Compress.THRESHOLD <= size file ->
   (forall evs, recorder (compress evs) = None /\
                forall b, promise (compress evs) <> Resolved b) /\
   (context2d P = true ->
    forall evs, ~ In EvError evs ->
      promise (compress evs) = Pending /\ urlLive (compress evs) = true)).
Proof.
  intros cut compress. split.
  - intros HP. split.
    + intros evs.
      pose proof (cut_never_records P file startTime endTime evs HP) as Hr.
      split; [exact Hr|]. intros b Hb.
      destruct (cutGood_no_recorder _ (cutGood_run P file startTime endTime evs) Hr)
        as (Hrs & _).
      destruct (released_cut_run P file startTime endTime evs) as [_ H2].
      rewrite (H2 b Hb) in Hrs. discriminate Hrs.
    + intros Hctx Hready evs Hno. apply cut_hangs; assumption.
  - intros HP Hsz. split.
    + intros evs.
      pose proof (compress_never_records P file evs HP) as Hr.
      split; [exact Hr|]. intros b Hb.
      destruct (compressGood_no_recorder _ (compressGood_run P file evs Hsz) Hr)
        as (Hrs & _).
      destruct (released_compress_run P file evs) as [_ H2].
      rewrite (H2 b Hb) in Hrs. discriminate Hrs.
    + intros Hctx evs Hno. apply compress_hangs; assumption.
Qed.

Lemma no_recorder_no_artifact_witness :
  let P := mkPlatform (String.eqb "video/webm") true false None in
  let file := mkFile "match.mp4" 30000000 "video/mp4" in
  let evs := [EvLoadedMetadata 1920 1080 10; EvEnded; EvTimeout; EvStop;
              EvPlayResolved (mkObs false false 0%Q)] in
  promise (Compress.run P file evs) = Pending /\
  urlLive (Compress.run P file evs) = true.
Proof.
  intros P file evs.
  destruct (no_recorder_no_artifact P file 0%Q 1%Q) as (_ & H).
  destruct H as (_ & Hhang).
  - right. reflexivity.
  - unfold Compress.THRESHOLD. simpl. lia.
  - apply Hhang; [reflexivity|]. simpl. intuition discriminate.
Defined.

(** X4.  No 2d context.  When [getContext('2d')] returns nothing, the
    metadata handler of either function sizes the canvas, revokes the
    object URL and rejects a pending promise with "Canvas context failed";
    it asks for no capture stream, attempts no recorder construction, sets
    no timer and never calls [play()]. *)
Theorem missing_context_rejects
    (P : Platform) (file : File) (startTime endTime : Q)
    (evs : list Event) (w h : Z) (d : Q) :
  context2d P = false ->
  let cut := Cut.run P file startTime endTime in
  let compress := Compress.run P file in
  (awaitMetadata (cut evs) = true -> promise (cut evs) = Pending ->
   let s' := cut (evs ++ [EvLoadedMetadata w h d]) in
   promise s' = Rejected (Error "Canvas context failed") /\
   urlLive s' = false /\
   trace s' = trace (cut evs)
              ++ [CreateCanvas (fst (Cut.dimensions w h)) (snd (Cut.dimensions w h));
                  RevokeObjectURL; Reject (Error "Canvas context failed")] /\
   timers s' = timers (cut evs) /\ playPending s' = playPending (cut evs)) /\
  (awaitMetadata (compress evs) = true -> promise (compress evs) = Pending ->
   let s' := compress (evs ++ [EvLoadedMetadata w h d]) in
   promise s' = Rejected (Error "Canvas context failed") /\
   urlLive s' = false /\
   trace s' = trace (compress evs)
              ++ [CreateCanvas (Compress.TARGET_WIDTH w h) 360;
                  RevokeObjectURL; Reject (Error "Canvas context failed")] /\
   timers s' = timers (compress evs) /\
   playPending s' = playPending (compress evs)).
Proof.
  intros Hctx cut compress. split.
  - intros Ha Hp s'. unfold s', cut. rewrite cut_run_snoc.
    fold (cut evs). simpl. rewrite Ha.
    unfold Cut.onloadedmetadata, Cut.startProcessing.
    destruct (Cut.dimensions w h). rewrite Hctx. simpl. rewrite Hp.
    rewrite <- !app_assoc. repeat split.
  - intros Ha Hp s'. unfold s', compress. rewrite compress_run_snoc.
    fold (compress evs). simpl. rewrite Ha.
    unfold Compress.onloadedmetadata. rewrite Hctx. simpl. rewrite Hp.
    rewrite <- !app_assoc. repeat split.
Qed.

Lemma missing_context_rejects_witness :
  let P := mkPlatform (fun _ => true) false false None in
  let file := mkFile "match.mp4" 30000000 "video/mp4" in
  promise (Cut.run P file 2%Q 5%Q ([] ++ [EvLoadedMetadata 1920 1080 10]))
  = Rejected (Error "Canvas context failed").
Proof.
  intros P file.
  destruct (missing_context_rejects P file 2%Q 5%Q [] 1920 1080 10%Q eq_refl)
    as (H & _).
  apply H; reflexivity.
Defined.

(* ================================================================= *)
(** ** The order of the calls *)

Lemma startCalled_snoc (l : list Effect) (e : Effect) :
  startCalled (l ++ [e]) = startCalled l || isStart e.
Proof. unfold startCalled. rewrite existsb_app. simpl. now rewrite orb_false_r. Qed.

Lemma playCalled_snoc (l : list Effect) (e : Effect) :
  playCalled (l ++ [e]) = playCalled l || isPlay e.
Proof. unfold playCalled. rewrite existsb_app. simpl. now rewrite orb_false_r. Qed.

Lemma drawn_snoc (l : list Effect) (e : Effect) :
  drawn (l ++ [e]) = drawn l || isDraw e.
Proof. unfold drawn. rewrite existsb_app. simpl. now rewrite orb_false_r. Qed.

Ltac order_flags :=
  rewrite ?startCalled_snoc, ?playCalled_snoc, ?drawn_snoc; simpl.

Ltac order_settled :=
  simpl; order_flags; rewrite ?orb_false_r, ?orb_true_r, ?andb_true_r;
  try solve [ intros; first [assumption | discriminate | reflexivity] ].

Ltac order_cases :=
  order_settled;
  repeat (match goal with
          | r : option RecordingState |- _ => destruct r as [[| |]|]
          | |- context [startCalled ?t] => destruct (startCalled t)
          | |- context [playCalled ?t] => destruct (playCalled t)
          | |- context [drawn ?t] => destruct (drawn t)
          | u : option (Z * Z) |- _ =>
              match goal with |- context [u] => destruct u as [[? ?]|] end
          | b : bool |- _ =>
              match goal with |- context [b] => destruct b end
          | n : nat |- _ =>
              match goal with |- context [n] => destruct n as [|?] end
          end; order_settled).

Lemma cutGood_shape (s : State) : cutGood s = true -> cutShape s = true.
Proof.
  destruct s as [tr pr vi ul am su re sq ch ti pp rp oe du].
  unfold cutGood, cutShape; simpl. intros H.
  destruct oe; [discriminate H|]. simpl in H.
  destruct pp, rp; simpl in H; try discriminate H;
  destruct am; simpl in H;
  destruct (existsb isCanvas tr); simpl in H; try discriminate H;
  destruct su as [[? ?]|]; simpl in H; try discriminate H;
  destruct re as [[| |]|]; simpl in H; try discriminate H;
  destruct sq; simpl in H; try discriminate H;
  destruct (stopCalled tr); simpl in H; try discriminate H;
  destruct (resolveCalled tr); simpl in H; try discriminate H;
  destruct ti as [|[|?]]; simpl in H; try discriminate H; reflexivity.
Qed.

Lemma compressGood_shape (s : State) : compressGood s = true -> compressShape s = true.
Proof.
  destruct s as [tr pr vi ul am su re sq ch ti pp rp oe du].
  unfold compressGood, compressShape; simpl. intros H.
  destruct pp, rp; simpl in H; try discriminate H;
  destruct am; simpl in H;
  destruct (existsb isCanvas tr); simpl in H; try discriminate H;
  destruct su as [[? ?]|]; simpl in H; try discriminate H;
  destruct re as [[| |]|]; simpl in H; try discriminate H;
  destruct sq; simpl in H; try discriminate H;
  destruct (stopCalled tr); simpl in H; try discriminate H;
  destruct (resolveCalled tr); simpl in H; try discriminate H; reflexivity.
Qed.

Lemma cutOrder_step (P : Platform) (startTime endTime : Q) (s : State) (ev : Event) :
  cutShape s = true -> cutOrder s = true ->
  cutOrder (Cut.step P startTime endTime s ev) = true.
Proof.
  destruct s as [tr pr vi ul am su re sq ch ti pp rp oe du].
  unfold cutShape, cutOrder, hasSurface.
  destruct ev as [| w h d | | o | | | o | e | o | | c | |]; simpl.
  - destruct vi; order_cases.
  - destruct am; [|intros _; exact id].
    unfold Cut.onloadedmetadata, Cut.startProcessing.
    destruct (Cut.dimensions w h);
      destruct (context2d P); simpl;
      destruct (isTypeSupported P "video/webm;codecs=vp9"); simpl;
      try destruct (isTypeSupported P "video/webm");
      order_cases.
  - destruct vi; order_cases.
  - intros _; exact id.
  - intros _; exact id.
  - destruct ti as [|ti]; [intros _; exact id|]. order_cases.
  - destruct pp; [|intros _; exact id]. unfold Cut.drawFrame.
    destruct (Cut.finished endTime o); destruct re as [[| |]|];
      destruct su as [[? ?]|]; order_cases.
  - destruct pp; [|intros _; exact id]. order_cases.
  - destruct rp; [|intros _; exact id]. unfold Cut.drawFrame.
    destruct (Cut.finished endTime o); destruct re as [[| |]|];
      destruct su as [[? ?]|]; order_cases.
  - intros _; exact id.
  - unfold ondataavailable.
    destruct re; [|intros _; exact id]. destruct (nonEmpty c); intros _; exact id.
  - destruct sq; [|intros _; exact id]. order_cases.
  - unfold recorderFails; simpl. order_cases.
Qed.

Lemma compressOrder_step (P : Platform) (s : State) (ev : Event) :
  compressShape s = true -> compressOrder s = true ->
  compressOrder (Compress.step P s ev) = true.
Proof.
  destruct s as [tr pr vi ul am su re sq ch ti pp rp oe du].
  unfold compressShape, compressOrder, hasSurface.
  destruct ev as [| w h d | | o | | | o | e | o | | c | |]; simpl.
  - destruct vi; order_cases.
  - destruct am; [|intros _; exact id].
    unfold Compress.onloadedmetadata.
    destruct (context2d P); simpl;
      try destruct (isTypeSupported P "video/webm;codecs=vp8");
      order_cases.
  - intros _; exact id.
  - intros _; exact id.
  - intros _; exact id.
  - destruct ti as [|ti]; [intros _; exact id|].
    unfold Compress.stopAndReport; simpl.
    destruct re as [[| |]|]; simpl; try destruct (stopInactiveThrows P);
      order_cases.
  - destruct pp; [|intros _; exact id]. unfold Compress.drawFrame.
    destruct (paused o || ended o); destruct re as [[| |]|];
      destruct su as [[? ?]|]; order_cases.
  - destruct pp; [|intros _; exact id]. order_cases.
  - destruct rp; [|intros _; exact id]. unfold Compress.drawFrame.
    destruct (paused o || ended o); destruct re as [[| |]|];
      destruct su as [[? ?]|]; order_cases.
  - destruct oe; [|intros _; exact id]. order_cases.
  - unfold ondataavailable.
    destruct re; [|intros _; exact id]. destruct (nonEmpty c); intros _; exact id.
  - destruct sq; [|intros _; exact id]. order_cases.
  - unfold recorderFails; simpl. order_cases.
Qed.

Lemma cutOrder_facts (s : State) :
  cutShape s = true -> cutOrder s = true ->
  (awaitMetadata s = true ->
     startCalled (trace s) = false /\ playCalled (trace s) = false) /\
  (timers s <> O ->
     startCalled (trace s) = false /\ playCalled (trace s) = false) /\
  (playPending s = true \/ rafPending s = true ->
     startCalled (trace s) = true /\ playCalled (trace s) = true /\
     surface s <> None).
Proof.
  destruct s as [tr pr vi ul am su re sq ch ti pp rp oe du].
  unfold cutShape, cutOrder, hasSurface; simpl. intros Hs H.
  destruct am, ti as [|[|?]], re as [[| |]|], pp, rp, su as [[? ?]|];
    simpl in Hs; try discriminate Hs;
    destruct (startCalled tr), (playCalled tr), (drawn tr);
    simpl in H; try discriminate H;
    repeat split; intros; try discriminate; try congruence;
    try (destruct H0; discriminate).
Qed.

Lemma compressOrder_facts (s : State) :
  compressShape s = true -> compressOrder s = true ->
  (awaitMetadata s = true ->
     startCalled (trace s) = false /\ playCalled (trace s) = false) /\
  (playPending s = true \/ rafPending s = true ->
     startCalled (trace s) = true /\ playCalled (trace s) = true /\
     surface s <> None).
Proof.
  destruct s as [tr pr vi ul am su re sq ch ti pp rp oe du].
  unfold compressShape, compressOrder, hasSurface; simpl. intros Hs H.
  destruct am, re as [[| |]|], pp, rp, su as [[? ?]|];
    simpl in Hs; try discriminate Hs;
    destruct (startCalled tr), (playCalled tr), (drawn tr);
    simpl in H; try discriminate H;
    repeat split; intros; try discriminate; try congruence;
    try (destruct H0; discriminate).
Qed.

Lemma surfaceLogged_cut_step P startTime endTime s ev :
  surfaceLogged s -> surfaceLogged (Cut.step P startTime endTime s ev).
Proof.
  unfold surfaceLogged. intros H.
  cut_step_cases s ev; intros w' h' Hs;
    rewrite ?in_app_iff; simpl;
    try (injection Hs as <- <-; tauto);
    try discriminate Hs;
    try (pose proof (H _ _ Hs); tauto).
Qed.

Lemma surfaceLogged_compress_step P s ev :
  surfaceLogged s -> surfaceLogged (Compress.step P s ev).
Proof.
  unfold surfaceLogged. intros H.
  compress_step_cases s ev; intros w' h' Hs;
    rewrite ?in_app_iff; simpl;
    try (injection Hs as <- <-; tauto);
    try discriminate Hs;
    try (pose proof (H _ _ Hs); tauto).
Qed.

Ltac order_side :=
  unfold samplingOK, callOrder, paintedAtCanvasSize;
  repeat split; intros;
  try match goal with E : _ = true |- _ => simpl in E; discriminate E end;
  try match goal with E : _ = DrawImage _ _ _ |- _ => discriminate E end;
  try (order_flags; rewrite ?orb_false_r, ?orb_true_r;
       first [ reflexivity | assumption
             | repeat match goal with H : _ = _ |- _ => rewrite H end;
               simpl; reflexivity ]).

Ltac sampling_ok :=
  simpl; repeat (apply Each_snoc); try assumption; order_side.

Lemma cut_sampling_step (P : Platform) (startTime endTime : Q) (s : State) (ev : Event) :
  cutShape s = true -> cutOrder s = true -> surfaceLogged s ->
  Each samplingOK (trace s) ->
  Each samplingOK (trace (Cut.step P startTime endTime s ev)).
Proof.
  intros Hs Ho Hl He.
  destruct (cutOrder_facts s Hs Ho) as (Haw & Htm & Htick).
  destruct ev as [| w h d | | o | | | o | e | o | | c | |]; simpl;
    try assumption.
  - destruct (video s); [sampling_ok | assumption].
  - destruct (awaitMetadata s) eqn:Ea; [|assumption].
    unfold Cut.onloadedmetadata, Cut.startProcessing.
    destruct (Cut.dimensions w h);
      destruct (context2d P); simpl;
      destruct (isTypeSupported P "video/webm;codecs=vp9"); simpl;
      try destruct (isTypeSupported P "video/webm"); sampling_ok.
  - destruct (video s); [sampling_ok | assumption].
  - destruct (timers s) eqn:Et; [assumption|].
    destruct Htm as [Hst Hpl]; [discriminate|]. sampling_ok.
  - destruct (playPending s) eqn:Ep; [|assumption].
    destruct Htick as (Hst & Hpl & Hsu); [auto|].
    unfold Cut.drawFrame. destruct (Cut.finished endTime o); simpl.
    + destruct (recorder s) as [[| |]|]; sampling_ok.
    + destruct (surface s) as [[? ?]|] eqn:Es; [|congruence].
      sampling_ok.
      match goal with E : DrawImage _ _ _ = DrawImage _ _ _ |- _ =>
        injection E as _ <- <- end. apply Hl, Es.
  - destruct (playPending s); [sampling_ok | assumption].
  - destruct (rafPending s) eqn:Ep; [|assumption].
    destruct Htick as (Hst & Hpl & Hsu); [auto|].
    unfold Cut.drawFrame. destruct (Cut.finished endTime o); simpl.
    + destruct (recorder s) as [[| |]|]; sampling_ok.
    + destruct (surface s) as [[? ?]|] eqn:Es; [|congruence].
      sampling_ok.
      match goal with E : DrawImage _ _ _ = DrawImage _ _ _ |- _ =>
        injection E as _ <- <- end. apply Hl, Es.
  - unfold ondataavailable.
    destruct (recorder s); [|assumption]. destruct (nonEmpty c); assumption.
  - destruct (stopQueued s); [sampling_ok | assumption].
  - unfold recorderFails. destruct (recorder s) as [[| |]|]; assumption.
Qed.

Lemma compress_sampling_step (P : Platform) (s : State) (ev : Event) :
  compressShape s = true -> compressOrder s = true -> surfaceLogged s ->
  Each samplingOK (trace s) ->
  Each samplingOK (trace (Compress.step P s ev)).
Proof.
  intros Hs Ho Hl He.
  destruct (compressOrder_facts s Hs Ho) as (Haw & Htick).
  destruct ev as [| w h d | | o | | | o | e | o | | c | |]; simpl;
    try assumption.
  - destruct (video s); [sampling_ok | assumption].
  - destruct (awaitMetadata s) eqn:Ea; [|assumption].
    destruct (Haw eq_refl) as [Hst Hpl].
    unfold Compress.onloadedmetadata.
    destruct (context2d P); simpl;
      try destruct (isTypeSupported P "video/webm;codecs=vp8"); sampling_ok.
  - destruct (timers s); [assumption|]. unfold Compress.stopAndReport; simpl.
    destruct (recorder s) as [[| |]|]; simpl;
      try destruct (stopInactiveThrows P); sampling_ok.
  - destruct (playPending s) eqn:Ep; [|assumption].
    destruct Htick as (Hst & Hpl & Hsu); [auto|].
    unfold Compress.drawFrame. destruct (paused o || ended o); simpl; [assumption|].
    destruct (surface s) as [[? ?]|] eqn:Es; [|congruence].
    sampling_ok.
    match goal with E : DrawImage _ _ _ = DrawImage _ _ _ |- _ =>
      injection E as _ <- <- end. apply Hl, Es.
  - destruct (playPending s); [sampling_ok | assumption].
  - destruct (rafPending s) eqn:Ep; [|assumption].
    destruct Htick as (Hst & Hpl & Hsu); [auto|].
    unfold Compress.drawFrame. destruct (paused o || ended o); simpl; [assumption|].
    destruct (surface s) as [[? ?]|] eqn:Es; [|congruence].
    sampling_ok.
    match goal with E : DrawImage _ _ _ = DrawImage _ _ _ |- _ =>
      injection E as _ <- <- end. apply Hl, Es.
  - destruct (onendedSet s); [sampling_ok | assumption].
  - unfold ondataavailable.
    destruct (recorder s); [|assumption]. destruct (nonEmpty c); assumption.
  - destruct (stopQueued s); [sampling_ok | assumption].
  - unfold recorderFails. destruct (recorder s) as [[| |]|]; assumption.
Qed.

Lemma Each_preparatory (l : list Effect) :
  forallb preparatory l = true -> Each samplingOK l.
Proof.
  intros Hall before e after ->.
  rewrite forallb_app in Hall. apply andb_true_iff in Hall.
  destruct Hall as [_ Hall]. simpl in Hall. apply andb_true_iff in Hall.
  destruct Hall as [He _]. unfold preparatory in He.
  destruct e; simpl in He; try discriminate He;
    repeat split; intros; discriminate.
Qed.

Lemma cut_init_order (P : Platform) (file : File) (startTime : Q) :
  let s := Cut.cutVideo P file startTime in
  cutOrder s = true /\ surfaceLogged s /\ forallb preparatory (trace s) = true.
Proof.
  unfold Cut.cutVideo, surfaceLogged.
  destruct (readyAtCreation P) as [[w h]|].
  - unfold Cut.startProcessing. destruct (Cut.dimensions w h).
    destruct (context2d P); simpl;
      destruct (isTypeSupported P "video/webm;codecs=vp9"); simpl;
      try destruct (isTypeSupported P "video/webm"); simpl;
      (split; [reflexivity|]; split; [|reflexivity]);
      intros w' h' E; injection E as <- <-; tauto.
  - simpl. split; [reflexivity|]. split; [|reflexivity]. intros; discriminate.
Qed.

Lemma cut_sampling_run P file startTime endTime evs :
  let s := Cut.run P file startTime endTime evs in
  cutOrder s = true /\ surfaceLogged s /\ Each samplingOK (trace s).
Proof.
  induction evs as [|ev evs IH] using rev_ind.
  - destruct (cut_init_order P file startTime) as (H1 & H2 & H3).
    split; [exact H1|]. split; [exact H2|]. apply Each_preparatory, H3.
  - simpl in *. rewrite cut_run_snoc. destruct IH as (H1 & H2 & H3).
    pose proof (cutGood_shape _ (cutGood_run P file startTime endTime evs)) as Hs.
    split; [apply cutOrder_step; assumption|].
    split; [apply surfaceLogged_cut_step; assumption|].
    apply cut_sampling_step; assumption.
Qed.

Lemma compress_sampling_run P file evs :
  Compress.THRESHOLD <= size file ->
  let s := Compress.run P file evs in
  compressOrder s = true /\ surfaceLogged s /\ Each samplingOK (trace s).
Proof.
  intros Hsz. induction evs as [|ev evs IH] using rev_ind.
  - unfold Compress.run. simpl. rewrite (compress_init_facts file Hsz).
    split; [reflexivity|]. split; [intros w h E; discriminate E|].
    apply Each_preparatory. reflexivity.
  - simpl in *. rewrite compress_run_snoc. destruct IH as (H1 & H2 & H3).
    pose proof (compressGood_shape _ (compressGood_run P file evs Hsz)) as Hs.
    split; [apply compressOrder_step; assumption|].
    split; [apply surfaceLogged_compress_step; assumption|].
    apply compress_sampling_step; assumption.
Qed.

(** X5.  Order of the calls.  In a run of either function the recorder is
    started at most once and [play()] is called at most once, the recorder
    is started before [play()] is called, and no frame is sampled before
    both; every frame is painted at the width and height the canvas was
    created with. *)
Theorem sampling_follows_start_and_play
    (P : Platform) (file : File) (startTime endTime : Q) (evs : list Event) :
  Each samplingOK (trace (Cut.run P file startTime endTime evs)) /\
  Each samplingOK (trace (Compress.run P file evs)).
Proof.
  split.
  - apply cut_sampling_run.
  - destruct (Z.lt_ge_cases (size file) Compress.THRESHOLD) as [Hlt|Hge].
    + rewrite (compress_fast_path_run P file evs Hlt).
      apply Each_preparatory. reflexivity.
    + apply compress_sampling_run, Hge.
Qed.

(* ================================================================= *)
(** ** Progress of [compressVideo] *)

Lemma compress_percent_mono (d t t' : Q) :
  (0 < d)%Q -> (t <= t')%Q ->
  Compress.percent d t <= Compress.percent d t'.
Proof.
  intros Hd Hle. unfold Compress.percent.
  apply Z.min_le_compat_l, Math_round_mono.
  apply Qmult_le_compat_r; [|discriminate].
  unfold Qdiv. apply Qmult_le_compat_r; [exact Hle|].
  apply Qinv_le_0_compat, Qlt_le_weak, Hd.
Qed.

Lemma compress_percent_nonneg (d t : Q) :
  (0 < d)%Q -> (0 <= t)%Q -> 0 <= Compress.percent d t.
Proof.
  intros Hd Ht. unfold Compress.percent. apply Z.min_glb; [lia|].
  change 0 with (Math_round 0). apply Math_round_mono.
  apply Qmult_le_0_compat; [|discriminate].
  unfold Qdiv. apply Qmult_le_0_compat; [exact Ht|].
  apply Qinv_le_0_compat, Qlt_le_weak, Hd.
Qed.

(** Calls added to a trace add their own frame reports, as long as they
    do not begin with a report. *)
Lemma frameReports_app (l new : list Effect) :
  match new with Progress _ :: _ => False | _ => True end ->
  frameReports (l ++ new) = frameReports l ++ frameReports new.
Proof.
  intros Hnew. induction l as [|e l IH]; [reflexivity|].
  destruct e; simpl; try exact IH.
  destruct l as [|e' l]; simpl.
  - destruct new as [|[] new]; simpl; try reflexivity. contradiction.
  - simpl in IH. destruct e'; simpl; rewrite ?IH; try reflexivity.
Qed.

Ltac frames :=
  rewrite <- ?app_assoc; simpl;
  rewrite ?frameReports_app by exact I; simpl; rewrite ?app_nil_r.

Lemma compressProgressOK_later (lo lo' : Q) (s : State) :
  (lo <= lo')%Q -> compressProgressOK lo s -> compressProgressOK lo' s.
Proof.
  unfold compressProgressOK. intros Hle [Hall Hok]. split; [exact Hall|].
  destruct (awaitMetadata s); [exact Hok|].
  destruct Hok as (Hd & Hs & Hf). repeat split; try assumption.
  pose proof (compress_percent_mono (duration s) lo lo' Hd Hle) as Hm.
  eapply Forall_impl; [|exact Hf]. simpl. intros v Hv. lia.
Qed.

Lemma compress_drawFrame_progress lo (o : Obs) (s : State) :
  (0 <= lo)%Q -> (lo <= currentTime o)%Q ->
  awaitMetadata s = false ->
  compressProgressOK lo s ->
  compressProgressOK (currentTime o) (Compress.drawFrame o s).
Proof.
  intros H0 Hle Ha Hok. unfold Compress.drawFrame.
  destruct (paused o || ended o).
  - eapply compressProgressOK_later; eassumption.
  - unfold compressProgressOK in *. destruct Hok as [Hall Hok].
    rewrite Ha in Hok. destruct Hok as (Hd & Hs & Hf).
    pose proof (percent_compress_le_99 (duration s) (currentTime o)) as H99.
    pose proof (compress_percent_mono (duration s) lo _ Hd Hle) as Hm.
    pose proof (compress_percent_nonneg (duration s) (currentTime o) Hd
                  (Qle_trans _ _ _ H0 Hle)) as Hn.
    destruct (surface s) as [[? ?]|]; simpl; rewrite Ha;
      rewrite !progressLog_app; frames.
    all: split;
      [ intros p Hp; apply in_app_or in Hp; destruct Hp as [Hp|[<-|[]]];
        [ destruct (Hall p Hp) as [H|H];
          [left; apply in_or_app; left; exact H | right; exact H]
        | left; apply in_or_app; right; left; reflexivity ]
      | split; [exact Hd|]; split;
        [ apply Sorted_snoc; [exact Hs|];
          eapply Forall_impl; [|exact Hf]; simpl; intros v Hv; lia
        | apply Forall_app; split;
          [ eapply Forall_impl; [|exact Hf]; simpl; intros v Hv; lia
          | constructor; [lia | constructor] ] ] ].
Qed.

Lemma compress_step_quiet P s ev :
  match ev with
  | EvPlayResolved _ | EvFrame _ | EvLoadedMetadata _ _ _ => False
  | _ => True
  end ->
  frameReports (trace (Compress.step P s ev)) = frameReports (trace s) /\
  (forall p, In p (progressLog (trace (Compress.step P s ev))) ->
     In p (progressLog (trace s)) \/ p = 100) /\
  awaitMetadata (Compress.step P s ev) = awaitMetadata s /\
  duration (Compress.step P s ev) = duration s.
Proof.
  intros Hev.
  compress_step_cases s ev; try contradiction;
    rewrite ?progressLog_app; frames;
    repeat split; auto;
    intros p Hp; apply in_app_or in Hp; destruct Hp as [Hp|[<-|[]]]; auto.
Qed.

Lemma compress_metadata_progress P s w h d :
  awaitMetadata s = true ->
  let s' := Compress.step P s (EvLoadedMetadata w h d) in
  progressLog (trace s') = progressLog (trace s) /\
  frameReports (trace s') = frameReports (trace s) /\
  awaitMetadata s' = false /\ duration s' = d.
Proof.
  intros Ha. simpl. rewrite Ha. unfold Compress.onloadedmetadata.
  destruct (context2d P); simpl;
    try destruct (isTypeSupported P "video/webm;codecs=vp8"); simpl;
    rewrite ?progressLog_app; frames; repeat split.
Qed.

Lemma compress_progress_step P lo s ev :
  (0 <= lo)%Q ->
  compressGood s = true ->
  compressProgressOK lo s ->
  clockFrom lo [ev] -> positiveDuration ev ->
  let lo' := match ev with
             | EvPlayResolved o | EvFrame o => currentTime o
             | _ => lo
             end in
  (0 <= lo')%Q /\ compressProgressOK lo' (Compress.step P s ev).
Proof.
  intros H0 Hg Hok Hclock Hpos lo'.
  assert (Hquiet : match ev with
                   | EvPlayResolved _ | EvFrame _ | EvLoadedMetadata _ _ _ => False
                   | _ => True
                   end ->
                   (0 <= lo)%Q /\ compressProgressOK lo (Compress.step P s ev)).
  { intros Hev. split; [exact H0|].
    destruct (compress_step_quiet P s ev Hev) as (Ht & Hl & Ha & Hd).
    unfold compressProgressOK in *. rewrite Ha, Hd, Ht.
    destruct Hok as [Hall Hok]. split; [|exact Hok].
    intros p Hp. destruct (Hl p Hp) as [H|H]; [apply Hall, H | right; exact H]. }
  destruct ev; try (apply Hquiet; exact I); unfold lo'.
  - (* loadedmetadata *)
    split; [exact H0|]. destruct (awaitMetadata s) eqn:Ea.
    + destruct (compress_metadata_progress P s videoWidth videoHeight mediaDuration Ea)
        as (Hl & Hfr & Ha & Hd).
      unfold compressProgressOK in *. rewrite Ea in Hok. destruct Hok as [Hall Hok].
      rewrite Ha, Hd, Hl, Hfr, Hok.
      simpl in Hpos. split; [|repeat split; [exact Hpos | constructor | constructor]].
      rewrite Hok in Hall. exact Hall.
    + simpl. rewrite Ea. exact Hok.
  - (* play() fulfilled *)
    simpl in Hclock. destruct Hclock as [Hle _].
    split; [eapply Qle_trans; eassumption|]. simpl.
    destruct (playPending s) eqn:Ep.
    + destruct (compressGood_loop s Hg (or_intror Ep)) as [Ha _].
      apply compress_drawFrame_progress with (lo := lo); try assumption.
    + eapply compressProgressOK_later; eassumption.
  - (* animation frame *)
    simpl in Hclock. destruct Hclock as [Hle _].
    split; [eapply Qle_trans; eassumption|]. simpl.
    destruct (rafPending s) eqn:Ep.
    + destruct (compressGood_loop s Hg (or_introl Ep)) as [Ha _].
      apply compress_drawFrame_progress with (lo := lo); try assumption.
    + eapply compressProgressOK_later; eassumption.
Qed.

Lemma compress_progress_fold P evs lo s :
  (0 <= lo)%Q ->
  compressGood s = true ->
  compressProgressOK lo s ->
  clockFrom lo evs -> Forall positiveDuration evs ->
  exists lo', compressProgressOK lo' (fold_left (Compress.step P) evs s).
Proof.
  revert lo s.
  induction evs as [|ev evs IH]; intros lo s H0 Hg Hok Hclock Hpos; simpl.
  - exists lo. exact Hok.
  - inversion Hpos as [|? ? Hp1 Hp2]; subst.
    assert (H1 : clockFrom lo [ev]) by (destruct ev; simpl in *; tauto).
    destruct (compress_progress_step P lo s ev H0 Hg Hok H1 Hp1) as [H0' Hok'].
    eapply IH; [exact H0' | apply compressGood_step, Hg | exact Hok' | | exact Hp2].
    destruct ev; simpl in *; tauto.
Qed.

(** X6.  Progress of the compression.  When the source has a positive
    duration and the playback clock read by the ticks starts at 0 or later
    and never runs backwards, the values [compressVideo] reports from its
    ticks, one after each frame it paints, are nondecreasing integers
    between 0 and 99; whatever else it reports is 100. *)
Theorem compress_progress_nondecreasing
    (P : Platform) (file : File) (evs : list Event) :
  clockFrom 0%Q evs -> Forall positiveDuration evs ->
  let made := trace (Compress.run P file evs) in
  Sorted Z.le (frameReports made) /\
  Forall (fun v => 0 <= v <= 99) (frameReports made) /\
  (forall p, In p (progressLog made) -> In p (frameReports made) \/ p = 100).
Proof.
  intros Hclock Hpos made.
  destruct (Z.lt_ge_cases (size file) Compress.THRESHOLD) as [Hlt|Hge].
  - unfold made. rewrite (compress_fast_path_run P file evs Hlt).
    simpl. split; [constructor|]. split; [constructor|].
    intros p [<-|[]]. right. reflexivity.
  - destruct (compress_progress_fold P evs 0%Q (Compress.compressVideo file)
                (Qle_refl _) (compressGood_init file Hge)) as [lo Hok];
      try assumption.
    { rewrite (compress_init_facts file Hge). split; [|reflexivity].
      intros p []. }
    fold (Compress.run P file evs) in Hok. unfold compressProgressOK in Hok.
    fold made in Hok. destruct Hok as [Hall Hok].
    destruct (awaitMetadata (Compress.run P file evs)).
    + rewrite Hok in *. split; [constructor|]. split; [constructor|]. exact Hall.
    + destruct Hok as (_ & Hs & Hf). split; [exact Hs|]. split; [|exact Hall].
      pose proof (percent_compress_le_99 (duration (Compress.run P file evs)) lo).
      eapply Forall_impl; [|exact Hf]. simpl. intros v Hv. lia.
Qed.

Lemma compress_progress_nondecreasing_witness :
  let P := mkPlatform (fun _ => true) true false None in
  let file := mkFile "match.mp4" 30000000 "video/mp4" in
  let tick t := mkObs false false t in
  let evs := [EvLoadedMetadata 1920 1080 10; EvPlayResolved (tick 0%Q);
              EvFrame (tick 4%Q); EvFrame (tick (99 # 10));
              EvFrame (mkObs false true 10%Q); EvEnded; EvTimeout] in
  progressLog (trace (Compress.run P file evs)) = [0; 40; 99; 100] /\
  frameReports (trace (Compress.run P file evs)) = [0; 40; 99] /\
  Sorted Z.le (frameReports (trace (Compress.run P file evs))).
Proof.
  intros P file tick evs. split; [reflexivity|]. split; [reflexivity|].
  apply (compress_progress_nondecreasing P file evs).
  - simpl. repeat split; unfold Qle; simpl; lia.
  - repeat constructor.
Defined.

(* ================================================================= *)
(** ** Time labels *)

Lemma Qfloor_div_60 (x : Q) : Qfloor (x / 60) = Qfloor x / 60.
Proof.
  destruct x as [n d].
  assert (E : (n # d) / 60 == n # (d * 60)).
  { unfold Qeq, Qdiv, Qmult, Qinv. simpl. lia. }
  rewrite (Qfloor_comp _ _ E). unfold Qfloor.
  rewrite Pos2Z.inj_mul. rewrite Z.div_div by lia. reflexivity.
Qed.

Lemma Qfloor_minus_Z (x : Q) (k : Z) :
  Qfloor (x - inject_Z k) = Qfloor x - k.
Proof.
  destruct x as [n d].
  assert (E : (n # d) - inject_Z k == (n + (- k) * Z.pos d) # d).
  { unfold Qeq, Qminus, Qplus, Qopp, inject_Z. simpl. lia. }
  rewrite (Qfloor_comp _ _ E). unfold Qfloor.
  rewrite Z.div_add by lia. lia.
Qed.

Lemma remainder_60_floor (x : Q) :
  (0 <= x)%Q -> Qfloor (remainder x 60) = Qfloor x mod 60.
Proof.
  intros Hx. unfold remainder, Math_trunc.
  assert (H60 : (0 <= x / 60)%Q).
  { unfold Qdiv. apply Qmult_le_0_compat; [exact Hx | discriminate]. }
  apply Qle_bool_iff in H60. rewrite H60.
  assert (E : x - 60 * inject_Z (Qfloor (x / 60))
              == x - inject_Z (60 * Qfloor (x / 60))).
  { rewrite inject_Z_mult. reflexivity. }
  rewrite (Qfloor_comp _ _ E), Qfloor_minus_Z, Qfloor_div_60.
  rewrite Z.mod_eq by lia. reflexivity.
Qed.

Lemma two_digits (r : Z) :
  0 <= r < 60 ->
  padStart 2 "0" (numberToString r)
  = String (digit (r / 10)) (String (digit (r mod 10)) "").
Proof.
  intros Hr.
  assert (Hall : forallb (fun n =>
            String.eqb (padStart 2 "0" (numberToString (Z.of_nat n)))
              (String (digit (Z.of_nat n / 10))
                 (String (digit (Z.of_nat n mod 10)) "")))
            (seq 0 60) = true) by (vm_compute; reflexivity).
  rewrite forallb_forall in Hall.
  specialize (Hall (Z.to_nat r)).
  rewrite Z2Nat.id in Hall by lia.
  apply String.eqb_eq. apply Hall. apply in_seq. lia.
Qed.

(** X7.  Time labels.  For a time of [seconds] from 0 to the largest safe
    integer, [formatTime] shows the whole seconds [f = floor seconds] as
    the minutes [f / 60] in decimal, a colon, and the seconds [f mod 60]
    as exactly two decimal digits; the fraction of a second does not show,
    and the minutes are not wrapped into hours. *)
Theorem formatTime_minutes_and_two_digit_seconds (seconds : Q) :
  (0 <= seconds)%Q -> (seconds <= inject_Z MAX_SAFE_INTEGER)%Q ->
  let f := Qfloor seconds in
  0 <= f <= MAX_SAFE_INTEGER /\
  App.formatTime seconds
  = (numberToString (f / 60) ++ ":" ++
     String (digit (f mod 60 / 10)) (String (digit (f mod 60 mod 10)) ""))%string /\
  App.formatTime seconds = App.formatTime (inject_Z f).
Proof.
  intros Hs Hmax f.
  assert (Hf : 0 <= f).
  { change 0 with (Qfloor 0). apply Qfloor_resp_le, Hs. }
  assert (Hf' : f <= MAX_SAFE_INTEGER).
  { rewrite <- (Qfloor_Z MAX_SAFE_INTEGER). apply Qfloor_resp_le, Hmax. }
  assert (Hfmt : forall x, (0 <= x)%Q ->
            App.formatTime x
            = (numberToString (Qfloor x / 60) ++ ":" ++
               String (digit (Qfloor x mod 60 / 10))
                 (String (digit (Qfloor x mod 60 mod 10)) ""))%string).
  { intros x Hx. unfold App.formatTime, Math_floor.
    rewrite Qfloor_div_60, (remainder_60_floor x Hx).
    rewrite two_digits by (apply Z.mod_pos_bound; lia). reflexivity. }
  split; [split; assumption|]. split; [apply Hfmt, Hs|].
  rewrite (Hfmt seconds Hs), (Hfmt (inject_Z f)).
  - rewrite Qfloor_Z. reflexivity.
  - change 0%Q with (inject_Z 0). rewrite <- Zle_Qle. exact Hf.
Qed.

Lemma formatTime_minutes_and_two_digit_seconds_witness :
  App.formatTime (7325 # 2) = "61:02".
Proof.
  destruct (formatTime_minutes_and_two_digit_seconds (7325 # 2)) as (_ & H & _).
  - unfold Qle. simpl. lia.
  - unfold Qle. simpl. lia.
  - rewrite H. reflexivity.
Defined.

(* ================================================================= *)
(** ** The name of an exported clip *)

Lemma replaceRuns_clean (s : CodeUnits) (inRun : bool) :
  noWhiteSpace (replaceRuns inRun s).
Proof.
  revert inRun. induction s as [|c rest IH]; intros inRun; simpl.
  - constructor.
  - destruct (isWhiteSpace c) eqn:Ec.
    + destruct inRun; [apply IH|]. constructor; [reflexivity | apply IH].
    + constructor; [exact Ec | apply IH].
Qed.

Lemma replaceRuns_fixed (s : CodeUnits) (inRun : bool) :
  noWhiteSpace s -> replaceRuns inRun s = s.
Proof.
  intros H. revert inRun. induction H as [|c rest Hc _ IH]; intros inRun; simpl.
  - reflexivity.
  - rewrite Hc, IH. reflexivity.
Qed.

Lemma replaceRuns_length (s : CodeUnits) (inRun : bool) :
  (List.length (replaceRuns inRun s) <= List.length s)%nat.
Proof.
  revert inRun. induction s as [|c rest IH]; intros inRun; simpl.
  - lia.
  - pose proof (IH true). pose proof (IH false).
    destruct (isWhiteSpace c); [destruct inRun|]; simpl; lia.
Qed.

Lemma replaceRuns_visible (s : CodeUnits) (inRun : bool) :
  visible (replaceRuns inRun s) = visible s.
Proof.
  revert inRun. induction s as [|c rest IH]; intros inRun; simpl.
  - reflexivity.
  - destruct (isWhiteSpace c) eqn:Ec.
    + destruct inRun; simpl; apply IH.
    + simpl. rewrite Ec. simpl. destruct (c =? underscore); simpl;
        rewrite IH; reflexivity.
Qed.

Lemma noWhiteSpace_app (a b : CodeUnits) :
  noWhiteSpace a -> noWhiteSpace b -> noWhiteSpace (a ++ b).
Proof. intros Ha Hb. apply Forall_app. split; assumption. Qed.

Lemma suffix_clean : noWhiteSpace (codeUnits "_highlight.webm").
Proof. repeat constructor. Qed.

Lemma replaceRuns_visible_prefix (pre rest : CodeUnits) (inRun : bool) :
  noWhiteSpace pre ->
  replaceRuns inRun (pre ++ rest)
  = pre ++ replaceRuns (match pre with [] => inRun | _ :: _ => false end) rest.
Proof.
  intros H. revert inRun. induction H as [|c pre Hc _ IH]; intros inRun; simpl.
  - reflexivity.
  - rewrite Hc, IH. destruct pre; reflexivity.
Qed.

Lemma replaceRuns_in_run (ws rest : CodeUnits) :
  Forall (fun c => isWhiteSpace c = true) ws ->
  replaceRuns true (ws ++ rest) = replaceRuns true rest.
Proof.
  intros H. induction H as [|c ws Hc _ IH]; simpl; [reflexivity|].
  rewrite Hc. exact IH.
Qed.

Lemma replaceRuns_after_run (rest : CodeUnits) :
  startsVisible rest -> replaceRuns true rest = replaceRuns false rest.
Proof.
  destruct rest as [|c rest]; simpl; [reflexivity|].
  intros Hc. rewrite Hc. reflexivity.
Qed.

Lemma replaceWhiteSpace_run (pre ws rest : CodeUnits) :
  noWhiteSpace pre -> whiteSpaceRun ws -> startsVisible rest ->
  replaceWhiteSpace (pre ++ ws ++ rest)
  = pre ++ [underscore] ++ replaceWhiteSpace rest.
Proof.
  intros Hpre [Hne Hws] Hrest. unfold replaceWhiteSpace.
  rewrite (replaceRuns_visible_prefix pre (ws ++ rest) false Hpre).
  replace (match pre with [] => false | _ :: _ => false end) with false
    by (destruct pre; reflexivity).
  destruct ws as [|w ws]; [contradiction|].
  inversion Hws as [|? ? Hw Hws']; subst. simpl. rewrite Hw.
  rewrite (replaceRuns_in_run ws rest Hws').
  rewrite (replaceRuns_after_run rest Hrest). reflexivity.
Qed.

(** X8.  The name of an exported clip.  In the title every maximal run of
    white space becomes one underscore, and nothing else changes: up to
    its first run the title is kept, the run gives one underscore, and
    the rest is cleaned in the same way; a title without white space is
    used unchanged, so a path separator or any other character a file
    name should not hold is passed on.  The download name is the cleaned
    title followed by "_highlight.webm"; it holds no white space and is
    no longer than the title and the suffix.  Cleaning a clean title
    changes nothing. *)
Theorem download_name_has_no_white_space (title : CodeUnits) :
  let cleaned := replaceWhiteSpace title in
  downloadName title = cleaned ++ codeUnits "_highlight.webm" /\
  (forall pre ws rest,
     title = pre ++ ws ++ rest ->
     noWhiteSpace pre -> whiteSpaceRun ws -> startsVisible rest ->
     cleaned = pre ++ [underscore] ++ replaceWhiteSpace rest) /\
  (noWhiteSpace title -> cleaned = title) /\
  noWhiteSpace (downloadName title) /\
  (List.length (downloadName title) <= List.length title + 15)%nat /\
  visible cleaned = visible title /\
  replaceWhiteSpace cleaned = cleaned.
Proof.
  intros cleaned. split; [reflexivity|]. split.
  { intros pre ws rest -> Hpre Hws Hrest.
    apply replaceWhiteSpace_run; assumption. }
  unfold downloadName, cleaned, replaceWhiteSpace.
  split; [|split; [|split; [|split]]].
  - apply replaceRuns_fixed.
  - apply noWhiteSpace_app; [apply replaceRuns_clean | apply suffix_clean].
  - rewrite List.length_app. pose proof (replaceRuns_length title false).
    change (List.length (codeUnits "_highlight.webm")) with 15%nat. lia.
  - apply replaceRuns_visible.
  - apply replaceRuns_fixed, replaceRuns_clean.
Qed.

Lemma download_name_has_no_white_space_witness :
  replaceWhiteSpace (codeUnits "top" ++ [32; 9; 160] ++ codeUnits "goal/1")
  = codeUnits "top_goal/1".
Proof.
  destruct (download_name_has_no_white_space
              (codeUnits "top" ++ [32; 9; 160] ++ codeUnits "goal/1"))
    as (_ & Hrun & _).
  rewrite (Hrun (codeUnits "top") [32; 9; 160] (codeUnits "goal/1") eq_refl).
  - destruct (download_name_has_no_white_space (codeUnits "goal/1"))
      as (_ & _ & Hfixed & _).
    rewrite Hfixed; [reflexivity | repeat constructor].
  - repeat constructor.
  - split; [discriminate | repeat constructor].
  - reflexivity.
Defined.

(* ================================================================= *)
(** ** The analysis service *)

Lemma noComma_cons (c : ascii) (s : string) :
  noComma (String c s) -> c <> ","%char /\ noComma s.
Proof.
  unfold noComma. simpl. intros H. split.
  - intros E. apply H. left. exact E.
  - intros E. apply H. right. exact E.
Qed.

Lemma split_no_comma (s : string) : noComma s -> split "," s = [s].
Proof.
  induction s as [|c rest IH]; intros H; simpl.
  - reflexivity.
  - apply noComma_cons in H. destruct H as [Hc Hrest].
    destruct (Ascii.eqb c ",") eqn:E.
    + apply Ascii.eqb_eq in E. contradiction.
    + rewrite (IH Hrest). reflexivity.
Qed.

Lemma split_comma (a rest : string) :
  noComma a -> split "," (a ++ String "," rest)%string = a :: split "," rest.
Proof.
  induction a as [|c a IH]; intros H; simpl.
  - reflexivity.
  - apply noComma_cons in H. destruct H as [Hc Ha].
    destruct (Ascii.eqb c ",") eqn:E.
    + apply Ascii.eqb_eq in E. contradiction.
    + rewrite (IH Ha). reflexivity.
Qed.

Lemma split_nonempty (sep : ascii) (s : string) : split sep s <> [].
Proof.
  destruct s as [|c rest]; simpl; [discriminate|].
  destruct (Ascii.eqb c sep); [discriminate|].
  destruct (split sep rest); discriminate.
Qed.

(** X9.  The payload of the data URL.  [fileToGenerativePart] sends the
    text between the first and the second comma of the reader's result
    (to the end, when there is one comma only).  For a result made of a
    header and a payload without commas this is the payload; a media type
    with a comma in it (such as a list of codecs) makes it a piece of the
    header instead, and a result without a comma leaves [data] undefined. *)
Theorem data_is_the_piece_after_the_first_comma
    (file : Blob) (header payload : string) :
  noComma header -> noComma payload ->
  Gemini.data (Gemini.fileToGenerativePart file
                 (header ++ "," ++ payload)%string) = Some payload /\
  (forall rest,
     Gemini.data (Gemini.fileToGenerativePart file
                    (header ++ "," ++ payload ++ "," ++ rest)%string)
     = Some payload) /\
  Gemini.data (Gemini.fileToGenerativePart file header) = None.
Proof.
  intros Hh Hp. unfold Gemini.fileToGenerativePart. simpl.
  split; [|split].
  - rewrite (split_comma header payload Hh), (split_no_comma payload Hp).
    reflexivity.
  - intros rest.
    rewrite (split_comma header _ Hh), (split_comma payload rest Hp).
    reflexivity.
  - rewrite (split_no_comma header Hh). reflexivity.
Qed.

Lemma data_is_the_piece_after_the_first_comma_witness :
  Gemini.data (Gemini.fileToGenerativePart
                 (NewBlob [] "video/webm;codecs=vp8,opus")
                 "data:video/webm;codecs=vp8,opus;base64,GkXfow==")
  = Some "opus;base64".
Proof.
  apply (data_is_the_piece_after_the_first_comma
           (NewBlob [] "video/webm;codecs=vp8,opus")
           "data:video/webm;codecs=vp8" "opus;base64").
  - unfold noComma. simpl. intuition discriminate.
  - unfold noComma. simpl. intuition discriminate.
Defined.

(** X10.  The media type of what is analysed.  Whatever [compressVideo]
    resolves with, the [mimeType] sent with it is never empty: for a file
    under the threshold it is the file's own type, or "video/mp4" when the
    file has none; for a re-encoded file it is "video/webm" (the type
    given to the blob, without the codec asked of the recorder). *)
Theorem analysed_media_type
    (P : Platform) (file : File) (evs : list Event) (b : Blob)
    (base64String : string) :
  promise (Compress.run P file evs) = Resolved b ->
  let sent := Gemini.mimeType (Gemini.fileToGenerativePart b base64String) in
  sent <> "" /\
  (size file < Compress.THRESHOLD ->
   b = OfFile file /\
   sent = if String.eqb (mime file) "" then "video/mp4" else mime file) /\
  (Compress.THRESHOLD <= size file -> sent = "video/webm").
Proof.
  intros Hb sent.
  assert (Hne : forall x, orElse x "video/mp4" <> "").
  { intros x. unfold orElse. destruct (String.eqb x "") eqn:E.
    - discriminate.
    - apply String.eqb_neq. exact E. }
  split; [apply Hne|]. split.
  - intros Hsz. rewrite (compress_fast_path_run P file evs Hsz) in Hb.
    simpl in Hb. injection Hb as <-. split; reflexivity.
  - intros Hsz.
    destruct (compress_resolved_by_finalize P file evs b Hsz Hb)
      as (pre & post & _ & ->).
    reflexivity.
Qed.

Lemma analysed_media_type_witness :
  Gemini.mimeType
    (Gemini.fileToGenerativePart (OfFile (mkFile "a.mov" 1000 "")) "data:")
  = "video/mp4".
Proof.
  destruct (analysed_media_type
              {| isTypeSupported := fun _ => true; context2d := true;
                 stopInactiveThrows := true; readyAtCreation := None |}
              (mkFile "a.mov" 1000 "") [] (OfFile (mkFile "a.mov" 1000 ""))
              "data:" eq_refl) as (_ & H & _).
  destruct H as [_ H]; [reflexivity|]. exact H.
Defined.

Lemma numberToString_inj (a b : Z) :
  numberToString a = numberToString b -> a = b.
Proof.
  unfold numberToString. intros H.
  apply (f_equal NilZero.int_of_string) in H.
  assert (Hn : forall z, Z.to_int z <> Pos Nil /\ Z.to_int z <> Neg Nil).
  { intros [|p|p]; simpl; split; try discriminate;
      intros E; injection E as E; exact (Unsigned.to_uint_nonnil p E). }
  rewrite !NilZero.isi in H by apply Hn.
  injection H as H. apply DecimalZ.to_int_inj. exact H.
Qed.

Lemma digits_noDash (d : uint) : noDash (NilEmpty.string_of_uint d).
Proof.
  unfold noDash.
  induction d; simpl; [tauto| | | | | | | | | |];
    (intros [E|E]; [discriminate E | exact (IHd E)]).
Qed.

Lemma index_noDash (index : nat) : noDash (numberToString (Z.of_nat index)).
Proof.
  unfold numberToString. destruct (Z.of_nat index) as [|p|p] eqn:E.
  - unfold noDash. simpl. intuition discriminate.
  - simpl. unfold NilZero.string_of_uint.
    destruct (Pos.to_uint p) eqn:Ep; try (rewrite <- Ep; apply digits_noDash).
    unfold noDash. simpl. intuition discriminate.
  - lia.
Qed.

Lemma prefix_before_dash (a b x y : string) :
  noDash a -> noDash b ->
  (a ++ String "-" x)%string = (b ++ String "-" y)%string -> a = b.
Proof.
  unfold noDash. revert b.
  induction a as [|c a IH]; intros [|d b] Ha Hb E; simpl in *.
  - reflexivity.
  - injection E as E _. exfalso. apply Hb. left. symmetry. exact E.
  - injection E as E _. exfalso. apply Ha. left. exact E.
  - injection E as E1 E2. subst d. f_equal.
    apply (IH b); [tauto | tauto | exact E2].
Qed.

Lemma clipId_index (i j : nat) (t u : Z) :
  Gemini.clipId i t = Gemini.clipId j u -> i = j.
Proof.
  unfold Gemini.clipId. intros E. simpl in E.
  injection E as E.
  apply prefix_before_dash in E; try apply index_noDash.
  apply numberToString_inj in E. lia.
Qed.

Lemma mapFrom_length {A B : Type} (f : A -> nat -> B) (index : nat) (l : list A) :
  List.length (mapFrom f index l) = List.length l.
Proof.
  revert index. induction l as [|x rest IH]; intros index; simpl;
    [reflexivity | rewrite IH; reflexivity].
Qed.

Lemma withIds_from_ids (now : nat -> Z) (parsed : list ParsedClip) (k : nat) (x : string) :
  In x (map Types.id (mapFrom (fun clip index =>
             Types.mkClip (Gemini.clipId index (now index))
                    (parsedStartTime clip) (parsedEndTime clip)
                    (parsedTitle clip) (parsedDescription clip)
                    (parsedReasoning clip)) k parsed)) ->
  exists i, (k <= i)%nat /\ x = Gemini.clipId i (now i).
Proof.
  revert k. induction parsed as [|c rest IH]; intros k; simpl.
  - contradiction.
  - intros [E|E].
    + exists k. split; [lia | symmetry; exact E].
    + destruct (IH (S k) E) as (i & Hi & Hx). exists i. split; [lia | exact Hx].
Qed.

Lemma withIds_from_NoDup (now : nat -> Z) (parsed : list ParsedClip) (k : nat) :
  NoDup (map Types.id (mapFrom (fun clip index =>
             Types.mkClip (Gemini.clipId index (now index))
                    (parsedStartTime clip) (parsedEndTime clip)
                    (parsedTitle clip) (parsedDescription clip)
                    (parsedReasoning clip)) k parsed)).
Proof.
  revert k. induction parsed as [|c rest IH]; intros k; simpl.
  - constructor.
  - constructor; [|apply IH].
    intros Hin. apply withIds_from_ids in Hin. destruct Hin as (i & Hi & E).
    apply clipId_index in E. lia.
Qed.

Lemma withIds_from_forget (now : nat -> Z) (parsed : list ParsedClip) (k : nat) :
  map forget (mapFrom (fun clip index =>
             Types.mkClip (Gemini.clipId index (now index))
                    (parsedStartTime clip) (parsedEndTime clip)
                    (parsedTitle clip) (parsedDescription clip)
                    (parsedReasoning clip)) k parsed) = parsed.
Proof.
  revert k. induction parsed as [|[] rest IH]; intros k; simpl.
  - reflexivity.
  - rewrite IH. reflexivity.
Qed.

(** X11.  The ids of the clips.  Whatever the clock reads while the clips
    are mapped, the clips [analyzeVideo] returns have pairwise different
    ids, none of them empty; they are the clips of the parsed answer, as
    many and in the same order, with their fields unchanged. *)
Theorem clip_ids_are_distinct (now : nat -> Z) (parsed : list ParsedClip) :
  let clips := Gemini.withIds now parsed in
  NoDup (map Types.id clips) /\
  Forall (fun c => Types.id c <> "") clips /\
  List.length clips = List.length parsed /\
  map forget clips = parsed.
Proof.
  unfold Gemini.withIds. split; [|split; [|split]].
  - apply withIds_from_NoDup.
  - apply Forall_forall. intros c Hc. apply (in_map Types.id) in Hc.
    apply withIds_from_ids in Hc. destruct Hc as (i & _ & ->).
    unfold Gemini.clipId. simpl. discriminate.
  - apply mapFrom_length.
  - apply withIds_from_forget.
Qed.

(* ================================================================= *)
(** ** The application component *)

(** A handler only adds to the trace of its run. *)
Lemma compress_step_extends (P : Platform) (s : State) (ev : Event) :
  exists new, trace (Compress.step P s ev) = trace s ++ new.
Proof.
  compress_step_cases s ev;
    first [ exists []; rewrite app_nil_r; reflexivity
          | eexists; rewrite <- ?app_assoc; reflexivity ].
Qed.

Arguments Compress.step : simpl never.
Arguments Compress.compressVideo : simpl never.
Arguments Cut.step : simpl never.
Arguments Cut.cutVideo : simpl never.
Arguments Cut.run : simpl never.
Arguments Compress.run : simpl never.
Arguments App.reports : simpl never.
Arguments Gemini.result : simpl never.
Arguments downloadName : simpl never.
Arguments codeUnits : simpl never.

Lemma onProgress_twice (p q : Z) (s : App.State) :
  App.onProgress q (App.onProgress p s) = App.onProgress q s.
Proof. reflexivity. Qed.

(** Of the calls of the progress callback only the last one shows. *)
Lemma callbacks_last (ps : list Z) (s : App.State) :
  App.callbacks ps s
  = match ps with
    | [] => s
    | _ :: _ => App.onProgress (last ps 0) s
    end.
Proof.
  revert s. induction ps as [|p ps IH]; intros s; [reflexivity|].
  change (App.callbacks (p :: ps) s) with (App.callbacks ps (App.onProgress p s)).
  rewrite IH. destruct ps as [|q ps]; [reflexivity|].
  rewrite onProgress_twice. reflexivity.
Qed.

(** Case analysis on a step of the component: the event, whether it is
    offered, and the branches its handler takes. *)
Ltac app_handlers :=
  unfold App.handle, App.handleFileUpload, App.handleAnalyze,
    App.onCompression, App.afterCompression, App.analysisDone,
    App.analysisFailed, App.handleExportClip, App.onCutting, App.afterCut,
    App.handleDownloadMarkdown, App.handleDownloadEDL, App.card;
  cbv zeta; simpl.

Ltac app_branch :=
  match goal with
  | |- context [App.callbacks _ _] => rewrite callbacks_last
  | |- context [match App.reports ?a ?b with _ => _ end] =>
      destruct (App.reports a b)
  | |- context [match promise ?r with _ => _ end] =>
      let E := fresh "Epromise" in destruct (promise r) eqn:E
  | |- context [match nth_error ?l ?i with _ => _ end] =>
      let E := fresh "Ecard" in destruct (nth_error l i) eqn:E
  | |- context [if truthy ?x then _ else _] =>
      let E := fresh "Etruthy" in destruct (truthy x) eqn:E
  | |- context [match ?x with _ => _ end] => is_var x; destruct x
  end.

Ltac app_branches := repeat (app_branch; cbv zeta; simpl in * ).

Ltac app_done :=
  try reflexivity; try assumption; try congruence;
  repeat match goal with
  | x : ProcessingStatus |- _ => destruct x; simpl in *; try congruence
  | x : App.Awaiting |- _ => destruct x; simpl in *; try congruence
  | x : option File |- _ => destruct x; simpl in *; try congruence
  end.

Lemma consistent_step (P : Platform) (s : App.State) (ev : App.Event) :
  consistent s = true -> consistent (App.step P s ev) = true.
Proof.
  destruct s as [st msg vf vu res ac ct du sm pr ex aw co cu ca].
  unfold consistent, App.step. simpl. intros Hs.
  destruct (App.offered _ ev) eqn:Hoff; [|exact Hs].
  destruct ev; simpl in Hoff; app_handlers; app_branches; app_done.
Qed.

Lemma app_run_snoc (P : Platform) (evs : list App.Event) (ev : App.Event) :
  App.run P (evs ++ [ev]) = App.step P (App.run P evs) ev.
Proof. unfold App.run. rewrite fold_left_app. reflexivity. Qed.

Lemma app_run_app (P : Platform) (evs more : list App.Event) :
  App.run P (evs ++ more) = fold_left (App.step P) more (App.run P evs).
Proof. unfold App.run. rewrite fold_left_app. reflexivity. Qed.

Lemma consistent_run (P : Platform) (evs : list App.Event) :
  consistent (App.run P evs) = true.
Proof.
  induction evs as [|ev evs IH] using rev_ind; [reflexivity|].
  rewrite app_run_snoc. apply consistent_step, IH.
Qed.

Lemma final_step (P : Platform) (s : App.State) (ev : App.Event) :
  consistent s = true -> final (App.status s) = true ->
  App.status (App.step P s ev) = App.status s.
Proof.
  destruct s as [st msg vf vu res ac ct du sm pr ex aw co cu ca].
  unfold consistent, App.step. simpl. intros Hs Hf.
  destruct (App.offered _ ev) eqn:Hoff; [|reflexivity].
  destruct ev; simpl in Hoff; app_handlers; app_branches; app_done.
Qed.

Lemma final_fold (P : Platform) (more : list App.Event) (s : App.State) :
  consistent s = true -> final (App.status s) = true ->
  App.status (fold_left (App.step P) more s) = App.status s.
Proof.
  revert s. induction more as [|ev more IH]; intros s Hs Hf; simpl; [reflexivity|].
  pose proof (final_step P s ev Hs Hf) as E.
  rewrite IH; [exact E | apply consistent_step, Hs | rewrite E; exact Hf].
Qed.

(** X13.  The end of an analysis.  Once the status is [COMPLETED] or
    [ERROR] it stays what it is, whatever the user and the browser do
    next: the analyse button is offered in [IDLE] only, and the file input
    only before a file is chosen.  After a failure, whose message asks to
    try again, there is nothing in the page to try again with. *)
Theorem final_status_is_final
    (P : Platform) (evs more : list App.Event) :
  let s := App.run P evs in
  App.status s = COMPLETED \/ App.status s = ERROR ->
  App.status (App.run P (evs ++ more)) = App.status s /\
  forall ev, App.offered (App.run P (evs ++ more)) ev = true ->
             ev <> App.Analyze /\ forall file, ev <> App.Upload file.
Proof.
  intros s Hs.
  assert (Hf : final (App.status s) = true).
  { destruct Hs as [E|E]; rewrite E; reflexivity. }
  assert (Hst : App.status (App.run P (evs ++ more)) = App.status s).
  { rewrite app_run_app. apply final_fold; [apply consistent_run | exact Hf]. }
  split; [exact Hst|].
  intros ev Hoff.
  pose proof (consistent_run P (evs ++ more)) as Hc.
  unfold consistent in Hc. rewrite Hst in *.
  split; [|intros file]; intros ->; simpl in Hoff;
    destruct (App.status s); try discriminate;
    destruct (App.videoFile (App.run P (evs ++ more)));
    destruct (App.awaiting (App.run P (evs ++ more)));
    simpl in *; try discriminate; rewrite ?Hst in Hoff; try discriminate.
Qed.

Lemma final_status_is_final_witness :
  let P := {| isTypeSupported := fun _ => true; context2d := true;
              stopInactiveThrows := true; readyAtCreation := None |} in
  let file := mkFile "a.mp4" 1000 "video/mp4" in
  App.status (App.run P ([App.Upload (Some file); App.Analyze; App.AnalysisFailed]
                         ++ [App.Analyze; App.Upload (Some file)])) = ERROR.
Proof.
  intros P file.
  destruct (final_status_is_final P
              [App.Upload (Some file); App.Analyze; App.AnalysisFailed]
              [App.Analyze; App.Upload (Some file)]) as [H _].
  - right. vm_compute. reflexivity.
  - rewrite H. vm_compute. reflexivity.
Defined.

Lemma analysed_snoc (l : list App.Call) (c : App.Call) :
  analysed (l ++ [c])
  = analysed l ++ match c with App.AnalyzeVideo b => [b] | _ => [] end.
Proof. unfold analysed. rewrite flat_map_app. simpl. rewrite app_nil_r. reflexivity. Qed.

(** The other events leave what [handleAnalyze] works with alone. *)
Lemma analysis_frame (P : Platform) (s : App.State) (ev : App.Event) :
  ofAnalysis ev = false ->
  let s' := App.step P s ev in
  App.status s' = App.status s /\ App.awaiting s' = App.awaiting s /\
  App.videoFile s' = App.videoFile s /\ App.compression s' = App.compression s /\
  App.result s' = App.result s /\
  analysed (App.calls s') = analysed (App.calls s).
Proof.
  destruct s as [st msg vf vu res ac ct du sm pr ex aw co cu ca].
  unfold App.step. intros Hev.
  destruct (App.offered _ ev) eqn:Hoff; [|repeat split].
  destruct ev; try discriminate Hev; simpl in Hoff; app_handlers; app_branches;
    rewrite ?analysed_snoc; simpl; rewrite ?app_nil_r; repeat split.
Qed.

Lemma compress_step_settled (P : Platform) (s : State) (ev : Event) :
  promise s <> Pending -> promise (Compress.step P s ev) = promise s.
Proof.
  intros H. destruct (compress_step_promise P s ev) as [E|[E _]]; congruence.
Qed.

Lemma analysisOK_step (P : Platform) (s : App.State) (ev : App.Event) :
  consistent s = true -> analysisOK P s -> analysisOK P (App.step P s ev).
Proof.
  intros Hc H.
  destruct (ofAnalysis ev) eqn:Hev.
  2: { destruct (analysis_frame P s ev Hev) as (E1 & E2 & E3 & E4 & E5 & E6).
       unfold analysisOK. rewrite E1, E2, E3, E4, E5, E6. exact H. }
  destruct s as [st msg vf vu res ac ct du sm pr ex aw co cu ca].
  unfold analysisOK, consistent, App.step in *. simpl in *.
  destruct (App.offered _ ev) eqn:Hoff; [|exact H].
  destruct ev; try discriminate Hev; simpl in Hoff.
  - (* Upload *)
    destruct vf; [discriminate|]. destruct co as [run|].
    + destruct H as (f0 & _ & E & _). discriminate E.
    + destruct file; simpl; [|exact H].
      destruct H as (_ & Ha & Hn). rewrite analysed_snoc, Hn. repeat split.
      exact Ha.
  - (* Analyze *)
    destruct vf as [file|]; [|discriminate]. simpl in Hoff.
    destruct co as [run|].
    + destruct H as (file' & cevs & _ & _ & H).
      destruct (promise run); destruct st; try discriminate;
        destruct H as (H1 & H2 & H3); try discriminate;
        destruct H2 as [H2|H2]; discriminate.
    + destruct H as (Hst & Ha & Hn).
      unfold App.handle, App.handleAnalyze, App.afterCompression. cbv zeta. simpl.
      rewrite callbacks_last.
      destruct (App.reports _ _); simpl;
        destruct (promise (Compress.compressVideo file)) eqn:Ep; simpl;
        exists file, []; (split; [reflexivity|]); (split; [reflexivity|]);
        rewrite Ep; rewrite ?analysed_snoc, ?Hn; simpl;
        repeat split; try discriminate; auto.
  - (* Compression *)
    destruct co as [run|]; [|discriminate].
    destruct H as (file & cevs & Hvf & Hrun & H).
    unfold App.handle, App.onCompression, App.afterCompression. cbv zeta. simpl.
    rewrite callbacks_last.
    assert (Hrun' : Compress.step P run ev = Compress.run P file (cevs ++ [ev])).
    { rewrite compress_run_snoc, Hrun. reflexivity. }
    destruct (promise run) eqn:Ep.
    + destruct H as (Ha & Hst & Hn). subst aw st.
      destruct (App.reports _ _); simpl;
        destruct (promise (Compress.step P run ev)) eqn:Ep'; simpl;
        exists file, (cevs ++ [ev]); (split; [exact Hvf|]); (split; [exact Hrun'|]);
        rewrite Ep'; rewrite ?analysed_snoc, ?Hn; simpl;
        repeat split; try discriminate; auto.
    + assert (Ep' : promise (Compress.step P run ev) = Resolved b).
      { rewrite compress_step_settled; [exact Ep | rewrite Ep; discriminate]. }
      destruct H as (Ha & Hst & Hres & Hn).
      destruct (App.reports _ _); simpl; destruct aw; try congruence; simpl;
        exists file, (cevs ++ [ev]); (split; [exact Hvf|]); (split; [exact Hrun'|]);
        rewrite Ep'; repeat split; try discriminate; auto.
    + assert (Ep' : promise (Compress.step P run ev) = Rejected e).
      { rewrite compress_step_settled; [exact Ep | rewrite Ep; discriminate]. }
      destruct H as (Ha & Hst & Hn). subst aw st.
      destruct (App.reports _ _); simpl;
        exists file, (cevs ++ [ev]); (split; [exact Hvf|]); (split; [exact Hrun'|]);
        rewrite Ep'; repeat split; auto.
  - (* AnalysisDone *)
    unfold App.handle, App.analysisDone. simpl.
    destruct aw; try discriminate. destruct co as [run|].
    + destruct H as (file & cevs & Hvf & Hrun & H).
      exists file, cevs. split; [exact Hvf|]. split; [exact Hrun|].
      destruct (promise run).
      * destruct H as (H & _). discriminate H.
      * destruct H as (_ & _ & _ & Hn). repeat split; try discriminate; auto.
      * destruct H as (H & _). discriminate H.
    + destruct H as (_ & H & _). discriminate H.
  - (* AnalysisFailed *)
    unfold App.handle, App.analysisFailed. simpl.
    destruct aw; try discriminate. destruct co as [run|].
    + destruct H as (file & cevs & Hvf & Hrun & H).
      exists file, cevs. split; [exact Hvf|]. split; [exact Hrun|].
      destruct (promise run).
      * destruct H as (H & _). discriminate H.
      * destruct H as (_ & _ & _ & Hn). rewrite analysed_snoc, Hn.
        repeat split; try discriminate; auto.
      * destruct H as (H & _). discriminate H.
    + destruct H as (_ & H & _). discriminate H.
Qed.

Lemma analysisOK_run (P : Platform) (evs : list App.Event) :
  analysisOK P (App.run P evs).
Proof.
  induction evs as [|ev evs IH] using rev_ind.
  - repeat split.
  - rewrite app_run_snoc. apply analysisOK_step; [apply consistent_run | exact IH].
Qed.

Lemma analysed_In (l : list App.Call) (b : Blob) :
  In (App.AnalyzeVideo b) l -> In b (analysed l).
Proof.
  intros H. unfold analysed. apply in_flat_map.
  exists (App.AnalyzeVideo b). split; [exact H | left; reflexivity].
Qed.

(** X14.  What is analysed.  In any run of the component [analyzeVideo] is
    called at most once, and with what the promise of [compressVideo]
    resolved with, for the file that was uploaded: the file itself when it
    is under the threshold, and otherwise the "video/webm" blob made of
    the chunks gathered up to the recorder's [stop] event.  The status is
    [ANALYZING] or [COMPLETED] only after that call, [COMPLETED] comes
    with a result, and when [compressVideo] rejects the status is [ERROR]
    and [analyzeVideo] is never called. *)
Theorem analysis_follows_compression (P : Platform) (evs : list App.Event) :
  let s := App.run P evs in
  (forall b, In (App.AnalyzeVideo b) (App.calls s) ->
     analysed (App.calls s) = [b] /\
     exists file cevs,
       App.videoFile s = Some file /\
       App.compression s = Some (Compress.run P file cevs) /\
       promise (Compress.run P file cevs) = Resolved b /\
       (size file < Compress.THRESHOLD -> b = OfFile file) /\
       (Compress.THRESHOLD <= size file ->
        exists pre post,
          cevs = pre ++ EvStop :: post /\
          b = NewBlob (chunks (Compress.run P file pre)) "video/webm")) /\
  (App.status s = ANALYZING \/ App.status s = COMPLETED ->
   exists b, analysed (App.calls s) = [b]) /\
  (App.status s = COMPLETED -> App.result s <> None) /\
  (forall run e, App.compression s = Some run -> promise run = Rejected e ->
     App.status s = ERROR /\ analysed (App.calls s) = []).
Proof.
  intros s. pose proof (analysisOK_run P evs) as H. fold s in H.
  unfold analysisOK in H.
  destruct (App.compression s) as [run|] eqn:Eco.
  - destruct H as (file & cevs & Hvf & Hrun & H).
    destruct (promise run) as [|b0|e0] eqn:Ep.
    + destruct H as (Ha & Hst & Hn). split; [|split; [|split]].
      * intros b Hb. apply analysed_In in Hb. rewrite Hn in Hb. contradiction.
      * rewrite Hst. intros [E|E]; discriminate E.
      * rewrite Hst. intros E. discriminate E.
      * intros run' e E. injection E as <-. congruence.
    + destruct H as (Ha & Hst & Hres & Hn). split; [|split; [|split]].
      * intros b Hb. apply analysed_In in Hb. rewrite Hn in Hb.
        destruct Hb as [<-|[]]. split; [exact Hn|].
        exists file, cevs. subst run. repeat split; try assumption.
        -- intros Hsz. rewrite (compress_fast_path_run P file cevs Hsz) in Ep.
           simpl in Ep. injection Ep as <-. reflexivity.
        -- intros Hsz. exact (compress_resolved_by_finalize P file cevs b0 Hsz Ep).
      * intros _. exists b0. exact Hn.
      * exact Hres.
      * intros run' e E. injection E as <-. congruence.
    + destruct H as (Ha & Hst & Hn). split; [|split; [|split]].
      * intros b Hb. apply analysed_In in Hb. rewrite Hn in Hb. contradiction.
      * rewrite Hst. intros [E|E]; discriminate E.
      * rewrite Hst. intros E. discriminate E.
      * intros _ _ _ _. split; assumption.
  - destruct H as (Hst & Ha & Hn). split; [|split; [|split]].
    + intros b Hb. apply analysed_In in Hb. rewrite Hn in Hb. contradiction.
    + rewrite Hst. intros [E|E]; discriminate E.
    + rewrite Hst. intros E. discriminate E.
    + intros run e E. discriminate E.
Qed.

Lemma analysis_follows_compression_witness :
  let P := {| isTypeSupported := fun _ => true; context2d := true;
              stopInactiveThrows := true; readyAtCreation := None |} in
  let file := mkFile "a.mp4" 1000 "video/mp4" in
  analysed (App.calls (App.run P [App.Upload (Some file); App.Analyze]))
  = [OfFile file].
Proof.
  intros P file.
  destruct (analysis_follows_compression P [App.Upload (Some file); App.Analyze])
    as (H & _).
  destruct (H (OfFile file)) as (E & _).
  - vm_compute. right. right. left. reflexivity.
  - exact E.
Defined.

(** X15.  A small file.  When a file under the threshold is loaded and the
    status is [IDLE], the click on the analyse button goes all the way to
    the analysis before anything else happens: [compressVideo] is called
    and then [analyzeVideo], with the file itself; the progress is 100 and
    the status [ANALYZING]. *)
Theorem small_file_goes_straight_to_analysis
    (P : Platform) (evs : list App.Event) (file : File) :
  let s := App.run P evs in
  App.videoFile s = Some file -> App.status s = IDLE ->
  size file < Compress.THRESHOLD ->
  let s' := App.run P (evs ++ [App.Analyze]) in
  App.status s' = ANALYZING /\
  App.progress s' = 100 /\
  App.awaiting s' = App.ForAnalysis /\
  App.calls s'
  = App.calls s ++ [App.CompressVideo file; App.AnalyzeVideo (OfFile file)].
Proof.
  intros s Hvf Hst Hsz s'. unfold s'. rewrite app_run_snoc. fold s.
  unfold App.step, App.offered. rewrite Hvf, Hst. simpl.
  unfold App.handleAnalyze. rewrite Hvf. cbv zeta.
  rewrite (compress_fast_path_state file Hsz).
  unfold App.afterCompression. simpl. rewrite <- app_assoc. repeat split.
Qed.

Lemma small_file_goes_straight_to_analysis_witness :
  let P := {| isTypeSupported := fun _ => true; context2d := true;
              stopInactiveThrows := true; readyAtCreation := None |} in
  let file := mkFile "a.mp4" 1000 "video/mp4" in
  App.status (App.run P ([App.Upload (Some file)] ++ [App.Analyze])) = ANALYZING.
Proof.
  intros P file.
  apply (small_file_goes_straight_to_analysis P [App.Upload (Some file)] file).
  - reflexivity.
  - reflexivity.
  - vm_compute. reflexivity.
Defined.

Lemma skipn_own_length {A : Type} (l new : list A) :
  skipn (List.length l) (l ++ new) = new.
Proof. induction l as [|x l IH]; [reflexivity | exact IH]. Qed.

Lemma last_app_cons {A : Type} (l : list A) (x : A) (m : list A) (d : A) :
  last (l ++ x :: m) d = last (x :: m) d.
Proof.
  induction l as [|y l IH]; [reflexivity|].
  change ((y :: l) ++ x :: m) with (y :: (l ++ x :: m)).
  destruct (l ++ x :: m) eqn:E; [destruct l; discriminate E|].
  exact IH.
Qed.

Lemma analysisOK_started (P : Platform) (s : App.State) (run : Pipeline) :
  analysisOK P s -> App.compression s = Some run ->
  App.videoFile s <> None /\ App.status s <> IDLE.
Proof.
  unfold analysisOK. intros H E. rewrite E in H.
  destruct H as (file & cevs & Hvf & _ & H). split; [congruence|].
  destruct (promise run).
  - destruct H as (_ & -> & _). discriminate.
  - destruct H as (_ & [->|H] & _); [discriminate|].
    intros E'. rewrite E' in H. discriminate H.
  - destruct H as (_ & -> & _). discriminate.
Qed.

Lemma shown_step (P : Platform) (s : App.State) (ev : App.Event) :
  analysisOK P s ->
  App.progress s = shown s -> App.progress (App.step P s ev) = shown (App.step P s ev).
Proof.
  intros Hok.
  assert (Hco : forall run, App.compression s = Some run ->
                            App.videoFile s <> None /\ App.status s <> IDLE).
  { intros run. apply (analysisOK_started P), Hok. }
  clear Hok.
  destruct s as [st msg vf vu res ac ct du sm pr ex aw co cu ca].
  unfold shown, App.step. simpl in *. intros Hs.
  destruct (App.offered _ ev) eqn:Hoff; [|exact Hs].
  destruct ev; simpl in Hoff.
  3: { (* an event of the compression *)
    destruct co as [run|]; [|discriminate].
    unfold App.handle, App.onCompression, App.afterCompression, App.analysisFailed.
    cbv zeta. simpl. rewrite callbacks_last.
    destruct (compress_step_extends P run ev) as (new & Enew).
    assert (Er : App.reports (trace run) (trace (Compress.step P run ev))
                 = progressLog new).
    { unfold App.reports. rewrite Enew, skipn_own_length. reflexivity. }
    assert (El : progressLog (trace (Compress.step P run ev))
                 = progressLog (trace run) ++ progressLog new).
    { rewrite Enew. apply progressLog_app. }
    rewrite Er.
    destruct (progressLog new) as [|p ps]; simpl;
      destruct aw; simpl; try destruct (promise _); simpl;
      rewrite El, ?app_nil_r, ?last_app_cons;
      first [exact Hs | reflexivity]. }
  2: { (* the click on the analyse button *)
    destruct vf as [file|]; [|discriminate]. simpl in Hoff.
    destruct co as [run|].
    { destruct (Hco run eq_refl) as [_ H]. destruct st; try discriminate.
      contradiction. }
    unfold App.handle, App.handleAnalyze, App.afterCompression, App.analysisFailed.
    cbv zeta. simpl. rewrite callbacks_last. unfold App.reports. simpl.
    destruct (progressLog (trace (Compress.compressVideo file))) as [|p ps] eqn:En;
      simpl; destruct (promise _); simpl; rewrite ?En; first [exact Hs | reflexivity]. }
  1: { (* an upload *)
    destruct vf; [discriminate|]. destruct co as [run|].
    - destruct (Hco run eq_refl) as [H _]. contradiction.
    - destruct file; [reflexivity | exact Hs]. }
  all: app_handlers; app_branches; app_done.
Qed.

(** X16.  The progress bar.  The progress the component holds is the last
    percentage the run of [compressVideo] has reported, and 0 before the
    first report; nothing else moves it. *)
Theorem progress_is_the_last_report (P : Platform) (evs : list App.Event) :
  App.progress (App.run P evs) = shown (App.run P evs).
Proof.
  induction evs as [|ev evs IH] using rev_ind; [reflexivity|].
  rewrite app_run_snoc. apply shown_step; [apply analysisOK_run | exact IH].
Qed.

Lemma waiting_step (P : Platform) (file : File) (s : App.State) (ev : App.Event) :
  Compress.THRESHOLD <= size file ->
  compressCannotRecord P -> context2d P = true ->
  ev <> App.Compression EvError ->
  waiting P file s -> waiting P file (App.step P s ev).
Proof.
  intros Hsz HP Hctx Hev (cevs & Hno & Hco & Haw & Hst & Hvf & Hn).
  destruct (ofAnalysis ev) eqn:Hof.
  2: { destruct (analysis_frame P s ev Hof) as (E1 & E2 & E3 & E4 & E5 & E6).
       exists cevs. rewrite E1, E2, E3, E4, E6. repeat split; assumption. }
  destruct s as [st msg vf vu res ac ct du sm pr ex aw co cu ca].
  simpl in *. subst st aw vf co. unfold App.step.
  destruct ev as [f| |pev| | | | | | | | | |]; try discriminate Hof; simpl.
  1, 2, 4, 5: exists cevs; repeat split; assumption.
  assert (Hno' : ~ In EvError (cevs ++ [pev])).
  { intros Hin. apply in_app_or in Hin. destruct Hin as [Hin|[E|[]]].
    - exact (Hno Hin).
    - apply Hev. rewrite E. reflexivity. }
  destruct (compress_hangs P file (cevs ++ [pev]) Hsz HP Hctx Hno') as [Hp _].
  rewrite compress_run_snoc in Hp.
  unfold App.onCompression, App.afterCompression. cbv zeta. simpl.
  rewrite callbacks_last.
  exists (cevs ++ [pev]). rewrite compress_run_snoc.
  destruct (App.reports _ _); simpl; rewrite Hp; simpl; repeat split; assumption.
Qed.

Lemma waiting_fold (P : Platform) (file : File) (post : list App.Event) (s : App.State) :
  Compress.THRESHOLD <= size file ->
  compressCannotRecord P -> context2d P = true ->
  ~ In (App.Compression EvError) post ->
  waiting P file s -> waiting P file (fold_left (App.step P) post s).
Proof.
  intros Hsz HP Hctx. revert s.
  induction post as [|ev post IH]; intros s Hno Hs; simpl; [exact Hs|].
  apply IH.
  - intros Hin. apply Hno. right. exact Hin.
  - apply waiting_step; try assumption.
    intros E. apply Hno. left. exact E.
Qed.

(** X17.  An analysis that never ends.  On a platform where the recorder
    of [compressVideo] cannot be constructed, the analysis of a file at or
    above the threshold never gets anywhere: after the click the status is
    [READING_FILE] and stays so whatever happens next, short of a load
    error of the video; [analyzeVideo] is not called, and nothing in the
    page starts the analysis again. *)
Theorem analysis_waits_for_ever
    (P : Platform) (file : File) (pre post : list App.Event) :
  compressCannotRecord P -> context2d P = true ->
  Compress.THRESHOLD <= size file ->
  App.videoFile (App.run P pre) = Some file ->
  App.status (App.run P pre) = IDLE ->
  ~ In (App.Compression EvError) post ->
  let s := App.run P (pre ++ App.Analyze :: post) in
  App.status s = READING_FILE /\
  analysed (App.calls s) = [] /\
  App.offered s App.Analyze = false /\
  forall f, App.offered s (App.Upload f) = false.
Proof.
  intros HP Hctx Hsz Hvf Hst Hno s.
  assert (Hw : waiting P file s).
  { unfold s. rewrite app_run_app. simpl.
    apply waiting_fold; try assumption.
    pose proof (analysisOK_run P pre) as Hok. unfold analysisOK in Hok.
    destruct (App.compression (App.run P pre)) as [run|] eqn:Eco.
    { destruct (analysisOK_started P _ run (analysisOK_run P pre) Eco) as [_ H].
      contradiction. }
    destruct Hok as (_ & _ & Hn).
    unfold App.step, App.offered. rewrite Hvf, Hst. simpl.
    unfold App.handleAnalyze. rewrite Hvf. cbv zeta.
    destruct (compress_hangs P file [] Hsz HP Hctx (fun H => H)) as [Hp _].
    unfold Compress.run in Hp. simpl in Hp.
    unfold App.afterCompression. simpl. rewrite callbacks_last.
    exists []. unfold Compress.run. simpl fold_left.
    destruct (App.reports _ _); simpl; rewrite Hp; simpl;
      rewrite analysed_snoc, Hn; repeat split; try assumption; auto. }
  destruct Hw as (cevs & _ & _ & _ & Hs & Hf & Hn).
  split; [exact Hs|]. split; [exact Hn|].
  unfold App.offered. rewrite Hs, Hf. simpl. split; [reflexivity|].
  intros _. reflexivity.
Qed.

Lemma analysis_waits_for_ever_witness :
  let P := {| isTypeSupported := fun _ => false; context2d := true;
              stopInactiveThrows := true; readyAtCreation := None |} in
  let file := mkFile "a.mp4" 30000000 "video/mp4" in
  App.status
    (App.run P ([App.Upload (Some file)] ++ App.Analyze ::
                [App.Compression (EvLoadedMetadata 1280 720 60);
                 App.Compression EvCanPlay; App.Analyze])) = READING_FILE.
Proof.
  intros P file.
  apply (analysis_waits_for_ever P file [App.Upload (Some file)]
           [App.Compression (EvLoadedMetadata 1280 720 60);
            App.Compression EvCanPlay; App.Analyze]).
  - right. reflexivity.
  - reflexivity.
  - vm_compute. discriminate.
  - reflexivity.
  - reflexivity.
  - intros [H|[H|[H|[]]]]; discriminate H.
Defined.

Lemma count_snoc (kind : App.Call -> bool) (l : list App.Call) (c : App.Call) :
  count kind (l ++ [c]) = (count kind l + if kind c then 1 else 0)%nat.
Proof.
  unfold count. rewrite filter_app, List.length_app. simpl.
  destruct (kind c); reflexivity.
Qed.

Lemma withIds_ids (now : nat -> Z) (parsed : list ParsedClip) :
  Forall (fun c => Types.id c <> "") (Gemini.withIds now parsed).
Proof.
  apply Forall_forall. intros c Hc. apply (in_map Types.id) in Hc.
  apply withIds_from_ids in Hc. destruct Hc as (i & _ & ->).
  unfold Gemini.clipId. simpl. discriminate.
Qed.

Lemma idsOK_step (P : Platform) (s : App.State) (ev : App.Event) :
  idsOK s -> idsOK (App.step P s ev).
Proof.
  destruct s as [st msg vf vu res ac ct du sm pr ex aw co cu ca].
  unfold idsOK, App.step. simpl. intros Hs.
  destruct (App.offered _ ev) eqn:Hoff; [|exact Hs].
  destruct ev; simpl in Hoff; app_handlers; app_branches; try exact Hs;
    try (intros r E; discriminate E).
  intros r E. injection E as <-. apply withIds_ids.
Qed.

Lemma idsOK_run (P : Platform) (evs : list App.Event) : idsOK (App.run P evs).
Proof.
  induction evs as [|ev evs IH] using rev_ind.
  - intros r E. discriminate E.
  - rewrite app_run_snoc. apply idsOK_step, IH.
Qed.

Lemma exportOK_guard (P : Platform) (s : App.State) :
  exportOK P s -> App.cutting s <> None -> truthy (App.exportingClipId s) = true.
Proof.
  unfold exportOK. destruct (App.cutting s) as [[clip run]|]; [|congruence].
  intros (-> & Hid & _) _. simpl. apply String.eqb_neq in Hid. rewrite Hid.
  reflexivity.
Qed.

Lemma exportsBalanced_step (P : Platform) (s : App.State) (ev : App.Event) :
  (App.cutting s <> None -> truthy (App.exportingClipId s) = true) ->
  exportsBalanced s -> exportsBalanced (App.step P s ev).
Proof.
  destruct s as [st msg vf vu res ac ct du sm pr ex aw co cu ca].
  unfold exportsBalanced, App.step. simpl. intros Hx (H1 & H2 & H3 & H4).
  destruct (App.offered _ ev) eqn:Hoff; [|repeat split; assumption].
  destruct ev; simpl in Hoff; app_handlers; app_branches;
    rewrite ?count_snoc; simpl;
    (split; [|split; [|split]]);
    rewrite ?Forall_app; repeat split; simpl in *;
    try lia; try assumption;
    repeat constructor;
    try (unfold downloadName; apply noWhiteSpace_app;
         [apply replaceRuns_clean | apply suffix_clean]).
  all: destruct cu; [assert (true = false) by (rewrite <- Hx; congruence);
                     discriminate | simpl in *; lia].
Qed.

Lemma cut_step_settles (P : Platform) (startTime endTime : Q) (s : State) (ev : Event) :
  promise s <> Pending ->
  promise (Cut.step P startTime endTime s ev) = promise s.
Proof.
  intros H. destruct (cut_step_promise P startTime endTime s ev) as [E|[E _]];
    congruence.
Qed.

Lemma exportOK_step (P : Platform) (s : App.State) (ev : App.Event) :
  idsOK s -> exportOK P s -> exportOK P (App.step P s ev).
Proof.
  destruct s as [st msg vf vu res ac ct du sm pr ex aw co cu ca].
  unfold idsOK, exportOK, App.step. simpl. intros Hids Hs.
  destruct (App.offered _ ev) eqn:Hoff; [|exact Hs].
  destruct ev; simpl in Hoff.
  6: { (* the click on an export button *)
    unfold App.handle, App.card. simpl.
    destruct res as [r|]; simpl in *; [|exact Hs].
    destruct (nth_error (Types.clips r) index) as [clip|] eqn:Ecard; [|exact Hs].
    unfold App.handleExportClip, App.afterCut. simpl.
    destruct vf as [file|]; [|exact Hs].
    destruct (truthy ex) eqn:Etruthy; [exact Hs|]. cbv zeta. simpl.
    destruct (promise (Cut.cutVideo P file (Types.startTime clip))) eqn:Ep; simpl;
      try reflexivity.
    split; [reflexivity|]. split.
    - pose proof (Hids r eq_refl) as Hall. rewrite Forall_forall in Hall.
      apply Hall. eapply nth_error_In. exact Ecard.
    - split; [exact Ep|]. exists file, []. split; reflexivity. }
  6: { (* an event of the run of [cutVideo] *)
    unfold App.handle, App.onCutting, App.afterCut. simpl.
    destruct cu as [[clip run]|]; [|discriminate]. simpl.
    destruct Hs as (Hex & Hid & Hp & file & cevs & Hvf & Hrun).
    destruct (promise (Cut.step P (Types.startTime clip) (Types.endTime clip) run ev)) eqn:Ep;
      simpl; try reflexivity.
    repeat split; try assumption.
    exists file, (cevs ++ [ev]). split; [exact Hvf|].
    rewrite cut_run_snoc, Hrun. reflexivity. }
  all: app_handlers; app_branches; try exact Hs.
  all: try (destruct cu as [[clip run]|]; [|exact Hs];
            destruct Hs as (_ & _ & _ & file & _ & E & _); discriminate E).
  all: destruct Hs as (_ & _ & _ & file & _ & E & _); subst vf; discriminate Hoff.
Qed.

Lemma exportOK_run (P : Platform) (evs : list App.Event) :
  exportOK P (App.run P evs).
Proof.
  induction evs as [|ev evs IH] using rev_ind; [reflexivity|].
  rewrite app_run_snoc. apply exportOK_step; [apply idsOK_run | exact IH].
Qed.

Lemma exportsBalanced_run (P : Platform) (evs : list App.Event) :
  exportsBalanced (App.run P evs).
Proof.
  induction evs as [|ev evs IH] using rev_ind.
  - repeat split. constructor.
  - rewrite app_run_snoc. apply exportsBalanced_step; [|exact IH].
    apply (exportOK_guard P), exportOK_run.
Qed.

Lemma export_guard (P : Platform) (s : App.State) (index : nat) :
  truthy (App.exportingClipId s) = true ->
  App.step P s (App.Export index) = s.
Proof.
  intros Hx. unfold App.step.
  destruct (App.offered s (App.Export index)); [|reflexivity].
  unfold App.handle. destruct (App.card s index) as [clip|]; [|reflexivity].
  unfold App.handleExportClip. rewrite Hx.
  destruct (App.videoFile s); reflexivity.
Qed.

(** X18.  One export at a time.  In any run of the component
    [exportingClipId] is set exactly while a run of [cutVideo] is awaited,
    and names its clip; in that time the click on the export button of
    any clip does nothing.  Every export that was started has been saved,
    has failed with an alert, or is in flight; each save makes one
    download URL and revokes one, under a name without white space. *)
Theorem one_export_at_a_time (P : Platform) (evs : list App.Event) :
  let s := App.run P evs in
  let l := App.calls s in
  (App.exportingClipId s = None <-> App.cutting s = None) /\
  (forall clip run, App.cutting s = Some (clip, run) ->
     App.exportingClipId s = Some (Types.id clip) /\ promise run = Pending /\
     forall index, App.step P s (App.Export index) = s) /\
  count isCutVideo l
  = (count isDownload l + count isAlert l
     + if isSome (App.cutting s) then 1 else 0)%nat /\
  count isDownloadURL l = count isDownload l /\
  count isRevokeDownloadURL l = count isDownload l /\
  (forall download, In (App.Download download) l -> noWhiteSpace download).
Proof.
  intros s l.
  pose proof (exportOK_run P evs) as Hok. fold s in Hok.
  pose proof (exportsBalanced_run P evs) as (H1 & H2 & H3 & H4). fold s l in H1, H2, H3, H4.
  split; [|split].
  - unfold exportOK in Hok. destruct (App.cutting s) as [[clip run]|].
    + destruct Hok as (-> & _). split; intros E; discriminate E.
    + split; intros _; [reflexivity | exact Hok].
  - intros clip run E.
    assert (Hx : truthy (App.exportingClipId s) = true).
    { apply (exportOK_guard P); [exact Hok | rewrite E; discriminate]. }
    unfold exportOK in Hok. rewrite E in Hok. destruct Hok as (Hex & _ & Hp & _).
    split; [exact Hex|]. split; [exact Hp|].
    intros index. apply export_guard, Hx.
  - repeat split; try assumption.
    intros download Hin. rewrite Forall_forall in H4. exact (H4 _ Hin).
Qed.

Lemma one_export_at_a_time_witness :
  let P := {| isTypeSupported := fun _ => true; context2d := true;
              stopInactiveThrows := true; readyAtCreation := None |} in
  let file := mkFile "a.mp4" 1000 "video/mp4" in
  let parsed :=
    mkParsed [mkParsedClip (codeUnits "one") 1 2 [] [];
              mkParsedClip (codeUnits "two") 3 4 [] []] [] [] in
  let evs := [App.Upload (Some file); App.Analyze;
              App.AnalysisDone (fun _ => 0) parsed; App.Export 0] in
  App.step P (App.run P evs) (App.Export 1) = App.run P evs.
Proof.
  intros P file parsed evs.
  destruct (one_export_at_a_time P evs) as (_ & H & _).
  assert (E : exists clip run, App.cutting (App.run P evs) = Some (clip, run)).
  { vm_compute. eexists. eexists. reflexivity. }
  destruct E as (clip & run & E).
  exact (proj2 (proj2 (H clip run E)) 1%nat).
Defined.

(** The other events leave what [handleExportClip] works with alone. *)
Lemma export_frame (P : Platform) (s : App.State) (ev : App.Event) :
  ofExport ev = false -> App.videoFile s <> None ->
  let s' := App.step P s ev in
  App.cutting s' = App.cutting s /\
  App.exportingClipId s' = App.exportingClipId s /\
  App.videoFile s' = App.videoFile s /\
  count isCutVideo (App.calls s') = count isCutVideo (App.calls s) /\
  count isDownload (App.calls s') = count isDownload (App.calls s).
Proof.
  destruct s as [st msg vf vu res ac ct du sm pr ex aw co cu ca].
  unfold App.step. simpl. intros Hev Hvf.
  destruct (App.offered _ ev) eqn:Hoff; [|repeat split].
  destruct ev; try discriminate Hev; simpl in Hoff; app_handlers; app_branches;
    rewrite ?count_snoc; simpl; rewrite ?Nat.add_0_r; repeat split;
    try congruence.
  destruct vf; [discriminate Hoff | contradiction].
Qed.

Lemma exportWaiting_step (P : Platform) (file : File) (clip : Clip)
    (started saved : nat) (s : App.State) (ev : App.Event) :
  cutCannotRecord P -> context2d P = true -> readyAtCreation P = None ->
  Types.id clip <> "" ->
  ev <> App.Cutting EvError ->
  exportWaiting P file clip started saved s ->
  exportWaiting P file clip started saved (App.step P s ev).
Proof.
  intros HP Hctx Hready Hid Hev (cevs & Hno & Hcu & Hex & Hvf & Hn & Hm).
  assert (Hx : truthy (App.exportingClipId s) = true).
  { rewrite Hex. simpl. apply String.eqb_neq in Hid. rewrite Hid. reflexivity. }
  destruct (ofExport ev) eqn:Hof.
  2: { destruct (export_frame P s ev Hof) as (E1 & E2 & E3 & E4 & E5).
       { rewrite Hvf. discriminate. }
       exists cevs. rewrite E1, E2, E3, E4, E5. repeat split; assumption. }
  destruct ev as [| | | | |index|pev| | | | | |]; try discriminate Hof.
  - rewrite (export_guard P s index Hx).
    exists cevs. repeat split; assumption.
  - (* an event of the run of [cutVideo] *)
    assert (Hno' : ~ In EvError (cevs ++ [pev])).
    { intros Hin. apply in_app_or in Hin. destruct Hin as [Hin|[E|[]]].
      - exact (Hno Hin).
      - apply Hev. rewrite E. reflexivity. }
    destruct (cut_hangs P file (Types.startTime clip) (Types.endTime clip) (cevs ++ [pev])
                HP Hctx Hready Hno') as [Hp _].
    rewrite cut_run_snoc in Hp.
    unfold App.step, App.offered. rewrite Hcu. simpl.
    unfold App.onCutting, App.afterCut. rewrite Hcu. simpl. rewrite Hp.
    exists (cevs ++ [pev]). rewrite cut_run_snoc.
    repeat split; assumption.
Qed.

Lemma exportWaiting_fold (P : Platform) (file : File) (clip : Clip)
    (started saved : nat) (post : list App.Event) (s : App.State) :
  cutCannotRecord P -> context2d P = true -> readyAtCreation P = None ->
  Types.id clip <> "" ->
  ~ In (App.Cutting EvError) post ->
  exportWaiting P file clip started saved s ->
  exportWaiting P file clip started saved (fold_left (App.step P) post s).
Proof.
  intros HP Hctx Hready Hid. revert s.
  induction post as [|ev post IH]; intros s Hno Hs; simpl; [exact Hs|].
  apply IH.
  - intros Hin. apply Hno. right. exact Hin.
  - apply exportWaiting_step; try assumption.
    intros E. apply Hno. left. exact E.
Qed.

(** X19.  An export that never ends.  On a platform where the recorder of
    [cutVideo] cannot be constructed, an export that is started is never
    finished, short of a load error of the video: [exportingClipId] keeps
    naming its clip, nothing is saved, and no other export is started,
    whatever is clicked. *)
Theorem export_waits_for_ever
    (P : Platform) (file : File) (clip : Clip) (index : nat)
    (pre post : list App.Event) :
  cutCannotRecord P -> context2d P = true -> readyAtCreation P = None ->
  let s0 := App.run P pre in
  App.offered s0 (App.Export index) = true ->
  App.card s0 index = Some clip ->
  App.videoFile s0 = Some file ->
  App.exportingClipId s0 = None ->
  ~ In (App.Cutting EvError) post ->
  let s := App.run P (pre ++ App.Export index :: post) in
  App.exportingClipId s = Some (Types.id clip) /\
  count isCutVideo (App.calls s) = S (count isCutVideo (App.calls s0)) /\
  count isDownload (App.calls s) = count isDownload (App.calls s0).
Proof.
  intros HP Hctx Hready s0 Hoff Hcard Hvf Hex Hno s.
  assert (Hid : Types.id clip <> "").
  { pose proof (idsOK_run P pre) as Hids. fold s0 in Hids.
    unfold App.card in Hcard.
    destruct (App.result s0) as [r|] eqn:Er; [|discriminate].
    pose proof (Hids r Er) as Hall. rewrite Forall_forall in Hall.
    apply Hall. eapply nth_error_In. exact Hcard. }
  assert (Hw : exportWaiting P file clip (S (count isCutVideo (App.calls s0)))
                 (count isDownload (App.calls s0)) s).
  { unfold s. rewrite app_run_app. simpl. fold s0.
    apply exportWaiting_fold; try assumption.
    unfold App.step. rewrite Hoff. unfold App.handle. rewrite Hcard.
    unfold App.handleExportClip. rewrite Hvf, Hex. cbv zeta. simpl.
    destruct (cut_hangs P file (Types.startTime clip) (Types.endTime clip) []
                HP Hctx Hready (fun H => H)) as [Hp _].
    unfold Cut.run in Hp. simpl in Hp.
    unfold App.afterCut. simpl. rewrite Hp.
    exists []. unfold Cut.run. simpl fold_left. simpl.
    rewrite count_snoc. simpl. rewrite count_snoc. simpl.
    repeat split; auto; lia. }
  destruct Hw as (cevs & _ & _ & H1 & _ & H2 & H3).
  repeat split; assumption.
Qed.

Lemma export_waits_for_ever_witness :
  let P := {| isTypeSupported := fun _ => false; context2d := true;
              stopInactiveThrows := true; readyAtCreation := None |} in
  let file := mkFile "a.mp4" 1000 "video/mp4" in
  let parsed :=
    mkParsed [mkParsedClip (codeUnits "one") 1 2 [] [];
              mkParsedClip (codeUnits "two") 3 4 [] []] [] [] in
  let pre := [App.Upload (Some file); App.Analyze;
              App.AnalysisDone (fun _ => 0) parsed] in
  let post := [App.Cutting (EvLoadedMetadata 1280 720 60); App.Export 1;
               App.Cutting EvCanPlay] in
  App.exportingClipId (App.run P (pre ++ App.Export 0 :: post))
  = Some "clip-0-0".
Proof.
  intros P file parsed pre post.
  destruct (export_waits_for_ever P file
              (Types.mkClip "clip-0-0" 1 2 (codeUnits "one") [] []) 0 pre post)
    as (H & _).
  - right. split; reflexivity.
  - reflexivity.
  - reflexivity.
  - vm_compute. reflexivity.
  - vm_compute. reflexivity.
  - reflexivity.
  - vm_compute. reflexivity.
  - intros [H|[H|[H|[]]]]; discriminate H.
  - exact H.
Defined.
